(** * WA Files incremental backup: the WebDAV sync core of
    [src/backup-incremental.ts], embedded and verified.

    Layout of the development:
    - [JsString]: the string operations the script relies on (regular
      expression matches, [split], [includes], [decodeURIComponent]);
    - the data model ([FileInfo], [ManifestEntry], [Manifest], [SyncStats]);
    - the Digest authenticator, the multi-status parser;
    - a small monad for the asynchronous, effectful part (network, disk,
      clock) and, in it, [propfind], [downloadFile], [scanFolder],
      [syncFiles] and [main];
    - the theorems. *)

From Stdlib Require Import ZArith String Ascii List Bool Lia DecimalString.
From stdpp Require Import gmap strings list.

Local Open Scope string_scope.
Local Open Scope Z_scope.

(** ** Strings

    A JavaScript string is modelled by a [string]: text outside ASCII is
    carried as its UTF-8 bytes. *)

Module JsString.

Definition dquote : string := String "034"%char "".
Definition newline : string := String "010"%char "".

Definition is_digit (c : ascii) : bool :=
  let n := N_of_ascii c in ((48 <=? n) && (n <=? 57))%N.

Definition is_not (x : ascii) (c : ascii) : bool := negb (Ascii.eqb c x).

(** [strip_prefix p s] is [Some r] when [s = p ++ r]. *)
Fixpoint strip_prefix (p s : string) : option string :=
  match p with
  | "" => Some s
  | String a p' =>
      match s with
      | "" => None
      | String b s' => if Ascii.eqb a b then strip_prefix p' s' else None
      end
  end.

Definition starts_with (p s : string) : bool :=
  match strip_prefix p s with Some _ => true | None => false end.

(** The longest prefix of [s] made of characters of the class, and the rest. *)
Fixpoint span (cls : ascii -> bool) (s : string) : string * string :=
  match s with
  | "" => ("", "")
  | String c r =>
      if cls c then let (run, rest) := span cls r in (String c run, rest)
      else ("", s)
  end.

(** One attempt, at the start of [s], of a pattern [lead CLASS* trail]
    ([CLASS+] when [nonempty]) with the class repetition captured.  The
    repetition is greedy; in every pattern of the script the character after
    it is outside the class, so the longest run is the only candidate. *)
Definition match_here (lead : string) (cls : ascii -> bool) (nonempty : bool)
    (trail : string) (s : string) : option string :=
  match strip_prefix lead s with
  | None => None
  | Some r =>
      let (run, rest) := span cls r in
      if nonempty && (String.length run =? 0)%nat then None
      else if starts_with trail rest then Some run else None
  end.

(** [s.match(re)] for such a pattern [re], the class repetition being its
    capture group: the capture of the leftmost match, if any. *)
Fixpoint regex_capture (lead : string) (cls : ascii -> bool) (nonempty : bool)
    (trail : string) (s : string) : option string :=
  match match_here lead cls nonempty trail s with
  | Some c => Some c
  | None =>
      match s with
      | "" => None
      | String _ r => regex_capture lead cls nonempty trail r
      end
  end.

(** [s.includes(sub)]. *)
Fixpoint includes (sub s : string) : bool :=
  starts_with sub s ||
  match s with
  | "" => false
  | String _ r => includes sub r
  end.

(** [s.split(sep)] for a non-empty separator: [skip] counts the characters
    of a separator occurrence still to be passed over, [cur] is the piece
    being read. *)
Fixpoint split_go (sep : string) (skip : nat) (cur : string) (s : string)
    : list string :=
  match s with
  | "" => [cur]
  | String c r =>
      match skip with
      | S k => split_go sep k cur r
      | O =>
          if starts_with sep s
          then cur :: split_go sep (String.length sep - 1) "" r
          else split_go sep O (cur +:+ String c "") r
      end
  end.

Definition split (sep s : string) : list string := split_go sep O "" s.

(** [parseInt] on a string of decimal digits. *)
Fixpoint parseInt_go (acc : Z) (s : string) : Z :=
  match s with
  | "" => acc
  | String c r => parseInt_go (10 * acc + (Z.of_N (N_of_ascii c) - 48)) r
  end.

Definition parseInt (s : string) : Z := parseInt_go 0 s.

(** [String(n)] for an integer. *)
Definition of_Z (z : Z) : string := NilZero.string_of_int (Z.to_int z).

(** *** decodeURIComponent *)

Definition hex_val (c : ascii) : option N :=
  let n := N_of_ascii c in
  if ((48 <=? n) && (n <=? 57))%N then Some (n - 48)%N
  else if ((65 <=? n) && (n <=? 70))%N then Some (n - 55)%N
  else if ((97 <=? n) && (n <=? 102))%N then Some (n - 87)%N
  else None.

(** First pass: every [%XY] becomes the octet [XY], marked as escaped; a
    [%] that is not followed by two hexadecimal digits is a [URIError]. *)
Fixpoint unescape (s : string) : option (list (bool * ascii)) :=
  match s with
  | "" => Some []
  | String c r =>
      if Ascii.eqb c "%" then
        match r with
        | String h (String l r') =>
            match hex_val h, hex_val l with
            | Some a, Some b =>
                option_map (cons (true, ascii_of_N (16 * a + b)))
                           (unescape r')
            | _, _ => None
            end
        | _ => None
        end
      else option_map (cons (false, c)) (unescape r)
  end.

Definition in_range (lo hi : N) (x : bool * ascii) : bool :=
  fst x && ((lo <=? N_of_ascii (snd x)) && (N_of_ascii (snd x) <=? hi))%N.

(** Second pass: an escaped octet above 0x7F has to start a well-formed
    UTF-8 sequence whose octets are all escaped, otherwise [URIError]. *)
Fixpoint utf8_escapes_ok (l : list (bool * ascii)) : bool :=
  match l with
  | [] => true
  | (false, _) :: r => utf8_escapes_ok r
  | (true, c) :: r =>
      let b := N_of_ascii c in
      if (b <? 128)%N then utf8_escapes_ok r
      else if (b <? 194)%N then false
      else if (b <? 224)%N then
        match r with
        | x1 :: r1 => in_range 128 191 x1 && utf8_escapes_ok r1
        | _ => false
        end
      else if (b <? 240)%N then
        match r with
        | x1 :: x2 :: r2 =>
            in_range (if (b =? 224)%N then 160 else 128)
                     (if (b =? 237)%N then 159 else 191) x1
            && in_range 128 191 x2 && utf8_escapes_ok r2
        | _ => false
        end
      else if (b <? 245)%N then
        match r with
        | x1 :: x2 :: x3 :: r3 =>
            in_range (if (b =? 240)%N then 144 else 128)
                     (if (b =? 244)%N then 143 else 191) x1
            && in_range 128 191 x2 && in_range 128 191 x3
            && utf8_escapes_ok r3
        | _ => false
        end
      else false
  end.

(** [None] stands for the [URIError] the built-in throws. *)
Definition decodeURIComponent (s : string) : option string :=
  match unescape s with
  | None => None
  | Some l =>
      if utf8_escapes_ok l then Some (string_of_list_ascii (map snd l))
      else None
  end.

(** [href.replace(/^https:\/\/[^/]+\/resources\//, '')]. *)
Definition strip_resources_prefix (href : string) : string :=
  match strip_prefix "https://" href with
  | None => href
  | Some r =>
      let (host, rest) := span (is_not "/") r in
      if (String.length host =? 0)%nat then href
      else match strip_prefix "/resources/" rest with
           | Some tail => tail
           | None => href
           end
  end.

(** [s.replace(/\/$/, '')]. *)
Fixpoint strip_trailing_slash (s : string) : string :=
  match s with
  | "" => ""
  | String c r =>
      match r with
      | "" => if Ascii.eqb c "/" then "" else s
      | _ => String c (strip_trailing_slash r)
      end
  end.

(** [s.split(sep)[0]] for a one-character separator. *)
Definition before (sep : ascii) (s : string) : string :=
  fst (span (is_not sep) s).

End JsString.

Import JsString.

(** ** Data model *)

(** A number as the script meets it in [lastModifiedTime]: an integer (epoch
    milliseconds), [NaN] (the time of an invalid [Date]) or, in a manifest
    read back from disk, [null] (what [JSON.stringify] writes for [NaN]). *)
Inductive jsnum : Type :=
| Num (z : Z)
| NaN
| Null.

#[global] Instance jsnum_eq_dec : EqDecision jsnum.
Proof. solve_decision. Defined.

(** [a > b]: [null] converts to 0, any comparison with [NaN] is false. *)
Definition js_gt (a b : jsnum) : bool :=
  match a, b with
  | NaN, _ | _, NaN => false
  | Num x, Num y => y <? x
  | Num x, Null => 0 <? x
  | Null, Num y => y <? 0
  | Null, Null => false
  end.

(** File sizes and counters are integers in the range where JavaScript
    numbers are exact, hence [Z]. *)
Record FileInfo : Type := mkFileInfo {
  href : string;
  name : string;
  relativePath : string;
  size : Z;
  isFolder : bool;
  lastModified : string;
  lastModifiedTime : jsnum;
}.

Record ManifestEntry : Type := mkManifestEntry {
  e_relativePath : string;
  e_size : Z;
  e_lastModified : string;
  e_lastModifiedTime : jsnum;
  e_syncedAt : string;
  e_hash : option string;
}.

(** [files] is the object used as a map from [relativePath] to entry.  It
    is a plain object: [files] holds its own properties, the ones that
    [Object.keys], [Object.values] and [JSON.stringify] see, and
    [files_proto] its prototype, which is [Object.prototype] ([None]) until
    an assignment to the key [__proto__] replaces it by the entry
    assigned. *)
Record Manifest : Type := mkManifest {
  lastFullSync : string;
  lastIncrementalSync : string;
  totalFiles : Z;
  totalSize : Z;
  files : gmap string ManifestEntry;
  files_proto : option ManifestEntry;
}.

(** The names of the properties of [Object.prototype] in Node.js, the
    accessor [__proto__] apart. *)
Definition Object_prototype_names : list string :=
  ["constructor"; "__defineGetter__"; "__defineSetter__"; "hasOwnProperty";
   "__lookupGetter__"; "__lookupSetter__"; "isPrototypeOf";
   "propertyIsEnumerable"; "toString"; "valueOf"; "toLocaleString"].

(** What the expression [manifest.files[key]] can evaluate to. *)
Inductive JsValue : Type :=
| Undefined
| EntryObject (e : ManifestEntry)  (* an entry *)
| BuiltinObject                    (* [Object.prototype] or one of its functions *)
| StringValue (s : string)
| NumberValue (n : jsnum).

(** [e[key]] for an entry [e], when [key] is one of its own properties. *)
Definition entry_field (e : ManifestEntry) (key : string) : option JsValue :=
  if String.eqb key "relativePath" then Some (StringValue (e_relativePath e))
  else if String.eqb key "size" then Some (NumberValue (Num (e_size e)))
  else if String.eqb key "lastModified" then Some (StringValue (e_lastModified e))
  else if String.eqb key "lastModifiedTime"
       then Some (NumberValue (e_lastModifiedTime e))
  else if String.eqb key "syncedAt" then Some (StringValue (e_syncedAt e))
  else if String.eqb key "hash" then StringValue <$> e_hash e
  else None.

(** What the prototype chain of [manifest.files] gives for [key]: for
    [__proto__] the prototype itself, for another key a property of the
    entry that is the prototype, if there is one, and then a property of
    [Object.prototype]. *)
Definition inherited_at (m : Manifest) (key : string) : JsValue :=
  if String.eqb key "__proto__" then
    match files_proto m with
    | Some e => EntryObject e
    | None => BuiltinObject
    end
  else
    match files_proto m ≫= (fun e => entry_field e key) with
    | Some v => v
    | None =>
        if bool_decide (key ∈ Object_prototype_names) then BuiltinObject
        else Undefined
    end.

(** [manifest.files[key]]: an own property, or else an inherited one. *)
Definition files_at (m : Manifest) (key : string) : JsValue :=
  match files m !! key with
  | Some e => EntryObject e
  | None => inherited_at m key
  end.

(** [!v] is false. *)
Definition js_truthy (v : JsValue) : bool :=
  match v with
  | Undefined => false
  | EntryObject _ | BuiltinObject => true
  | StringValue s => negb (String.eqb s "")
  | NumberValue (Num z) => negb (z =? 0)
  | NumberValue _ => false
  end.

(** [v.size] and [v.lastModifiedTime]; [None] is [undefined]. *)
Definition size_of (v : JsValue) : option Z :=
  match v with EntryObject e => Some (e_size e) | _ => None end.

Definition lastModifiedTime_of (v : JsValue) : option jsnum :=
  match v with EntryObject e => Some (e_lastModifiedTime e) | _ => None end.

(** [manifest.files[key] = e].  The key [__proto__] reaches the setter of
    [Object.prototype], which replaces the prototype, unless the object has
    an own property of that name (as [JSON.parse] creates); with any other
    key the own property is created or replaced. *)
Definition files_assign (key : string) (e : ManifestEntry) (m : Manifest)
    : Manifest :=
  if String.eqb key "__proto__" && negb (bool_decide (is_Some (files m !! key)))
  then mkManifest (lastFullSync m) (lastIncrementalSync m) (totalFiles m)
         (totalSize m) (files m) (Some e)
  else mkManifest (lastFullSync m) (lastIncrementalSync m) (totalFiles m)
         (totalSize m) (<[key := e]> (files m)) (files_proto m).

Record SyncStats : Type := mkSyncStats {
  started : string;
  foldersScanned : Z;
  filesFound : Z;
  filesNew : Z;
  filesModified : Z;
  filesUnchanged : Z;
  filesDownloaded : Z;
  bytesDownloaded : Z;
  errors : list string;
  duration : Z;  (* in milliseconds; the script divides by 1000 *)
}.

#[global] Instance FileInfo_eq_dec : EqDecision FileInfo.
Proof. solve_decision. Defined.
#[global] Instance ManifestEntry_eq_dec : EqDecision ManifestEntry.
Proof. solve_decision. Defined.

Inductive SyncStatus : Type := new | modified | unchanged.

(** ** Configuration *)

Record Config : Type := mkConfig {
  username : string;
  password : string;
  baseUrl : string;
  backupDir : string;
  manifestFile : string;
  logFile : string;
  notifyEmail : string;
  dryRun : bool;
  fullSync : bool;
}.

(** The process environment the script reads its configuration from. *)
Record ProcessEnv : Type := mkProcessEnv {
  WA_PASSWORD : option string;
  BACKUP_DIR : option string;
  MANIFEST_FILE : option string;
  LOG_FILE : option string;
  NOTIFY_EMAIL : option string;
  argv : list string;
}.

(** [v || d] on a string that may be undefined. *)
Definition or_default (v : option string) (d : string) : string :=
  match v with
  | Some s => if String.eqb s "" then d else s
  | None => d
  end.

Definition argv_includes (flag : string) (args : list string) : bool :=
  existsb (String.eqb flag) args.

Definition CONFIG (p : ProcessEnv) : Config :=
  {| username := "technology@sbnewcomers.org";
     password := or_default (WA_PASSWORD p) "";
     baseUrl := "https://sbnewcomers.org/resources";
     backupDir := or_default (BACKUP_DIR p) "./backups";
     manifestFile := or_default (MANIFEST_FILE p) "./backup-manifest.json";
     logFile := or_default (LOG_FILE p) "./backup.log";
     notifyEmail := or_default (NOTIFY_EMAIL p) "";
     dryRun := argv_includes "--dry-run" (argv p);
     fullSync := argv_includes "--full" (argv p) |}.

(** ** The JavaScript runtime

    Library functions of Node.js that the script calls and that are not part
    of this repository.  The clock and the random generator are read through a
    counter kept in the program state: [toISOString n] is the text of the
    [n]-th reading of the clock, [random_token n] the value of
    [Math.random().toString(36).substring(2, 10)] at the [n]-th draw. *)

Record Url : Type := mkUrl {
  hostname : string;
  pathname : string;
  search : string;
}.

Record Runtime : Type := mkRuntime {
  md5_hex : string -> string;            (* createHash('md5').update(s).digest('hex') *)
  date_getTime : string -> jsnum;        (* new Date(s).getTime() *)
  toISOString : nat -> string;           (* new Date().toISOString() *)
  date_now : nat -> Z;                   (* Date.now() *)
  random_token : nat -> string;
  new_URL : string -> option Url;        (* None: TypeError, invalid URL *)
  path_join : string -> string -> string;
  path_dirname : string -> string;
  path_basename : string -> string;
  JSON_valid : string -> bool;           (* JSON.parse(s) does not throw *)
}.

(** ** Remote peer *)

Inductive Method : Type := PROPFIND | GET.

Definition method_name (m : Method) : string :=
  match m with PROPFIND => "PROPFIND" | GET => "GET" end.

Record Request : Type := mkRequest {
  rq_method : Method;
  rq_hostname : string;
  rq_port : Z;
  rq_path : string;
  rq_headers : list (string * string);
  rq_body : string;
}.

Record Response : Type := mkResponse {
  statusCode : Z;
  www_authenticate : option string;
  location : option string;
  body : string;
}.

(** What comes back for a request: a response, or an ['error'] event on the
    request (connection refused, reset, timeout); [err] is the text the
    error gives in a template string. *)
Inductive Exchange : Type :=
| Responds (res : Response)
| Fails (err : string).

(** The environment of one run: the server, and whether a write stream opened
    on a given path finishes ([true]) or emits ['error']. *)
Record Env : Type := mkEnv {
  server : Request -> Exchange;
  stream_ok : string -> bool;
}.

(** ** Pure components *)

Section Pure.

Variable rt : Runtime.
Variable cfg : Config.

(** *** Digest authentication

    [cnonce] is the value of the random expression of the source; the
    caller draws it. *)
Definition createDigestAuth (cnonce realm nonce uri method : string) : string :=
  let ha1 := md5_hex rt (username cfg +:+ ":" +:+ realm +:+ ":" +:+ password cfg) in
  let ha2 := md5_hex rt (method +:+ ":" +:+ uri) in
  let nc := "00000001" in
  let response :=
    md5_hex rt (ha1 +:+ ":" +:+ nonce +:+ ":" +:+ nc +:+ ":" +:+ cnonce
                +:+ ":auth:" +:+ ha2) in
  "Digest username=" +:+ dquote +:+ username cfg +:+ dquote
  +:+ ", realm=" +:+ dquote +:+ realm +:+ dquote
  +:+ ", nonce=" +:+ dquote +:+ nonce +:+ dquote
  +:+ ", uri=" +:+ dquote +:+ uri +:+ dquote
  +:+ ", qop=auth, nc=" +:+ nc
  +:+ ", cnonce=" +:+ dquote +:+ cnonce +:+ dquote
  +:+ ", response=" +:+ dquote +:+ response +:+ dquote.

(** The two matches on a [WWW-Authenticate] header. *)
Definition realmMatch (wwwAuth : string) : option string :=
  regex_capture ("realm=" +:+ dquote) (is_not "034") true dquote wwwAuth.

Definition nonceMatch (wwwAuth : string) : option string :=
  regex_capture ("nonce=" +:+ dquote) (is_not "034") true dquote wwwAuth.

(** *** Multi-status parsing *)

(** The path compared with the folder being listed: the decoded href
    without the resource root and without a final slash. *)
Definition hrefPath (decodedHref : string) : string :=
  strip_trailing_slash (strip_resources_prefix decodedHref).

(** The skip test of the loop: [relativePath === currentPath ||
    (!relativePath && !currentPath)]. *)
Definition isCurrentFolder (relPath currentPath : string) : bool :=
  String.eqb relPath currentPath
  || (String.eqb relPath "" && String.eqb currentPath "").

(** What one iteration of the loop of [parseMultistatus] does with a
    response block. *)
Inductive BlockResult : Type :=
| Pushed (item : FileInfo)
| Skipped
| URIError.

Definition parseResponse (response currentPath : string) : BlockResult :=
  let hrefMatch := regex_capture "<d:href>" (is_not "<") true "</d:href>" response in
  let nameMatch :=
    regex_capture "<d:displayname>" (is_not "<") false "</d:displayname>" response in
  let sizeMatch :=
    regex_capture "<d:getcontentlength>" is_digit true "</d:getcontentlength>" response in
  let isFolder := includes "<d:collection" response in
  let lastModMatch :=
    regex_capture "<d:getlastmodified>" (is_not "<") true "</d:getlastmodified>" response in
  match hrefMatch with
  | None => Skipped
  | Some raw =>
      match decodeURIComponent raw with
      | None => URIError
      | Some href =>
          let name := match nameMatch with
                      | Some n => n
                      | None => path_basename rt href
                      end in
          let relativePath := hrefPath href in
          if isCurrentFolder relativePath currentPath then Skipped
          else
            let lastModified := match lastModMatch with Some l => l | None => "" end in
            let lastModifiedTime :=
              if String.eqb lastModified "" then Num 0
              else date_getTime rt lastModified in
            match decodeURIComponent relativePath with
            | None => URIError
            | Some decoded =>
                Pushed {| href := href;
                          name := name;
                          relativePath := decoded;
                          size := match sizeMatch with
                                  | Some d => parseInt d
                                  | None => 0
                                  end;
                          isFolder := isFolder;
                          lastModified := lastModified;
                          lastModifiedTime := lastModifiedTime |}
            end
      end
  end.

(** The loop over the blocks; [None] when an iteration throws. *)
Fixpoint parseResponses (responses : list string) (currentPath : string)
    : option (list FileInfo) :=
  match responses with
  | [] => Some []
  | response :: rest =>
      match parseResponse response currentPath with
      | URIError => None
      | Skipped => parseResponses rest currentPath
      | Pushed item => option_map (cons item) (parseResponses rest currentPath)
      end
  end.

Definition parseMultistatus (xml currentPath : string) : option (list FileInfo) :=
  let responses := tail (split "<d:response>" xml) in
  parseResponses responses currentPath.

(** *** Classification *)

(** [a > b] and [a !== b] when [b] may be [undefined]. *)
Definition js_gt_undefined (a : jsnum) (b : option jsnum) : bool :=
  match b with Some t => js_gt a t | None => false end.

Definition js_neq_undefined (a : Z) (b : option Z) : bool :=
  match b with Some z => negb (a =? z) | None => true end.

Definition needsSync (file : FileInfo) (manifest : Manifest) : SyncStatus :=
  let existing := files_at manifest (relativePath file) in
  if negb (js_truthy existing) then new
  else if js_gt_undefined (lastModifiedTime file) (lastModifiedTime_of existing)
          || js_neq_undefined (size file) (size_of existing)
  then modified
  else unchanged.

(** *** Formatting *)

(** [x.toFixed(digits)] for [x = num / den] with [den] a power of two and
    [num >= den]: such a quotient is exact, and [toFixed] rounds the exact
    value, the larger candidate on a tie. *)
Definition toFixed_ratio (num den : Z) (digits : nat) : string :=
  let scale := 10 ^ Z.of_nat digits in
  let n := (2 * num * scale + den) / (2 * den) in
  let frac := of_Z (n mod scale) in
  of_Z (n / scale) +:+ "." +:+
  string_of_list_ascii (repeat "0"%char (digits - String.length frac))
  +:+ frac.

Definition formatBytes (bytes : Z) : string :=
  if bytes <? 1024 then of_Z bytes +:+ " B"
  else if bytes <? 1024 * 1024 then toFixed_ratio bytes 1024 1 +:+ " KB"
  else if bytes <? 1024 * 1024 * 1024
       then toFixed_ratio bytes (1024 * 1024) 1 +:+ " MB"
  else toFixed_ratio bytes (1024 * 1024 * 1024) 2 +:+ " GB".

End Pure.

(** ** Program state and effects *)

(** The content of a file on disk: the text of a document followed by
    appended text.  The two documents the script writes as a whole are kept
    as the values they are generated from: [ManifestJson m] stands for the
    text [JSON.stringify(m, null, 2)], [ReportMd st m] for the text of
    [generateReport(st, m)]. *)
Inductive Doc : Type :=
| NoDoc
| ManifestJson (m : Manifest)
| ReportMd (st : SyncStats) (m : Manifest).

Record FileData : Type := mkFileData {
  doc : Doc;
  text : string;
}.

(** The disk, the counters behind the clock and the random generator, the
    requests sent so far, and the three objects [main] creates and every
    function mutates in place: the manifest, the statistics and the to-sync
    list.  Output on the console is not part of the state. *)
Record State : Type := mkState {
  disk_files : gmap string FileData;
  disk_dirs : gset string;
  clock : nat;
  draws : nat;
  sent : list Request;
  manifest : Manifest;
  stats : SyncStats;
  filesToSync : list FileInfo;
}.

Definition with_disk_files (f : gmap string FileData) (s : State) : State :=
  mkState f (disk_dirs s) (clock s) (draws s) (sent s)
          (manifest s) (stats s) (filesToSync s).
Definition with_disk_dirs (d : gset string) (s : State) : State :=
  mkState (disk_files s) d (clock s) (draws s) (sent s)
          (manifest s) (stats s) (filesToSync s).
Definition with_clock (n : nat) (s : State) : State :=
  mkState (disk_files s) (disk_dirs s) n (draws s) (sent s)
          (manifest s) (stats s) (filesToSync s).
Definition with_draws (n : nat) (s : State) : State :=
  mkState (disk_files s) (disk_dirs s) (clock s) n (sent s)
          (manifest s) (stats s) (filesToSync s).
Definition with_sent (l : list Request) (s : State) : State :=
  mkState (disk_files s) (disk_dirs s) (clock s) (draws s) l
          (manifest s) (stats s) (filesToSync s).
Definition with_manifest (m : Manifest) (s : State) : State :=
  mkState (disk_files s) (disk_dirs s) (clock s) (draws s) (sent s)
          m (stats s) (filesToSync s).
Definition with_stats (st : SyncStats) (s : State) : State :=
  mkState (disk_files s) (disk_dirs s) (clock s) (draws s) (sent s)
          (manifest s) st (filesToSync s).
Definition with_filesToSync (l : list FileInfo) (s : State) : State :=
  mkState (disk_files s) (disk_dirs s) (clock s) (draws s) (sent s)
          (manifest s) (stats s) l.

(** How a call ends. *)
Inductive Outcome (A : Type) : Type :=
| Returns (a : A)      (* returns, or its promise is resolved *)
| Throws (e : string)  (* throws, or its promise is rejected: can be caught *)
| Crashes (e : string) (* an exception or ['error'] event nobody handles, raised
                          inside an event callback: the process dies *)
| Exits (code : Z)     (* process.exit(code) *)
| NeverSettles         (* its promise is neither resolved nor rejected *)
| OutOfFuel            (* the recursion bound of the model was reached *)
| Unchecked.           (* [JSON.parse] gave a value that nothing checks to be a
                          [Manifest]: what the script does with it is outside
                          the model *)

Arguments Returns {A} a.
Arguments Throws {A} e.
Arguments Crashes {A} e.
Arguments Exits {A} code.
Arguments NeverSettles {A}.
Arguments OutOfFuel {A}.
Arguments Unchecked {A}.

Definition M (A : Type) : Type := State -> Outcome A * State.

Definition ret {A} (a : A) : M A := fun s => (Returns a, s).

Definition bind {A B} (m : M A) (k : A -> M B) : M B :=
  fun s =>
    match m s with
    | (Returns a, s') => k a s'
    | (Throws e, s') => (Throws e, s')
    | (Crashes e, s') => (Crashes e, s')
    | (Exits c, s') => (Exits c, s')
    | (NeverSettles, s') => (NeverSettles, s')
    | (OutOfFuel, s') => (OutOfFuel, s')
    | (Unchecked, s') => (Unchecked, s')
    end.

Declare Scope m_scope.
Delimit Scope m_scope with M.
Notation "x <- m ;; k" := (bind m (fun x => k))
  (at level 100, m at next level, right associativity) : m_scope.
Notation "m ;; k" := (bind m (fun _ => k))
  (at level 100, right associativity) : m_scope.
Local Open Scope m_scope.

Definition throw {A} (e : string) : M A := fun s => (Throws e, s).
Definition crash {A} (e : string) : M A := fun s => (Crashes e, s).
Definition exit {A} (code : Z) : M A := fun s => (Exits code, s).
Definition never {A} : M A := fun s => (NeverSettles, s).
Definition out_of_fuel {A} : M A := fun s => (OutOfFuel, s).
Definition unchecked {A} : M A := fun s => (Unchecked, s).

(** [try { m } catch (e) { h e }]. *)
Definition try_catch {A} (m : M A) (h : string -> M A) : M A :=
  fun s =>
    match m s with
    | (Throws e, s') => h e s'
    | r => r
    end.

Definition get {A} (proj : State -> A) : M A := fun s => (Returns (proj s), s).
Definition update (f : State -> State) : M unit := fun s => (Returns tt, f s).

(** [for (const x of l) { f x }]. *)
Fixpoint for_each {A} (l : list A) (f : A -> M unit) : M unit :=
  match l with
  | [] => ret tt
  | x :: r => f x ;; for_each r f
  end.

Definition set_stats (f : SyncStats -> SyncStats) : M unit :=
  update (fun s => with_stats (f (stats s)) s).

Definition push_error (error : string) (st : SyncStats) : SyncStats :=
  mkSyncStats (started st) (foldersScanned st) (filesFound st) (filesNew st)
    (filesModified st) (filesUnchanged st) (filesDownloaded st)
    (bytesDownloaded st) (errors st ++ [error]) (duration st).

(** *** Disk primitives *)

Definition appendFileSync (path data : string) : M unit :=
  update (fun s =>
    let old := match disk_files s !! path with
               | Some d => d
               | None => mkFileData NoDoc ""
               end in
    with_disk_files (<[path := mkFileData (doc old) (text old +:+ data)]> (disk_files s)) s).

Definition writeFileSync (path : string) (d : FileData) : M unit :=
  update (fun s => with_disk_files (<[path := d]> (disk_files s)) s).

Definition existsSync (path : string) : M bool :=
  get (fun s => bool_decide (is_Some (disk_files s !! path))
                || bool_decide (path ∈ disk_dirs s)).

(** The directories above [path]: the prefixes of [path] that end before
    a separator, the empty one apart. *)
Fixpoint ancestors_go (prefix rest : string) : list string :=
  match rest with
  | "" => []
  | String c r =>
      (if Ascii.eqb c "/" && negb (String.eqb prefix "") then [prefix] else [])
      ++ ancestors_go (prefix +:+ String c "") r
  end.

Definition ancestors (path : string) : list string := ancestors_go "" path.

(** The directories [fs.mkdirSync(dir, { recursive: true })] makes sure of:
    [dir] and the directories above it. *)
Definition mkdir_dirs (dir : string) : gset string :=
  {[dir]} ∪ list_to_set (ancestors dir).

(** [fs.mkdirSync(dir, { recursive: true })]. *)
Definition mkdirSync (dir : string) : M unit :=
  update (fun s => with_disk_dirs (mkdir_dirs dir ∪ disk_dirs s) s).

(** [if (!fs.existsSync(dir)) fs.mkdirSync(dir, { recursive: true })]. *)
Definition ensure_dir (dir : string) : M unit :=
  present <- existsSync dir ;;
  if present then ret tt else mkdirSync dir.

(** ** The effectful components *)

Section Program.

Variable rt : Runtime.
Variable cfg : Config.
Variable env : Env.

(** *** Clock, random generator, network *)

Definition tick : M nat :=
  fun s => (Returns (clock s), with_clock (S (clock s)) s).

(** [new Date().toISOString()]. *)
Definition now_iso : M string := n <- tick ;; ret (toISOString rt n).

(** [Date.now()]. *)
Definition now_ms : M Z := n <- tick ;; ret (date_now rt n).

(** [Math.random().toString(36).substring(2, 10)]. *)
Definition draw_cnonce : M string :=
  fun s => (Returns (random_token rt (draws s)), with_draws (S (draws s)) s).

(** Sending a request and waiting for what comes back. *)
Definition request (r : Request) : M Exchange :=
  fun s => (Returns (server env r), with_sent (sent s ++ [r]) s).

(** *** Logging *)

Definition log (message level : string) : M unit :=
  timestamp <- now_iso ;;
  let logLine := "[" +:+ timestamp +:+ "] [" +:+ level +:+ "] " +:+ message in
  appendFileSync (logFile cfg) (logLine +:+ newline).

Definition INFO : string := "INFO".
Definition WARN : string := "WARN".
Definition ERROR : string := "ERROR".

(** *** WebDAV operations *)

Definition propfind_body : string :=
  "<?xml version=" +:+ dquote +:+ "1.0" +:+ dquote
  +:+ "?><d:propfind xmlns:d=" +:+ dquote +:+ "DAV:" +:+ dquote
  +:+ "><d:prop><d:displayname/><d:getcontentlength/><d:resourcetype/>"
  +:+ "<d:getlastmodified/></d:prop></d:propfind>".

Definition propfind_headers : list (string * string) :=
  [("Content-Type", "application/xml"); ("Depth", "1")].

(** [resolve(parseMultistatus(data, folderPath))] inside an ['end']
    callback: an exception of the parser is not caught by anyone. *)
Definition resolve_parsed (data folderPath : string) : M (list FileInfo) :=
  match parseMultistatus rt data folderPath with
  | Some items => ret items
  | None => crash "URIError: URI malformed"
  end.

(** The URL and the request options of a listing; [authorization] is the
    header added for the second attempt. *)
Definition propfind_url (folderPath : string) : string :=
  if String.eqb folderPath ""
  then baseUrl cfg +:+ "/"
  else baseUrl cfg +:+ "/" +:+ folderPath +:+ "/".

Definition propfind_options (url : Url) (authorization : option string) : Request :=
  mkRequest PROPFIND (hostname url) 443 (pathname url)
    (propfind_headers ++ match authorization with
                         | Some a => [("Authorization", a)]
                         | None => []
                         end)
    propfind_body.

Definition propfind (folderPath : string) : M (list FileInfo) :=
  match new_URL rt (propfind_url folderPath) with
  | None => throw "TypeError: Invalid URL"
  | Some url =>
      x <- request (propfind_options url None) ;;
      match x with
      | Fails err => throw err
      | Responds res =>
          if statusCode res =? 401 then
            let wwwAuth := default "" (www_authenticate res) in
            match realmMatch wwwAuth, nonceMatch wwwAuth with
            | Some realm, Some nonce =>
                cnonce <- draw_cnonce ;;
                let authorization :=
                  createDigestAuth rt cfg cnonce realm nonce (pathname url) "PROPFIND" in
                y <- request (propfind_options url (Some authorization)) ;;
                match y with
                | Fails err => crash err    (* no 'error' listener on authReq *)
                | Responds authRes =>
                    if statusCode authRes =? 207
                    then resolve_parsed (body authRes) folderPath
                    else throw ("Error: HTTP " +:+ of_Z (statusCode authRes))
                end
            | _, _ => never               (* neither resolve nor reject is called *)
            end
          else resolve_parsed (body res) folderPath
      end
  end.

(** Piping a response body into [fs.createWriteStream(destPath)]: [true]
    on ['finish'], [false] on ['error'] (the disk is then left as it was
    in the model). *)
Definition pipe_to_file (destPath data : string) : M bool :=
  if stream_ok env destPath
  then writeFileSync destPath (mkFileData NoDoc data) ;; ret true
  else ret false.

Definition truthy (o : option string) : option string :=
  match o with
  | Some s => if String.eqb s "" then None else Some s
  | None => None
  end.

(** The body of [handleResponse]; [again] is the recursive call made on
    the response to the authenticated request. *)
Definition handleResponseWith (again : Response -> M bool)
    (url : Url) (destPath : string) (res : Response) (isAuth : bool) : M bool :=
  match (300 <=? statusCode res) && (statusCode res <? 400), truthy (location res) with
  | true, Some loc =>
      match new_URL rt loc with
      | None => crash "TypeError: Invalid URL"
      | Some redirectUrl =>
          x <- request (mkRequest GET (hostname redirectUrl) 443
                          (pathname redirectUrl +:+ search redirectUrl) [] "") ;;
          match x with
          | Fails _ => ret false
          | Responds redirectRes =>
              if statusCode redirectRes =? 200
              then pipe_to_file destPath (body redirectRes)
              else ret false
          end
      end
  | _, _ =>
      if (statusCode res =? 401) && negb isAuth then
        let wwwAuth := default "" (www_authenticate res) in
        match realmMatch wwwAuth, nonceMatch wwwAuth with
        | Some realm, Some nonce =>
            cnonce <- draw_cnonce ;;
            let authHeader :=
              createDigestAuth rt cfg cnonce realm nonce (pathname url) "GET" in
            x <- request (mkRequest GET (hostname url) 443 (pathname url)
                            [("Authorization", authHeader)] "") ;;
            match x with
            | Fails _ => ret false
            | Responds authRes => again authRes
            end
        | _, _ => ret false
        end
      else if statusCode res =? 200 then pipe_to_file destPath (body res)
      else ret false
  end.

(** [handleResponse(res, isAuth)]: the recursion stops after one level,
    since the nested call has [isAuth = true]. *)
Definition handleResponse (url : Url) (destPath : string)
    (res : Response) (isAuth : bool) : M bool :=
  handleResponseWith
    (fun authRes =>
       handleResponseWith (fun _ => ret false) url destPath authRes true)
    url destPath res isAuth.

Definition downloadFile (fileUrl destPath : string) : M bool :=
  if dryRun cfg then ret true
  else
    match new_URL rt fileUrl with
    | None => throw "TypeError: Invalid URL"
    | Some url =>
        let dir := path_dirname rt destPath in
        ensure_dir dir ;;
        x <- request (mkRequest GET (hostname url) 443 (pathname url) [] "") ;;
        match x with
        | Fails _ => ret false
        | Responds res => handleResponse url destPath res false
        end
    end.

(** *** Manifest management *)

Definition emptyManifest : Manifest :=
  {| lastFullSync := ""; lastIncrementalSync := "";
     totalFiles := 0; totalSize := 0; files := ∅; files_proto := None |}.

(** What [JSON.parse(JSON.stringify(m))] gives back for a manifest [m]:
    [NaN] is written as [null], only own properties are written, and the
    object read back has the prototype of every object literal; everything
    else survives. *)
Definition json_number (n : jsnum) : jsnum :=
  match n with NaN => Null | _ => n end.

Definition json_entry (e : ManifestEntry) : ManifestEntry :=
  mkManifestEntry (e_relativePath e) (e_size e) (e_lastModified e)
    (json_number (e_lastModifiedTime e)) (e_syncedAt e) (e_hash e).

Definition json_roundtrip (m : Manifest) : Manifest :=
  mkManifest (lastFullSync m) (lastIncrementalSync m) (totalFiles m)
    (totalSize m) (json_entry <$> files m) None.

(** White space may follow a JSON value. *)
Definition is_space (c : ascii) : bool :=
  Ascii.eqb c " " || Ascii.eqb c "009" || Ascii.eqb c "010" || Ascii.eqb c "013".

Fixpoint is_blank (s : string) : bool :=
  match s with
  | "" => true
  | String c r => is_space c && is_blank r
  end.

(** [JSON.parse] on the content of a file that holds a manifest document:
    the manifest it gives when nothing but white space follows the
    document. *)
Definition JSON_parse (d : FileData) : option Manifest :=
  match doc d with
  | ManifestJson m => if is_blank (text d) then Some (json_roundtrip m) else None
  | _ => None
  end.

(** [JSON.parse] on any other content: whether it throws.  It does when
    something else than white space follows a manifest document, and on a
    report, which starts with [#]; for a text that was not written as a
    document the runtime decides. *)
Definition JSON_parse_throws (d : FileData) : bool :=
  match doc d with
  | ManifestJson _ => negb (is_blank (text d))
  | ReportMd _ _ => true
  | NoDoc => negb (JSON_valid rt (text d))
  end.

(** [content] is [None] when the path is that of a directory:
    [readFileSync] throws. *)
Definition loadManifest : M Manifest :=
  present <- existsSync (manifestFile cfg) ;;
  if present then
    content <- get (fun s => disk_files s !! manifestFile cfg) ;;
    match content ≫= JSON_parse with
    | Some m => ret m
    | None =>
        if default true (JSON_parse_throws <$> content) then
          (* the text of the exception is not modelled *)
          log "Failed to load manifest, starting fresh: SyntaxError" WARN ;;
          ret emptyManifest
        else unchecked
    end
  else ret emptyManifest.

Definition saveManifest (m : Manifest) : M unit :=
  if negb (dryRun cfg)
  then writeFileSync (manifestFile cfg) (mkFileData (ManifestJson m) "")
  else ret tt.

(** *** Sync logic *)

Definition bump_foldersScanned (st : SyncStats) : SyncStats :=
  mkSyncStats (started st) (foldersScanned st + 1) (filesFound st) (filesNew st)
    (filesModified st) (filesUnchanged st) (filesDownloaded st)
    (bytesDownloaded st) (errors st) (duration st).
Definition bump_filesFound (st : SyncStats) : SyncStats :=
  mkSyncStats (started st) (foldersScanned st) (filesFound st + 1) (filesNew st)
    (filesModified st) (filesUnchanged st) (filesDownloaded st)
    (bytesDownloaded st) (errors st) (duration st).
Definition bump_filesNew (st : SyncStats) : SyncStats :=
  mkSyncStats (started st) (foldersScanned st) (filesFound st) (filesNew st + 1)
    (filesModified st) (filesUnchanged st) (filesDownloaded st)
    (bytesDownloaded st) (errors st) (duration st).
Definition bump_filesModified (st : SyncStats) : SyncStats :=
  mkSyncStats (started st) (foldersScanned st) (filesFound st) (filesNew st)
    (filesModified st + 1) (filesUnchanged st) (filesDownloaded st)
    (bytesDownloaded st) (errors st) (duration st).
Definition bump_filesUnchanged (st : SyncStats) : SyncStats :=
  mkSyncStats (started st) (foldersScanned st) (filesFound st) (filesNew st)
    (filesModified st) (filesUnchanged st + 1) (filesDownloaded st)
    (bytesDownloaded st) (errors st) (duration st).
Definition count_download (bytes : Z) (st : SyncStats) : SyncStats :=
  mkSyncStats (started st) (foldersScanned st) (filesFound st) (filesNew st)
    (filesModified st) (filesUnchanged st) (filesDownloaded st + 1)
    (bytesDownloaded st + bytes) (errors st) (duration st).
Definition set_duration (d : Z) (st : SyncStats) : SyncStats :=
  mkSyncStats (started st) (foldersScanned st) (filesFound st) (filesNew st)
    (filesModified st) (filesUnchanged st) (filesDownloaded st)
    (bytesDownloaded st) (errors st) d.

Definition push_file (item : FileInfo) : M unit :=
  update (fun s => with_filesToSync (filesToSync s ++ [item]) s).

(** The [else] branch of the loop of [scanFolder]: what is done with an
    item that is not a folder. *)
Definition scanFile (item : FileInfo) : M unit :=
  set_stats bump_filesFound ;;
  m <- get manifest ;;
  let syncStatus := if fullSync cfg then new else needsSync item m in
  match syncStatus with
  | new => set_stats bump_filesNew ;; push_file item
  | modified => set_stats bump_filesModified ;; push_file item
  | unchanged => set_stats bump_filesUnchanged
  end.

(** [fuel] bounds the depth of the recursion, that is the depth of the
    remote tree. *)
Fixpoint scanFolder (fuel : nat) (folderPath : string) : M unit :=
  match fuel with
  | O => out_of_fuel
  | S fuel' =>
      set_stats bump_foldersScanned ;;
      try_catch
        (items <- propfind folderPath ;;
         for_each items (fun item =>
           if isFolder item then scanFolder fuel' (relativePath item)
           else scanFile item))
        (fun e =>
           let error := "Failed to scan folder " +:+ folderPath +:+ ": " +:+ e in
           log error ERROR ;;
           set_stats (push_error error))
  end.

Definition set_manifest_entry (key : string) (e : ManifestEntry) : M unit :=
  update (fun s => with_manifest (files_assign key e (manifest s)) s).

(** One iteration of the loop of [syncFiles]. *)
Definition syncFile (file : FileInfo) : M unit :=
  let destPath := path_join rt (backupDir cfg) (relativePath file) in
  ok <- downloadFile (href file) destPath ;;
  if ok : bool then
    set_stats (count_download (size file)) ;;
    syncedAt <- now_iso ;;
    set_manifest_entry (relativePath file)
      {| e_relativePath := relativePath file;
         e_size := size file;
         e_lastModified := lastModified file;
         e_lastModifiedTime := lastModifiedTime file;
         e_syncedAt := syncedAt;
         e_hash := None |}
  else
    let error := "Failed to download: " +:+ relativePath file in
    log error ERROR ;;
    set_stats (push_error error).

Definition syncFiles (toSync : list FileInfo) : M unit :=
  for_each toSync syncFile.

(** *** Main *)

Definition mode_name : string :=
  if dryRun cfg then "Dry Run"
  else if fullSync cfg then "Full Sync" else "Incremental".

Definition count_keys (m : Manifest) : Z := Z.of_nat (base.size (files m)).

Definition sum_sizes (m : Manifest) : Z :=
  map_fold (fun _ f sum => sum + e_size f) 0 (files m).

Definition finalize_manifest (stamp : string) (m : Manifest) : Manifest :=
  let n := count_keys m in
  let total := sum_sizes m in
  if fullSync cfg
  then mkManifest stamp (lastIncrementalSync m) n total (files m) (files_proto m)
  else mkManifest (lastFullSync m) stamp n total (files m) (files_proto m).

(** [main] in four parts, one after the other. *)

(** From the start of [main] to the manifest being loaded; returns
    [startTime]. *)
Definition init : M Z :=
  startTime <- now_ms ;;
  started <- now_iso ;;
  update (with_stats (mkSyncStats started 0 0 0 0 0 0 0 [] 0)) ;;
  log "=== Backup Started ===" INFO ;;
  log ("Mode: " +:+ mode_name) INFO ;;
  log ("Destination: " +:+ backupDir cfg) INFO ;;
  ensure_dir (backupDir cfg) ;;
  loaded <- loadManifest ;;
  update (with_manifest loaded) ;;
  log ("Manifest loaded: " +:+ of_Z (count_keys loaded) +:+ " files tracked") INFO ;;
  ret startTime.

Definition scanning (fuel : nat) : M unit :=
  log "Scanning for changes..." INFO ;;
  update (with_filesToSync []) ;;
  scanFolder fuel "" ;;
  st <- get stats ;;
  log ("Scan complete: " +:+ of_Z (filesNew st) +:+ " new, "
       +:+ of_Z (filesModified st) +:+ " modified, "
       +:+ of_Z (filesUnchanged st) +:+ " unchanged") INFO.

Definition syncing : M unit :=
  toSync <- get filesToSync ;;
  if (0 <? length toSync)%nat then
    log ("Syncing " +:+ of_Z (Z.of_nat (length toSync)) +:+ " files...") INFO ;;
    syncFiles toSync
  else log "No files to sync" INFO.

Definition reportFile (day : string) : string :=
  "./backup-report-" +:+ before "T" day +:+ ".md".

Definition finalizing (startTime : Z) : M unit :=
  stamp <- now_iso ;;
  update (fun s => with_manifest (finalize_manifest stamp (manifest s)) s) ;;
  m <- get manifest ;;
  saveManifest m ;;
  endTime <- now_ms ;;
  set_stats (set_duration (endTime - startTime)) ;;
  st <- get stats ;;
  day <- now_iso ;;
  (if negb (dryRun cfg)
   then writeFileSync (reportFile day) (mkFileData (ReportMd st m) "")
   else ret tt) ;;
  log ("=== Backup Complete: " +:+ of_Z (filesDownloaded st) +:+ " files, "
       +:+ formatBytes (bytesDownloaded st) +:+ " ===") INFO ;;
  if (0 <? length (errors st))%nat then exit 1 else ret tt.

Definition main (fuel : nat) : M unit :=
  if String.eqb (password cfg) "" then exit 1
  else
    startTime <- init ;;
    scanning fuel ;;
    syncing ;;
    finalizing startTime.

(** [main().catch(e => { log(...); process.exit(1); })]. *)
Definition program (fuel : nat) : M unit :=
  try_catch (main fuel)
    (fun e => log ("Fatal error: " +:+ e) ERROR ;; exit 1).

End Program.

(** ** MD5

    The digest behind [createHash('md5')] (RFC 1321), on the bytes of a
    string, with its result in lower-case hexadecimal. *)

Module Md5.

Definition K : list Z :=
  [3614090360; 3905402710; 606105819; 3250441966;
   4118548399; 1200080426; 2821735955; 4249261313;
   1770035416; 2336552879; 4294925233; 2304563134;
   1804603682; 4254626195; 2792965006; 1236535329;
   4129170786; 3225465664; 643717713; 3921069994;
   3593408605; 38016083; 3634488961; 3889429448;
   568446438; 3275163606; 4107603335; 1163531501;
   2850285829; 4243563512; 1735328473; 2368359562;
   4294588738; 2272392833; 1839030562; 4259657740;
   2763975236; 1272893353; 4139469664; 3200236656;
   681279174; 3936430074; 3572445317; 76029189;
   3654602809; 3873151461; 530742520; 3299628645;
   4096336452; 1126891415; 2878612391; 4237533241;
   1700485571; 2399980690; 4293915773; 2240044497;
   1873313359; 4264355552; 2734768916; 1309151649;
   4149444226; 3174756917; 718787259; 3951481745].

Definition shifts : list Z :=
  [7; 12; 17; 22; 7; 12; 17; 22; 7; 12; 17; 22; 7; 12; 17; 22;
   5; 9; 14; 20; 5; 9; 14; 20; 5; 9; 14; 20; 5; 9; 14; 20;
   4; 11; 16; 23; 4; 11; 16; 23; 4; 11; 16; 23; 4; 11; 16; 23;
   6; 10; 15; 21; 6; 10; 15; 21; 6; 10; 15; 21; 6; 10; 15; 21].

Definition word (x : Z) : Z := x mod 2 ^ 32.

Definition not32 (x : Z) : Z := Z.lxor x (2 ^ 32 - 1).

Definition rotl (x c : Z) : Z :=
  Z.lor (word (Z.shiftl x c)) (Z.shiftr x (32 - c)).

(** [n] bytes of [x], least significant first. *)
Definition le_bytes (n : nat) (x : Z) : list Z :=
  map (fun i => Z.shiftr x (8 * Z.of_nat i) mod 256) (seq 0 n).

Fixpoint le_word (bytes : list Z) : Z :=
  match bytes with
  | [] => 0
  | b :: r => b + 256 * le_word r
  end.

Definition pad (msg : list Z) : list Z :=
  let len := Z.of_nat (length msg) in
  msg ++ [128] ++ repeat 0 (Z.to_nat ((55 - len) mod 64))
      ++ le_bytes 8 ((8 * len) mod 2 ^ 64).

(** The pieces of [size] elements of a list. *)
Fixpoint pieces {A} (fuel size : nat) (l : list A) : list (list A) :=
  match fuel, l with
  | O, _ | _, [] => []
  | S n, _ => firstn size l :: pieces n size (skipn size l)
  end.

Definition round (M : list Z) (st : Z * Z * Z * Z) (i : nat) : Z * Z * Z * Z :=
  let '(A, B, C, D) := st in
  let j := Z.of_nat i in
  let '(F, g) :=
    if j <? 16 then (Z.lor (Z.land B C) (Z.land (not32 B) D), j)
    else if j <? 32 then (Z.lor (Z.land D B) (Z.land (not32 D) C), (5 * j + 1) mod 16)
    else if j <? 48 then (Z.lxor B (Z.lxor C D), (3 * j + 5) mod 16)
    else (Z.lxor C (Z.lor B (not32 D)), (7 * j) mod 16) in
  let F' := word (F + A + nth i K 0 + nth (Z.to_nat g) M 0) in
  (D, word (B + rotl F' (nth i shifts 0)), B, C).

Definition chunk (h : Z * Z * Z * Z) (M : list Z) : Z * Z * Z * Z :=
  let '(a0, b0, c0, d0) := h in
  let '(A, B, C, D) := fold_left (round M) (seq 0 64) h in
  (word (a0 + A), word (b0 + B), word (c0 + C), word (d0 + D)).

Definition digest (msg : list Z) : list Z :=
  let bytes := pad msg in
  let blocks := map (fun b => map le_word (pieces 16 4 b))
                    (pieces (length bytes) 64 bytes) in
  let '(a, b, c, d) :=
    fold_left chunk blocks (1732584193, 4023233417, 2562383102, 271733878) in
  le_bytes 4 a ++ le_bytes 4 b ++ le_bytes 4 c ++ le_bytes 4 d.

Definition hex_digit (n : Z) : ascii :=
  ascii_of_N (Z.to_N (if n <? 10 then 48 + n else 87 + n)).

Fixpoint hex (bytes : list Z) : string :=
  match bytes with
  | [] => ""
  | b :: r => String (hex_digit (b / 16)) (String (hex_digit (b mod 16)) (hex r))
  end.

Definition md5_hex (s : string) : string :=
  hex (digest (map (fun c => Z.of_N (N_of_ascii c)) (list_ascii_of_string s))).

End Md5.

(** ** A concrete runtime

    Stand-ins for the library functions, used to run the model on concrete
    inputs: dates given as a number of milliseconds, and URLs and paths taken
    apart without normalisation. *)

Module Demo.

Definition all_digits (s : string) : bool :=
  negb (String.eqb s "") && String.eqb (fst (span is_digit s)) s.

Definition millis (s : string) : jsnum :=
  if all_digits s then Num (parseInt s) else NaN.

Definition stamp (n : nat) : string :=
  "2026-01-03T00:00:00." +:+ of_Z (Z.of_nat n) +:+ "Z".

Definition parse_url (s : string) : option Url :=
  match strip_prefix "https://" s with
  | None => None
  | Some r =>
      let (host, rest) := span (is_not "/") r in
      let (path, query) := span (is_not "?") rest in
      if String.eqb host "" then None
      else Some (mkUrl host (if String.eqb path "" then "/" else path) query)
  end.

Fixpoint last_slash (s : string) : option (string * string) :=
  match s with
  | "" => None
  | String c r =>
      match last_slash r with
      | Some (d, b) => Some (String c d, b)
      | None => if Ascii.eqb c "/" then Some ("", r) else None
      end
  end.

Definition dirname (s : string) : string :=
  match last_slash s with Some (d, _) => d | None => "." end.

Definition basename (s : string) : string :=
  match last_slash (strip_trailing_slash s) with Some (_, b) => b | None => s end.

(** Whether the first character after white space can start a JSON value:
    a text for which this fails is rejected by [JSON.parse]. *)
Fixpoint may_be_json (s : string) : bool :=
  match s with
  | "" => false
  | String c r =>
      if is_space c then may_be_json r
      else is_digit c
           || existsb (Ascii.eqb c)
                ["{"; "["; "034"; "-"; "t"; "f"; "n"]%char
  end.

Definition runtime : Runtime :=
  {| md5_hex := Md5.md5_hex;
     date_getTime := millis;
     toISOString := stamp;
     date_now := Z.of_nat;
     random_token := fun n => "cnonce" +:+ of_Z (Z.of_nat n);
     new_URL := parse_url;
     path_join := fun a b => a +:+ "/" +:+ b;
     path_dirname := dirname;
     path_basename := basename;
     JSON_valid := may_be_json |}.

Definition config (dry full : bool) : Config :=
  CONFIG {| WA_PASSWORD := Some "secret";
            BACKUP_DIR := None; MANIFEST_FILE := None; LOG_FILE := None;
            NOTIFY_EMAIL := None;
            argv := (if dry then ["--dry-run"] else [])
                    ++ (if full then ["--full"] else []) |}.

(** A state with an empty disk; [main] initialises the program objects. *)
Definition start : State :=
  {| disk_files := ∅; disk_dirs := ∅; clock := 0; draws := 0; sent := [];
     manifest := mkManifest "" "" 0 0 ∅ None;
     stats := mkSyncStats "" 0 0 0 0 0 0 0 [] 0;
     filesToSync := [] |}.

(** One [<d:response>] block of a listing. *)
Definition block (url : string) (collection : bool) (length modified : string)
    : string :=
  "<d:response><d:href>" +:+ url +:+ "</d:href><d:propstat><d:prop>"
  +:+ (if collection then "<d:resourcetype><d:collection/></d:resourcetype>"
       else "<d:resourcetype/><d:getcontentlength>" +:+ length
            +:+ "</d:getcontentlength>")
  +:+ "<d:getlastmodified>" +:+ modified +:+ "</d:getlastmodified>"
  +:+ "</d:prop></d:propstat></d:response>".

Definition multistatus (blocks : list string) : string :=
  "<d:multistatus xmlns:d=" +:+ dquote +:+ "DAV:" +:+ dquote +:+ ">"
  +:+ String.concat "" blocks +:+ "</d:multistatus>".

Fixpoint assoc (k : string) (l : list (string * string)) : option string :=
  match l with
  | [] => None
  | (k', v) :: r => if String.eqb k k' then Some v else assoc k r
  end.

Definition challenge : string :=
  "Digest realm=" +:+ dquote +:+ "WA" +:+ dquote
  +:+ ", nonce=" +:+ dquote +:+ "abc123" +:+ dquote
  +:+ ", qop=" +:+ dquote +:+ "auth" +:+ dquote.

(** A server that asks for Digest credentials, then answers [PROPFIND] on
    the paths of [listings] with 207 and the given body, [GET] on the paths
    of [contents] with 200 and the given body, and anything else with 404. *)
Definition dav_server (listings contents : list (string * string))
    (r : Request) : Exchange :=
  match assoc "Authorization" (rq_headers r) with
  | None => Responds (mkResponse 401 (Some challenge) None "")
  | Some _ =>
      match rq_method r with
      | PROPFIND =>
          match assoc (rq_path r) listings with
          | Some xml => Responds (mkResponse 207 None None xml)
          | None => Responds (mkResponse 404 None None "Not Found")
          end
      | GET =>
          match assoc (rq_path r) contents with
          | Some data => Responds (mkResponse 200 None None data)
          | None => Responds (mkResponse 404 None None "Not Found")
          end
      end
  end.

Definition dav (listings contents : list (string * string)) : Env :=
  {| server := dav_server listings contents; stream_ok := fun _ => true |}.

Definition root : string := "https://sbnewcomers.org/resources/".

End Demo.


(** ** The Digest scheme as the specification words it

    RFC 2617 with [qop=auth]: the request digest, and a header as a list of
    parameters, quoted or not, after the scheme name. *)

Module Rfc2617.

Inductive Param : Type :=
| Quoted (key value : string)
| Token (key value : string).

Definition render_param (p : Param) : string :=
  match p with
  | Quoted k v => k +:+ "=" +:+ dquote +:+ v +:+ dquote
  | Token k v => k +:+ "=" +:+ v
  end.

Fixpoint join (sep : string) (l : list string) : string :=
  match l with
  | [] => ""
  | [x] => x
  | x :: r => x +:+ sep +:+ join sep r
  end.

Definition render (params : list Param) : string :=
  "Digest " +:+ join ", " (map render_param params).

Section Digest.
Variable MD5 : string -> string.

Definition HA1 (user realm pass : string) : string :=
  MD5 (user +:+ ":" +:+ realm +:+ ":" +:+ pass).

Definition HA2 (method uri : string) : string :=
  MD5 (method +:+ ":" +:+ uri).

Definition request_digest (ha1 nonce nc cnonce qop ha2 : string) : string :=
  MD5 (ha1 +:+ ":" +:+ nonce +:+ ":" +:+ nc +:+ ":" +:+ cnonce +:+ ":"
       +:+ qop +:+ ":" +:+ ha2).
End Digest.

End Rfc2617.

(** ** Paths and files

    The disk of the model is indexed by the text of a path.  Two paths name
    the same file when they resolve to the same absolute path, as
    [path.resolve] computes it from the working directory (symbolic links
    are not looked at); statements about one file among others are made up
    to this. *)

Module Paths.

(** The segments of a path, between separators. *)
Fixpoint segments_go (cur : string) (s : string) : list string :=
  match s with
  | "" => [cur]
  | String c r =>
      if Ascii.eqb c "/" then cur :: segments_go "" r
      else segments_go (cur +:+ String c "") r
  end.

Definition segments (s : string) : list string := segments_go "" s.

(** Empty segments and [.] are dropped, [..] drops the segment before it;
    [stack] holds the segments kept so far, the last one first. *)
Fixpoint walk (stack : list string) (segs : list string) : list string :=
  match segs with
  | [] => rev stack
  | seg :: r =>
      if String.eqb seg "" || String.eqb seg "." then walk stack r
      else if String.eqb seg ".." then walk (tail stack) r
      else walk (seg :: stack) r
  end.

(** [path.resolve(cwd, p)], for an absolute [cwd]. *)
Definition resolve (cwd p : string) : string :=
  let full := if starts_with "/" p then p else cwd +:+ "/" +:+ p in
  "/" +:+ String.concat "/" (walk [] (segments full)).

End Paths.

Definition same_file (cwd p q : string) : Prop :=
  Paths.resolve cwd p = Paths.resolve cwd q.

(** The objects in memory are the same in both states. *)
Definition same_objects (s s' : State) : Prop :=
  manifest s' = manifest s /\ stats s' = stats s
  /\ filesToSync s' = filesToSync s.

(** The manifest entry [syncFiles] writes for a file. *)
Definition entry_of (file : FileInfo) (syncedAt : string) : ManifestEntry :=
  {| e_relativePath := relativePath file;
     e_size := size file;
     e_lastModified := lastModified file;
     e_lastModifiedTime := lastModifiedTime file;
     e_syncedAt := syncedAt;
     e_hash := None |}.




(** The manifest a run would load from the disk of [s]. *)
Definition manifest_on_disk (cfg : Config) (s : State) : option Manifest :=
  disk_files s !! manifestFile cfg ≫= JSON_parse.

(** Every entry of [m0] has an entry under the same key in [m]; when the key
    is the path of no file of [toSync], it is the same entry, up to what a
    JSON text keeps of it. *)
Definition entries_survive (m0 m : Manifest) (toSync : list FileInfo) : Prop :=
  forall key e,
    files m0 !! key = Some e ->
    exists e',
      files m !! key = Some e'
      /\ ((forall f, f ∈ toSync -> relativePath f <> key) ->
          json_entry e' = json_entry e).

(** [m0] is the manifest on disk. *)
Definition on_disk (cfg : Config) (m0 : Manifest) (s : State) : Prop :=
  manifest_on_disk cfg s = Some m0.

(** The manifest on disk holds the entries of [m0]. *)
Definition persisted (cfg : Config) (m0 : Manifest) (s : State) : Prop :=
  exists m', manifest_on_disk cfg s = Some m'
             /\ entries_survive m0 m' (filesToSync s).

(** [I] holds after a step whenever it held before. *)
Definition preserved (I : State -> Prop) (s s' : State) : Prop := I s -> I s'.

(** [hoare P m Q E]: started in a state of [P], [m] ends in a state of
    [Q a] when it returns [a], and in a state of [E] when it ends in any other
    way. *)
Definition hoare (P : State -> Prop) {A} (m : M A)
    (Q : A -> State -> Prop) (E : State -> Prop) : Prop :=
  forall s, P s ->
    match fst (m s) with
    | Returns a => Q a (snd (m s))
    | _ => E (snd (m s))
    end.

(** The manifest file, the manifest in memory and the to-sync list are the
    same in both states. *)
Definition ledger_kept (cfg : Config) (s s' : State) : Prop :=
  disk_files s' !! manifestFile cfg = disk_files s !! manifestFile cfg
  /\ manifest s' = manifest s
  /\ filesToSync s' = filesToSync s.

(** The same, the to-sync list left out. *)
Definition manifests_kept (cfg : Config) (s s' : State) : Prop :=
  disk_files s' !! manifestFile cfg = disk_files s !! manifestFile cfg
  /\ manifest s' = manifest s.

(** Stages of a run that started with [m0] as the manifest on disk: [m0]
    loaded in memory; [m0] still on disk while the manifest in memory holds
    its entries and [toSync] is the to-sync list. *)
Definition loaded (cfg : Config) (m0 : Manifest) (s : State) : Prop :=
  manifest_on_disk cfg s = Some m0 /\ manifest s = m0.

Definition syncing_from (cfg : Config) (m0 : Manifest) (toSync : list FileInfo)
    (s : State) : Prop :=
  manifest_on_disk cfg s = Some m0
  /\ filesToSync s = toSync
  /\ entries_survive m0 (manifest s) toSync.

(** ** Two runs in a row *)

(** The files a scan of depth [fuel] started at [folderPath] meets, when the
    listing of each folder is [L]. *)
Fixpoint met (L : string -> Outcome (list FileInfo)) (fuel : nat)
    (folderPath : string) (f : FileInfo) : Prop :=
  match fuel with
  | O => False
  | S fuel' =>
      match L folderPath with
      | Returns items =>
          exists item,
            item ∈ items
            /\ if isFolder item then met L fuel' (relativePath item) f
               else f = item
      | _ => False
      end
  end.

(** A new process on the disk another one left: same disk and counters,
    blank objects. *)
Definition fresh_process (s : State) : State :=
  {| disk_files := disk_files s; disk_dirs := disk_dirs s;
     clock := clock s; draws := draws s; sent := [];
     manifest := mkManifest "" "" 0 0 ∅ None;
     stats := mkSyncStats "" 0 0 0 0 0 0 0 [] 0;
     filesToSync := [] |}.

(** No entry of the manifest has [NaN] as its time. *)
Definition no_nan (m : Manifest) : Prop :=
  forall key e, files m !! key = Some e -> e_lastModifiedTime e <> NaN.

(** Nothing to sync and nothing downloaded: every file found so far was
    classified unchanged. *)
Definition idle (s : State) : Prop :=
  filesToSync s = []
  /\ filesNew (stats s) = 0
  /\ filesModified (stats s) = 0
  /\ filesDownloaded (stats s) = 0
  /\ filesUnchanged (stats s) = filesFound (stats s).

(** The invariant of the scan of a run that finds nothing to do, [m2]
    being the manifest it loaded. *)
Definition watching (m2 : Manifest) (s : State) : Prop :=
  idle s /\ manifest s = m2.

(** What a scan that returned has done, for the files it met. *)
Definition scanned (reached : FileInfo -> Prop) (s s' : State) : Prop :=
  manifest s' = manifest s
  /\ exists added : list FileInfo,
       filesToSync s' = (filesToSync s ++ added)%list
       /\ (forall f, reached f -> f ∈ added \/ needsSync f (manifest s) = unchanged)
       /\ (forall f, f ∈ added -> reached f).

(** What a sync phase without failure has done to the manifest. *)
Definition synced (toSync : list FileInfo) (before after : Manifest) : Prop :=
  forall key,
    (exists g syncedAt,
        g ∈ toSync /\ relativePath g = key
        /\ files after !! key = Some (entry_of g syncedAt))
    \/ ((forall f, f ∈ toSync -> relativePath f <> key)
        /\ files after !! key = files before !! key).

(** ** Concrete inputs *)

Module Scenario.

Import Demo.

(** The listing of folder [aA]: the folder itself, and an entry whose
    name, [a%41], holds a percent sign (sent as [%25]). *)
Definition listing_aA : string :=
  multistatus [block (root +:+ "aA/") true "" "100";
               block (root +:+ "a%2541/") true "" "100"].

Definition entry_a41 : FileInfo :=
  {| href := root +:+ "a%41/"; name := "a%41"; relativePath := "aA";
     size := 0; isFolder := true; lastModified := "100";
     lastModifiedTime := Num 100 |}.

(** The tree of the example of the specification: folder [Documents] with
    the file [Policy.pdf], 1024 bytes, and the empty folder [Pictures]. *)
Definition tree : Env :=
  dav [("/resources/",
        multistatus [block root true "" "100";
                     block (root +:+ "Documents/") true "" "100";
                     block (root +:+ "Pictures/") true "" "100"]);
       ("/resources/Documents/",
        multistatus [block (root +:+ "Documents/") true "" "100";
                     block (root +:+ "Documents/Policy.pdf") false "1024" "200"]);
       ("/resources/Pictures/",
        multistatus [block (root +:+ "Pictures/") true "" "100"])]
      [("/resources/Documents/Policy.pdf", "%PDF-1.4")].

Definition policy : FileInfo :=
  {| href := root +:+ "Documents/Policy.pdf"; name := "Policy.pdf";
     relativePath := "Documents/Policy.pdf"; size := 1024; isFolder := false;
     lastModified := "200"; lastModifiedTime := Num 200 |}.

(** A manifest in which [Policy.pdf] is recorded with the size and the
    time of the listing, and a file that is no longer on the server. *)
Definition ledger : Manifest :=
  {| lastFullSync := ""; lastIncrementalSync := "2026-01-02T00:00:00.0Z";
     totalFiles := 2; totalSize := 1031;
     files := {[ "Documents/Policy.pdf" :=
                   mkManifestEntry "Documents/Policy.pdf" 1024 "200" (Num 200)
                     "2026-01-02T00:00:00.0Z" None;
                 "Old/gone.txt" :=
                   mkManifestEntry "Old/gone.txt" 7 "50" (Num 50)
                     "2026-01-02T00:00:00.0Z" None ]};
     files_proto := None |}.

(** A state in which [ledger] is the manifest, in memory and on disk. *)
Definition with_ledger : State :=
  with_manifest ledger
    (with_disk_files
       {[ "./backup-manifest.json" := mkFileData (ManifestJson ledger) "" ]}
       start).

(** A server whose challenge has a realm and no nonce. *)
Definition no_nonce : Env :=
  {| server := fun _ =>
       Responds (mkResponse 401
                   (Some ("Digest realm=" +:+ dquote +:+ "WA" +:+ dquote))
                   None "");
     stream_ok := fun _ => true |}.

(** A server that answers every request with 404 and a page of text. *)
Definition not_found : Env :=
  {| server := fun _ => Responds (mkResponse 404 None None "<html>Not Found</html>");
     stream_ok := fun _ => true |}.

(** A root folder with two files, one named [a%41] (sent as [a%2541]),
    one named [aA], of sizes 1 and 2.  A request for the path [a%41] reaches
    the file [aA]. *)
Definition two_names : Env :=
  dav [("/resources/",
        multistatus [block root true "" "100";
                     block (root +:+ "a%2541") false "1" "200";
                     block (root +:+ "aA") false "2" "200"])]
      [("/resources/a%41", "yy"); ("/resources/aA", "yy")].

(** A full sync whose log file is the manifest file. *)
Definition log_in_manifest : Config :=
  CONFIG {| WA_PASSWORD := Some "secret"; BACKUP_DIR := None;
            MANIFEST_FILE := None; LOG_FILE := Some "./backup-manifest.json";
            NOTIFY_EMAIL := None; argv := ["--full"] |}.

End Scenario.

(** ** Relations kept by every step

    [keeps R m]: whatever state [m] starts from, and however it ends, the
    state it leaves is related by [R] to the one it started from. *)

Definition keeps (R : State -> State -> Prop) {A} (m : M A) : Prop :=
  forall s, R s (snd (m s)).

(** A relation that every step of bookkeeping keeps: reading the clock,
    drawing a random number, sending a request. *)
Record Bookkeeping (R : State -> State -> Prop) : Prop := {
  bk_refl : forall s, R s s;
  bk_trans : forall a b c, R a b -> R b c -> R a c;
  bk_clock : forall s n, R s (with_clock n s);
  bk_draws : forall s n, R s (with_draws n s);
  bk_sent : forall s l, R s (with_sent l s);
}.


(** What a scan does to the manifest and to the to-sync list: the manifest
    is left alone, and the list grows at its end, by files that all satisfy
    [P] with respect to the manifest. *)
Definition scan_appends (P : FileInfo -> Manifest -> Prop) (s s' : State) : Prop :=
  manifest s' = manifest s /\
  exists added : list FileInfo,
    filesToSync s' = (filesToSync s ++ added)%list /\
    Forall (fun f => P f (manifest s)) added.

(** What a scan in which every file counts as new does: as many files
    appended as files found, all counted as new. *)
Definition scan_all_new (s s' : State) : Prop :=
  manifest s' = manifest s /\
  exists added : list FileInfo,
    filesToSync s' = (filesToSync s ++ added)%list /\
    filesFound (stats s') = filesFound (stats s) + Z.of_nat (length added) /\
    filesNew (stats s') = filesNew (stats s) + Z.of_nat (length added) /\
    filesModified (stats s') = filesModified (stats s) /\
    filesUnchanged (stats s') = filesUnchanged (stats s).

(** What a scan does in a full sync: the files reached are the ones
    appended to the to-sync list, each counted found and new; no other
    counter of files moves, and the manifest is not touched. *)
Definition taken_as_new (reached : FileInfo -> Prop) (s s' : State) : Prop :=
  manifest s' = manifest s
  /\ exists added : list FileInfo,
       filesToSync s' = (filesToSync s ++ added)%list
       /\ (forall f, reached f <-> f ∈ added)
       /\ filesFound (stats s') = filesFound (stats s) + Z.of_nat (length added)
       /\ filesNew (stats s') = filesNew (stats s) + Z.of_nat (length added)
       /\ filesModified (stats s') = filesModified (stats s)
       /\ filesUnchanged (stats s') = filesUnchanged (stats s).

(** ** Stages of a run *)

(** The to-sync list is the same in both states. *)
Definition same_queue (s s' : State) : Prop := filesToSync s' = filesToSync s.

(** The manifest file is the destination of no file of the to-sync
    list. *)
Definition clear_of_downloads (rt : Runtime) (cfg : Config) (s : State) : Prop :=
  forall f, f ∈ filesToSync s ->
    path_join rt (backupDir cfg) (relativePath f) <> manifestFile cfg.

(** A manifest as [loadManifest] returns it: no [NaN] in it, and the
    prototype of an object literal. *)
Definition as_loaded (m : Manifest) : Prop :=
  no_nan m /\ files_proto m = None.

(** [manifest.files[key]] is an entry. *)
Definition recorded (m : Manifest) (key : string) : Prop :=
  exists e, files_at m key = EntryObject e.



(** ** The requests of a download *)

(** The three requests [downloadFile] can send: the first one, the one that
    answers a challenge, and the one that follows a redirect. *)
Definition plain_get (url : Url) : Request :=
  mkRequest GET (hostname url) 443 (pathname url) [] "".

Definition auth_get (url : Url) (authHeader : string) : Request :=
  mkRequest GET (hostname url) 443 (pathname url)
    [("Authorization", authHeader)] "".

Definition redirect_get (redirectUrl : Url) : Request :=
  mkRequest GET (hostname redirectUrl) 443
    (pathname redirectUrl +:+ search redirectUrl) [] "".

(** The sequences of requests one download of [url] can make. *)
Inductive download_trace (url : Url) : list Request -> Prop :=
| trace_plain : download_trace url [plain_get url]
| trace_redirect (u : Url) : download_trace url [plain_get url; redirect_get u]
| trace_auth (a : string) : download_trace url [plain_get url; auth_get url a]
| trace_auth_redirect (a : string) (u : Url) :
    download_trace url [plain_get url; auth_get url a; redirect_get u].

(** The requests made after the first one, by [handleResponse] on a
    response that is ([isAuth]) or is not the answer to credentials. *)
Inductive handler_trace (url : Url) : bool -> list Request -> Prop :=
| handled_quietly (isAuth : bool) : handler_trace url isAuth []
| handled_redirect (isAuth : bool) (u : Url) :
    handler_trace url isAuth [redirect_get u]
| handled_challenge (a : string) (rest : list Request) :
    handler_trace url true rest ->
    handler_trace url false (auth_get url a :: rest).

(** The file at [dest] holds the body of a response with status 200 that
    the server gave to a request sent before. *)
Definition stored_from_200 (env : Env) (dest : string) (s : State) : Prop :=
  exists r res,
    r ∈ sent s /\ server env r = Responds res /\ statusCode res = 200
    /\ disk_files s !! dest = Some (mkFileData NoDoc (body res)).

(** The state after [requests] were sent, nothing else having changed but
    the counter of random draws. *)
Definition after_requests (requests : list Request) (s s' : State) : Prop :=
  sent s' = (sent s ++ requests)%list
  /\ disk_files s' = disk_files s /\ disk_dirs s' = disk_dirs s
  /\ clock s' = clock s
  /\ manifest s' = manifest s /\ stats s' = stats s
  /\ filesToSync s' = filesToSync s.

(** The statistics of a run that has counted nothing yet. *)
Definition zeroed (st : SyncStats) : Prop :=
  foldersScanned st = 0 /\ filesFound st = 0 /\ filesNew st = 0
  /\ filesModified st = 0 /\ filesUnchanged st = 0
  /\ filesDownloaded st = 0 /\ bytesDownloaded st = 0 /\ errors st = [].

(** ** Counting *)

(** The sizes of the files of a list, added up. *)
Definition total_size (l : list FileInfo) : Z :=
  foldr (fun f acc => size f + acc) 0 l.

(** The error recorded for a file whose download failed. *)
Definition download_error (f : FileInfo) : string :=
  "Failed to download: " +:+ relativePath f.

(** What a scan does to the counters between two states: every file found
    is counted once as new, modified or unchanged, the to-sync list grows by
    the files counted new or modified, and the download counters, the
    manifest and the errors already recorded are left alone. *)
Definition scan_tally (s s' : State) : Prop :=
  filesFound (stats s') - filesFound (stats s)
  = (filesNew (stats s') - filesNew (stats s))
    + (filesModified (stats s') - filesModified (stats s))
    + (filesUnchanged (stats s') - filesUnchanged (stats s))
  /\ Z.of_nat (length (filesToSync s')) - Z.of_nat (length (filesToSync s))
     = (filesNew (stats s') - filesNew (stats s))
       + (filesModified (stats s') - filesModified (stats s))
  /\ filesNew (stats s) <= filesNew (stats s')
  /\ filesModified (stats s) <= filesModified (stats s')
  /\ filesUnchanged (stats s) <= filesUnchanged (stats s')
  /\ foldersScanned (stats s) <= foldersScanned (stats s')
  /\ filesDownloaded (stats s') = filesDownloaded (stats s)
  /\ bytesDownloaded (stats s') = bytesDownloaded (stats s)
  /\ manifest s' = manifest s
  /\ exists more, errors (stats s') = (errors (stats s) ++ more)%list.

(** What a sync phase that handled [toSync] has done to the counters,
    [failed] being the files whose download returned false. *)
Definition sync_tally (toSync failed : list FileInfo) (s s' : State) : Prop :=
  sublist failed toSync
  /\ errors (stats s') = (errors (stats s) ++ map download_error failed)%list
  /\ filesDownloaded (stats s')
     = filesDownloaded (stats s) + Z.of_nat (length toSync)
       - Z.of_nat (length failed)
  /\ bytesDownloaded (stats s') + total_size failed
     = bytesDownloaded (stats s) + total_size toSync
  /\ filesToSync s' = filesToSync s
  /\ filesFound (stats s') = filesFound (stats s)
  /\ filesNew (stats s') = filesNew (stats s)
  /\ filesModified (stats s') = filesModified (stats s)
  /\ filesUnchanged (stats s') = filesUnchanged (stats s).

(** ** What a run may do to the disk and to the network *)

(** The destination of the download of a file. *)
Definition destination (rt : Runtime) (cfg : Config) (f : FileInfo) : string :=
  path_join rt (backupDir cfg) (relativePath f).

(** The files a run writes as a whole when [toSync] is its to-sync list:
    the manifest, a report named after a reading of the clock, the
    destination of a file of the list.  (The log is only appended to.) *)
Definition run_writes (rt : Runtime) (cfg : Config) (toSync : list FileInfo)
    (p : string) : Prop :=
  p = manifestFile cfg
  \/ (exists n, p = reportFile (toISOString rt n))
  \/ (exists f, f ∈ toSync /\ p = destination rt cfg f).

(** The directories it makes sure of: the backup root and, outside a dry
    run, the directory of each destination. *)
Definition run_mkdirs (rt : Runtime) (cfg : Config) (toSync : list FileInfo)
    (dir : string) : Prop :=
  dir = backupDir cfg
  \/ (dryRun cfg = false
      /\ exists f, f ∈ toSync /\ dir = path_dirname rt (destination rt cfg f)).

(** A relation between the state before and the state after that every
    step of a run keeps: steps on the objects in memory, a listing request,
    a download request and a file written (in a run that is not a dry run),
    a line appended to the log, a directory created. *)
Record RunSteps (rt : Runtime) (cfg : Config) (toSync : list FileInfo)
    (R : State -> State -> Prop) : Prop := {
  rs_trans : forall a b c, R a b -> R b c -> R a c;
  rs_memory : forall s s',
    disk_files s' = disk_files s -> disk_dirs s' = disk_dirs s ->
    sent s' = sent s -> R s s';
  rs_listing : forall s r,
    rq_method r = PROPFIND -> R s (with_sent (sent s ++ [r]) s);
  rs_get : dryRun cfg = false -> forall s r,
    rq_method r = GET -> R s (with_sent (sent s ++ [r]) s);
  rs_log : forall s line, R s (snd (appendFileSync (logFile cfg) line s));
  rs_write : dryRun cfg = false -> forall s p d,
    run_writes rt cfg toSync p ->
    R s (with_disk_files (<[p := d]> (disk_files s)) s);
  rs_mkdir : forall s dir,
    run_mkdirs rt cfg toSync dir ->
    R s (with_disk_dirs (mkdir_dirs dir ∪ disk_dirs s) s);
}.

(** The text of the log file, empty when there is none. *)
Definition log_text (cfg : Config) (s : State) : string :=
  match disk_files s !! logFile cfg with
  | Some d => text d
  | None => ""
  end.

(** The log has only grown, at its end. *)
Definition log_extended (cfg : Config) (s s' : State) : Prop :=
  exists lines, log_text cfg s' = log_text cfg s +:+ lines.

(** Every path that names neither the log nor a file the run writes holds
    what it held. *)
Definition others_untouched (rt : Runtime) (cfg : Config) (cwd : string)
    (toSync : list FileInfo) (s s' : State) : Prop :=
  forall p,
    ~ same_file cwd p (logFile cfg) ->
    (forall q, run_writes rt cfg toSync q -> ~ same_file cwd p q) ->
    disk_files s' !! p = disk_files s !! p.


(** Every file and every directory that was there is still there. *)
Definition nothing_deleted (s s' : State) : Prop :=
  dom (disk_files s) ⊆ dom (disk_files s') /\ disk_dirs s ⊆ disk_dirs s'.

(** The requests sent between the two states are all listing requests. *)
Definition only_listings_sent (s s' : State) : Prop :=
  exists requests,
    sent s' = (sent s ++ requests)%list
    /\ Forall (fun r => rq_method r = PROPFIND) requests.

(** ** The report *)

(** [(ms / 1000).toFixed(1)] for an integer [ms] below 2^53 in absolute
    value.  The quotient is the binary64 number nearest to [ms / 1000]: with
    [2^e <= ms / 1000 < 2^(e+1)] it is [M / 2^k], [k = 52 - e], where [M] is
    [ms * 2^k / 1000] rounded to the nearest integer, to the even one on a
    tie.  [toFixed(1)] then takes the integer [n] nearest to ten times that
    number, the larger one on a tie, and writes [n / 10]; a negative number
    is written as a minus sign and its opposite. *)
Definition seconds_mantissa (ms : Z) : Z * Z :=
  let l := Z.log2 ms in
  let e := if 1000 * 2 ^ (l + 1) <=? ms * 1024 then l - 9 else l - 10 in
  let k := 52 - e in
  let N := ms * 2 ^ k in
  let fl := N / 1000 in
  let r := N mod 1000 in
  let M := if (500 <? r) || ((r =? 500) && Z.odd fl) then fl + 1 else fl in
  (M, k).

Definition tenths (ms : Z) : Z :=
  if ms =? 0 then 0
  else let (M, k) := seconds_mantissa ms in (20 * M + 2 ^ k) / 2 ^ (k + 1).

Definition seconds_toFixed1 (ms : Z) : string :=
  let n := tenths (Z.abs ms) in
  (if ms <? 0 then "-" else "") +:+ of_Z (n / 10) +:+ "." +:+ of_Z (n mod 10).





(** ** More concrete inputs *)

Module Cases.

Import Demo.

(** A server that cannot be reached. *)
Definition unreachable : Env :=
  {| server := fun _ => Fails "Error: connect ECONNREFUSED";
     stream_ok := fun _ => true |}.

(** A server that sends its challenge and drops the connection when the
    request comes back with credentials. *)
Definition drops_retry : Env :=
  {| server := fun r =>
       match assoc "Authorization" (rq_headers r) with
       | None => Responds (mkResponse 401 (Some challenge) None "")
       | Some _ => Fails "Error: socket hang up"
       end;
     stream_ok := fun _ => true |}.

(** A server that refuses the credentials: every answer is the challenge. *)
Definition wrong_password : Env :=
  {| server := fun _ => Responds (mkResponse 401 (Some challenge) None "");
     stream_ok := fun _ => true |}.

(** A server that redirects every request to a path on the same host. *)
Definition relative_redirect : Env :=
  {| server := fun _ => Responds (mkResponse 302 None (Some "/login") "");
     stream_ok := fun _ => true |}.

(** The listing of folder [Documents] in the tree of [Scenario]. *)
Definition documents_listing : string :=
  multistatus [block (root +:+ "Documents/") true "" "100";
               block (root +:+ "Documents/Policy.pdf") false "1024" "200"].

(** A root folder with a file whose name holds a percent sign that is not
    an escape: [100%.pdf], sent as [100%25.pdf]. *)
Definition percent_listing : string :=
  multistatus [block root true "" "100";
               block (root +:+ "Notes.txt") false "5" "200";
               block (root +:+ "100%25.pdf") false "7" "200"].

Definition resources : Url := mkUrl "sbnewcomers.org" "/resources/" "".

Definition policy_url : Url :=
  mkUrl "sbnewcomers.org" "/resources/Documents/Policy.pdf" "".

End Cases.

(** * Properties *)

(** ** Sanity checks of the string layer *)

Example decode_once : decodeURIComponent "a%2541%20b" = Some "a%41 b".
Proof. reflexivity. Qed.
Example decode_bad : decodeURIComponent "100% done" = None.
Proof. reflexivity. Qed.
Example decode_utf8 :
  decodeURIComponent "%C3%A9" = Some (String "195"%char (String "169"%char "")).
Proof. reflexivity. Qed.
Example decode_bad_utf8 : decodeURIComponent "%FFx" = None.
Proof. reflexivity. Qed.
Example split_ex : split "<r>" "x<r>a<r><r>b" = ["x"; "a"; ""; "b"].
Proof. reflexivity. Qed.
Example strip_ex :
  strip_trailing_slash (strip_resources_prefix "https://h.org/resources/A/b/") = "A/b".
Proof. reflexivity. Qed.
Example capture_ex :
  regex_capture "<d:href>" (is_not "<") true "</d:href>"
    "<d:href></d:href><d:href>u</d:href>" = Some "u".
Proof. reflexivity. Qed.
Example of_Z_ex : of_Z 404 = "404".
Proof. reflexivity. Qed.

Example formatBytes_ex :
  (formatBytes 1023, formatBytes 1536, formatBytes 1100000, formatBytes 3221225472)
  = ("1023 B", "1.5 KB", "1.0 MB", "3.00 GB").
Proof. reflexivity. Qed.


(** ** Facts about strings *)

Lemma append_assoc (a b c : string) : (a +:+ b) +:+ c = a +:+ (b +:+ c).
Proof.
  induction a as [|x a IH]; [reflexivity|].
  change (String x ((a +:+ b) +:+ c) = String x (a +:+ (b +:+ c))).
  now f_equal.
Qed.

Lemma length_of_list_ascii (l : list ascii) :
  String.length (string_of_list_ascii l) = length l.
Proof. induction l as [|x l IH]; simpl; [reflexivity | now f_equal]. Qed.

Lemma includes_cons (sub : string) (c : ascii) (s : string) :
  includes sub s = true -> includes sub (String c s) = true.
Proof. intros H. cbn [includes]. rewrite H. apply orb_true_r. Qed.

Lemma includes_percent_cons (c : ascii) (s : string) :
  includes "%" (String c s) = Ascii.eqb c "%" || includes "%" s.
Proof.
  cbn [includes]. unfold starts_with. cbn [strip_prefix].
  rewrite (Ascii.eqb_sym "%"%char c). now destruct (Ascii.eqb c "%").
Qed.

(** Unescaping never lengthens a string, and shortens every string that
    holds a [%]: each escape turns three characters into one octet. *)
Lemma unescape_length_aux (n : nat) :
  forall s l, (String.length s < n)%nat -> unescape s = Some l ->
    (length l <= String.length s)%nat /\
    (includes "%" s = true -> (length l < String.length s)%nat).
Proof.
  induction n as [|n IH]; intros s l Hn Hs; [lia|].
  destruct s as [|c r].
  - simpl in Hs. injection Hs as <-. simpl. split; [lia | discriminate].
  - rewrite includes_percent_cons. cbn [unescape] in Hs.
    destruct (Ascii.eqb c "%") eqn:Hc.
    + destruct r as [|h [|lo r']]; try discriminate.
      destruct (hex_val h), (hex_val lo); try discriminate.
      destruct (unescape r') as [l'|] eqn:Hr; try discriminate.
      injection Hs as <-.
      destruct (IH r' l') as [Hle _]; [simpl in Hn; lia | assumption |].
      simpl. split; [lia | intros _; lia].
    + destruct (unescape r) as [l'|] eqn:Hr; try discriminate.
      injection Hs as <-.
      destruct (IH r l') as [Hle Hlt]; [simpl in Hn; lia | assumption |].
      simpl. split; [lia | intros H; specialize (Hlt H); lia].
Qed.

Lemma decodeURIComponent_length (s t : string) :
  decodeURIComponent s = Some t ->
  (String.length t <= String.length s)%nat /\
  (includes "%" s = true -> (String.length t < String.length s)%nat).
Proof.
  unfold decodeURIComponent. intros H.
  destruct (unescape s) as [l|] eqn:Hl; [|discriminate].
  destruct (utf8_escapes_ok l); [|discriminate].
  injection H as <-. rewrite length_of_list_ascii, length_map.
  exact (unescape_length_aux (S (String.length s)) s l (Nat.lt_succ_diag_r _) Hl).
Qed.

(** Decoding changes every string that still holds an escape. *)
Lemma decodeURIComponent_changes (s t : string) :
  decodeURIComponent s = Some t -> includes "%" s = true -> t <> s.
Proof.
  intros H Hp ->. apply decodeURIComponent_length in H as [_ H].
  specialize (H Hp). lia.
Qed.

(** A string without [%] is its own decoding. *)
Lemma unescape_plain (s : string) :
  includes "%" s = false ->
  unescape s = Some (map (pair false) (list_ascii_of_string s)).
Proof.
  induction s as [|c r IH]; [reflexivity|].
  rewrite includes_percent_cons. intros H.
  apply orb_false_iff in H as [Hc Hr]. cbn [unescape]. rewrite Hc, (IH Hr).
  reflexivity.
Qed.

Lemma utf8_escapes_ok_plain (l : list ascii) :
  utf8_escapes_ok (map (pair false) l) = true.
Proof. induction l as [|c l IH]; [reflexivity | exact IH]. Qed.

Lemma decodeURIComponent_plain (s : string) :
  includes "%" s = false -> decodeURIComponent s = Some s.
Proof.
  intros H. unfold decodeURIComponent.
  rewrite (unescape_plain s H), utf8_escapes_ok_plain.
  rewrite map_map. simpl. rewrite map_id.
  now rewrite string_of_list_ascii_of_string.
Qed.

(** ** The Digest authenticator *)

Example md5_empty : Md5.md5_hex "" = "d41d8cd98f00b204e9800998ecf8427e".
Proof. vm_compute. reflexivity. Qed.

Example md5_abc : Md5.md5_hex "abc" = "900150983cd24fb0d6963f7d28e17f72".
Proof. vm_compute. reflexivity. Qed.

(** A message whose padding takes a second block. *)
Example md5_two_blocks :
  Md5.md5_hex (string_of_list_ascii (repeat "a"%char 56))
  = "3b0c8ac703f828b04c6c197006d17218".
Proof. vm_compute. reflexivity. Qed.

(** C9: for every realm, nonce, uri and method (and every client nonce drawn),
    the header built by [createDigestAuth] is the Digest header with the
    parameters username, realm, nonce, uri, qop=auth, nc, cnonce and response,
    in which nc is [00000001] and response is
    MD5(HA1:nonce:nc:cnonce:auth:HA2), HA1 = MD5(username:realm:password),
    HA2 = MD5(method:uri). *)
Theorem createDigestAuth_rfc2617 (rt : Runtime) (cfg : Config)
    (cnonce realm nonce uri method : string) :
  let MD5 := md5_hex rt in
  let ha1 := Rfc2617.HA1 MD5 (username cfg) realm (password cfg) in
  let ha2 := Rfc2617.HA2 MD5 method uri in
  createDigestAuth rt cfg cnonce realm nonce uri method =
  Rfc2617.render
    [Rfc2617.Quoted "username" (username cfg);
     Rfc2617.Quoted "realm" realm;
     Rfc2617.Quoted "nonce" nonce;
     Rfc2617.Quoted "uri" uri;
     Rfc2617.Token "qop" "auth";
     Rfc2617.Token "nc" "00000001";
     Rfc2617.Quoted "cnonce" cnonce;
     Rfc2617.Quoted "response"
       (Rfc2617.request_digest MD5 ha1 nonce "00000001" cnonce "auth" ha2)].
Proof.
  intros MD5 ha1 ha2. subst MD5 ha1 ha2.
  unfold createDigestAuth, Rfc2617.render, Rfc2617.request_digest,
    Rfc2617.HA1, Rfc2617.HA2.
  cbn [map Rfc2617.join Rfc2617.render_param].
  repeat rewrite append_assoc. reflexivity.
Qed.

(** The example of RFC 2617, section 3.5, through [createDigestAuth] with
    the real digest. *)
Example createDigestAuth_rfc_example :
  createDigestAuth Demo.runtime
    (mkConfig "Mufasa" "Circle Of Life" "" "" "" "" "" false false)
    "0a4f113b" "testrealm@host.com" "dcd98b7102dd2f0e8b11d0f600bfb0c093"
    "/dir/index.html" "GET"
  = Rfc2617.render
      [Rfc2617.Quoted "username" "Mufasa";
       Rfc2617.Quoted "realm" "testrealm@host.com";
       Rfc2617.Quoted "nonce" "dcd98b7102dd2f0e8b11d0f600bfb0c093";
       Rfc2617.Quoted "uri" "/dir/index.html";
       Rfc2617.Token "qop" "auth";
       Rfc2617.Token "nc" "00000001";
       Rfc2617.Quoted "cnonce" "0a4f113b";
       Rfc2617.Quoted "response" "6629fae49393a05397450978507c4ef1"].
Proof. vm_compute. reflexivity. Qed.

(** ** The multi-status parser *)

(** Every entry returned comes from a block on which the loop body pushed
    it. *)
Lemma parseResponses_elem (rt : Runtime) (responses : list string)
    (currentPath : string) (items : list FileInfo) (item : FileInfo) :
  parseResponses rt responses currentPath = Some items ->
  item ∈ items ->
  exists response,
    response ∈ responses /\ parseResponse rt response currentPath = Pushed item.
Proof.
  revert items. induction responses as [|r rest IH]; intros items Hp Hin.
  - injection Hp as <-. inversion Hin.
  - cbn [parseResponses] in Hp.
    destruct (parseResponse rt r currentPath) as [it| |] eqn:Hr; [| |discriminate].
    + destruct (parseResponses rt rest currentPath) as [l|] eqn:Hl; [|discriminate].
      injection Hp as <-. apply elem_of_cons in Hin as [->|Hin].
      * exists r. split; [apply list_elem_of_here | assumption].
      * destruct (IH l eq_refl Hin) as (r' & Hr' & Hp').
        exists r'. split; [now apply list_elem_of_further | assumption].
    + destruct (IH items Hp Hin) as (r' & Hr' & Hp').
      exists r'. split; [now apply list_elem_of_further | assumption].
Qed.

(** What a pushed entry holds. *)
Lemma parseResponse_pushed (rt : Runtime) (response currentPath : string)
    (item : FileInfo) :
  parseResponse rt response currentPath = Pushed item ->
  exists raw,
    regex_capture "<d:href>" (is_not "<") true "</d:href>" response = Some raw /\
    decodeURIComponent raw = Some (href item) /\
    isCurrentFolder (hrefPath (href item)) currentPath = false /\
    decodeURIComponent (hrefPath (href item)) = Some (relativePath item).
Proof.
  unfold parseResponse. intros H.
  destruct (regex_capture "<d:href>" _ _ _ response) as [raw|]; [|discriminate].
  destruct (decodeURIComponent raw) as [h|] eqn:Hh; [|discriminate].
  destruct (isCurrentFolder (hrefPath h) currentPath) eqn:Hc; [discriminate|].
  destruct (decodeURIComponent (hrefPath h)) as [d|] eqn:Hd; [|discriminate].
  injection H as <-. exists raw. cbn [href relativePath]. auto.
Qed.

(** C10 (implicit): in every entry the parser returns, [href] is the href of
    a response block decoded once, [relativePath] is that decoded href,
    stripped of the resource root and of a final slash, decoded a second
    time, and the self-reference test was made on the path decoded once only
    (it did not equal the listed folder).  Hence, when the path decoded once
    still holds a percent escape, the stored [relativePath] differs from the
    path that was compared. *)
Theorem relativePath_is_decoded_twice (rt : Runtime) (xml currentPath : string)
    (items : list FileInfo) (item : FileInfo) :
  parseMultistatus rt xml currentPath = Some items ->
  item ∈ items ->
  exists response raw,
    response ∈ tail (split "<d:response>" xml) /\
    regex_capture "<d:href>" (is_not "<") true "</d:href>" response = Some raw /\
    decodeURIComponent raw = Some (href item) /\
    decodeURIComponent (hrefPath (href item)) = Some (relativePath item) /\
    isCurrentFolder (hrefPath (href item)) currentPath = false /\
    (includes "%" (hrefPath (href item)) = true ->
     relativePath item <> hrefPath (href item)).
Proof.
  unfold parseMultistatus. intros Hp Hin.
  destruct (parseResponses_elem _ _ _ _ _ Hp Hin) as (response & Hr & Hpush).
  destruct (parseResponse_pushed _ _ _ _ Hpush) as (raw & Hraw & Hd1 & Hcmp & Hd2).
  exists response, raw. repeat split; try assumption.
  intros Hesc. exact (decodeURIComponent_changes _ _ Hd2 Hesc).
Qed.

Lemma relativePath_is_decoded_twice_witness :
  exists response raw,
    response ∈ tail (split "<d:response>" Scenario.listing_aA) /\
    regex_capture "<d:href>" (is_not "<") true "</d:href>" response = Some raw /\
    decodeURIComponent raw = Some (href Scenario.entry_a41) /\
    decodeURIComponent (hrefPath (href Scenario.entry_a41))
      = Some (relativePath Scenario.entry_a41) /\
    isCurrentFolder (hrefPath (href Scenario.entry_a41)) "aA" = false /\
    (includes "%" (hrefPath (href Scenario.entry_a41)) = true ->
     relativePath Scenario.entry_a41 <> hrefPath (href Scenario.entry_a41)).
Proof.
  apply (relativePath_is_decoded_twice Demo.runtime Scenario.listing_aA "aA"
           [Scenario.entry_a41] Scenario.entry_a41).
  - vm_compute. reflexivity.
  - apply list_elem_of_here.
Defined.

(** C10 as stated fails for an escape that is not in the path: the href
    sent as [https://h%2541.org/resources/x] still holds the escape [%41]
    once decoded, in its host; the path compared is [x], and so is the
    [relativePath] stored. *)
Lemma escape_outside_the_path_is_not_decoded_again :
  let xml :=
    Demo.multistatus [Demo.block "https://h%2541.org/resources/x" false "1" "200"] in
  exists item,
    parseMultistatus Demo.runtime xml "" = Some [item]
    /\ href item = "https://h%41.org/resources/x"
    /\ includes "%" (href item) = true
    /\ hrefPath (href item) = "x"
    /\ relativePath item = hrefPath (href item).
Proof.
  cbv zeta. eexists. split; [vm_compute; reflexivity|].
  repeat split; vm_compute; reflexivity.
Qed.

(** C3: the parser does not always leave out an entry whose [relativePath]
    is the path of the folder listed.  In the listing of folder [aA], the
    entry sent as [a%2541] is compared as [a%41], kept, and stored with
    [relativePath] [aA]: the comparison comes before the second decoding. *)
Theorem self_path_returned_after_second_decoding :
  parseMultistatus Demo.runtime Scenario.listing_aA "aA" = Some [Scenario.entry_a41]
  /\ relativePath Scenario.entry_a41 = "aA".
Proof. split; vm_compute; reflexivity. Qed.

(** What the skip test does guarantee: no entry returned has a path that,
    decoded once, is the folder listed. *)
Lemma parseMultistatus_skips_compared_path (rt : Runtime) (xml currentPath : string)
    (items : list FileInfo) (item : FileInfo) :
  parseMultistatus rt xml currentPath = Some items ->
  item ∈ items ->
  hrefPath (href item) <> currentPath.
Proof.
  intros Hp Hin.
  destruct (parseResponses_elem _ _ _ _ _ Hp Hin) as (response & _ & Hpush).
  destruct (parseResponse_pushed _ _ _ _ Hpush) as (_ & _ & _ & Hcmp & _).
  intros Heq. unfold isCurrentFolder in Hcmp. rewrite Heq in Hcmp.
  now rewrite String.eqb_refl in Hcmp.
Qed.

(** With no escape left after the first decoding, the entry returned is
    never the folder listed. *)
Lemma parseMultistatus_excludes_self_when_plain (rt : Runtime)
    (xml currentPath : string) (items : list FileInfo) (item : FileInfo) :
  parseMultistatus rt xml currentPath = Some items ->
  item ∈ items ->
  includes "%" (hrefPath (href item)) = false ->
  relativePath item <> currentPath.
Proof.
  intros Hp Hin Hplain.
  pose proof (parseMultistatus_skips_compared_path _ _ _ _ _ Hp Hin) as Hne.
  destruct (parseResponses_elem _ _ _ _ _ Hp Hin) as (response & _ & Hpush).
  destruct (parseResponse_pushed _ _ _ _ Hpush) as (_ & _ & _ & _ & Hd).
  rewrite (decodeURIComponent_plain _ Hplain) in Hd. injection Hd as Hd.
  congruence.
Qed.

(** ** Steps keep relations *)

Section Keeps.

Variable R : State -> State -> Prop.
Hypothesis HR : Bookkeeping R.

Lemma keeps_ret {A} (a : A) : keeps R (ret a).
Proof. intros s. apply (bk_refl R HR). Qed.

Lemma keeps_throw {A} (e : string) : keeps R (@throw A e).
Proof. intros s. apply (bk_refl R HR). Qed.

Lemma keeps_crash {A} (e : string) : keeps R (@crash A e).
Proof. intros s. apply (bk_refl R HR). Qed.

Lemma keeps_exit {A} (c : Z) : keeps R (@exit A c).
Proof. intros s. apply (bk_refl R HR). Qed.

Lemma keeps_never {A} : keeps R (@never A).
Proof. intros s. apply (bk_refl R HR). Qed.

Lemma keeps_out_of_fuel {A} : keeps R (@out_of_fuel A).
Proof. intros s. apply (bk_refl R HR). Qed.

Lemma keeps_unchecked {A} : keeps R (@unchecked A).
Proof. intros s. apply (bk_refl R HR). Qed.

Lemma keeps_get {A} (proj : State -> A) : keeps R (get proj).
Proof. intros s. apply (bk_refl R HR). Qed.

Lemma keeps_update (f : State -> State) :
  (forall s, R s (f s)) -> keeps R (update f).
Proof. intros H s. apply H. Qed.

Lemma keeps_bind {A B} (m : M A) (k : A -> M B) :
  keeps R m -> (forall a, keeps R (k a)) -> keeps R (bind m k).
Proof.
  intros Hm Hk s. unfold bind. specialize (Hm s).
  destruct (m s) as [[a|e|e|c| | |] s']; cbn [snd] in *; try assumption.
  eapply (bk_trans R HR); [exact Hm | apply Hk].
Qed.

Lemma keeps_try_catch {A} (m : M A) (h : string -> M A) :
  keeps R m -> (forall e, keeps R (h e)) -> keeps R (try_catch m h).
Proof.
  intros Hm Hh s. unfold try_catch. specialize (Hm s).
  destruct (m s) as [[a|e|e|c| | |] s']; cbn [snd] in *; try assumption.
  eapply (bk_trans R HR); [exact Hm | apply Hh].
Qed.

Lemma keeps_for_each {A} (l : list A) (f : A -> M unit) :
  (forall x, x ∈ l -> keeps R (f x)) -> keeps R (for_each l f).
Proof.
  induction l as [|x l IH]; intros H; cbn [for_each].
  - apply keeps_ret.
  - apply keeps_bind.
    + apply H, list_elem_of_here.
    + intros _. apply IH. intros y Hy. apply H. now apply list_elem_of_further.
Qed.

Lemma keeps_if {A} (b : bool) (m1 m2 : M A) :
  keeps R m1 -> keeps R m2 -> keeps R (if b then m1 else m2).
Proof. now destruct b. Qed.

Variable rt : Runtime.
Variable cfg : Config.
Variable env : Env.

Lemma keeps_tick : keeps R tick.
Proof. intros s. apply (bk_clock R HR). Qed.

Lemma keeps_now_iso : keeps R (now_iso rt).
Proof. apply keeps_bind; [apply keeps_tick | intros; apply keeps_ret]. Qed.

Lemma keeps_now_ms : keeps R (now_ms rt).
Proof. apply keeps_bind; [apply keeps_tick | intros; apply keeps_ret]. Qed.

Lemma keeps_draw_cnonce : keeps R (draw_cnonce rt).
Proof. intros s. apply (bk_draws R HR). Qed.

Lemma keeps_request (r : Request) : keeps R (request env r).
Proof. intros s. apply (bk_sent R HR). Qed.

Lemma keeps_resolve_parsed (data folderPath : string) :
  keeps R (resolve_parsed rt data folderPath).
Proof.
  unfold resolve_parsed. destruct (parseMultistatus _ _ _);
    [apply keeps_ret | apply keeps_crash].
Qed.

(** A listing only sends requests and draws a client nonce. *)
Lemma keeps_propfind (folderPath : string) :
  keeps R (propfind rt cfg env folderPath).
Proof.
  unfold propfind. destruct (new_URL rt _) as [url|]; [|apply keeps_throw].
  apply keeps_bind; [apply keeps_request|]. intros [res|err]; [|apply keeps_throw].
  destruct (statusCode res =? 401); [|apply keeps_resolve_parsed].
  destruct (realmMatch _) as [realm|]; [|apply keeps_never].
  destruct (nonceMatch _) as [nonce|]; [|apply keeps_never].
  apply keeps_bind; [apply keeps_draw_cnonce|]. intros cnonce.
  apply keeps_bind; [apply keeps_request|]. intros [authRes|err];
    [|apply keeps_crash].
  destruct (statusCode authRes =? 207);
    [apply keeps_resolve_parsed | apply keeps_throw].
Qed.

(** The log is the one file a log line touches. *)
Hypothesis HR_log :
  forall s d, R s (with_disk_files (<[logFile cfg := d]> (disk_files s)) s).

Lemma keeps_log (message level : string) : keeps R (log rt cfg message level).
Proof.
  unfold log. apply keeps_bind; [apply keeps_now_iso|]. intros ts.
  unfold appendFileSync. apply keeps_update. intros s. apply HR_log.
Qed.

Hypothesis HR_folders :
  forall s, R s (with_stats (bump_foldersScanned (stats s)) s).
Hypothesis HR_error :
  forall s e, R s (with_stats (push_error e (stats s)) s).

(** The scan keeps whatever its steps on single files keep. *)
Lemma keeps_scanFolder (fuel : nat) :
  (forall item, keeps R (scanFile cfg item)) ->
  forall folderPath, keeps R (scanFolder rt cfg env fuel folderPath).
Proof.
  intros Hfile. induction fuel as [|fuel IH]; intros folderPath;
    cbn [scanFolder]; [apply keeps_out_of_fuel|].
  apply keeps_bind; [apply keeps_update, HR_folders|]. intros _.
  apply keeps_try_catch.
  - apply keeps_bind; [apply keeps_propfind|]. intros items.
    apply keeps_for_each. intros item _.
    destruct (isFolder item); [apply IH | apply Hfile].
  - intros e. apply keeps_bind; [apply keeps_log|]. intros _.
    apply keeps_update. intros s. apply HR_error.
Qed.

End Keeps.

(** ** Classification and scanning *)

Lemma js_gt_irrefl (a : jsnum) : js_gt a a = false.
Proof. destruct a as [z| |]; cbn; [apply Z.ltb_irrefl | reflexivity..]. Qed.

Lemma scan_appends_bookkeeping (P : FileInfo -> Manifest -> Prop) :
  Bookkeeping (scan_appends P).
Proof.
  split.
  - intros s. split; [reflexivity|]. exists []. split; [now rewrite app_nil_r | constructor].
  - intros a b c (Hm1 & l1 & Hl1 & HP1) (Hm2 & l2 & Hl2 & HP2).
    split; [congruence|]. exists (l1 ++ l2)%list. split.
    + rewrite Hl2, Hl1. now rewrite app_assoc.
    + apply Forall_app. split; [assumption|]. now rewrite Hm1 in HP2.
  - intros s n. split; [reflexivity|]. exists []. split; [now rewrite app_nil_r | constructor].
  - intros s n. split; [reflexivity|]. exists []. split; [now rewrite app_nil_r | constructor].
  - intros s l. split; [reflexivity|]. exists []. split; [now rewrite app_nil_r | constructor].
Qed.

Lemma scan_appends_same_lists (P : FileInfo -> Manifest -> Prop) (s s' : State) :
  manifest s' = manifest s -> filesToSync s' = filesToSync s ->
  scan_appends P s s'.
Proof.
  intros Hm Hl. split; [assumption|]. exists [].
  split; [now rewrite app_nil_r | constructor].
Qed.

(** What [scanFile] does, by the status it computes. *)
Lemma scanFile_run (cfg : Config) (item : FileInfo) (s : State) :
  scanFile cfg item s =
  (Returns tt,
   match (if fullSync cfg then new else needsSync item (manifest s)) with
   | new =>
       with_filesToSync (filesToSync s ++ [item])
         (with_stats (bump_filesNew (bump_filesFound (stats s))) s)
   | modified =>
       with_filesToSync (filesToSync s ++ [item])
         (with_stats (bump_filesModified (bump_filesFound (stats s))) s)
   | unchanged =>
       with_stats (bump_filesUnchanged (bump_filesFound (stats s))) s
   end).
Proof.
  unfold scanFile, bind, set_stats, update, get, push_file. cbn.
  destruct (if fullSync cfg then new else needsSync item (manifest s)); reflexivity.
Qed.

(** Without the full-sync flag, a scan appends only files that [needsSync]
    does not classify as unchanged. *)
Lemma scanFolder_incremental (rt : Runtime) (cfg : Config) (env : Env)
    (fuel : nat) (folderPath : string) :
  fullSync cfg = false ->
  keeps (scan_appends (fun f m => needsSync f m <> unchanged))
        (scanFolder rt cfg env fuel folderPath).
Proof.
  intros Hinc. apply keeps_scanFolder.
  - apply scan_appends_bookkeeping.
  - intros s d. now apply scan_appends_same_lists.
  - intros s. now apply scan_appends_same_lists.
  - intros s e. now apply scan_appends_same_lists.
  - intros item s. rewrite scanFile_run, Hinc. cbn [snd].
    destruct (needsSync item (manifest s)) eqn:Hst.
    + split; [reflexivity|]. exists [item]. split; [reflexivity|].
      constructor; [|constructor]. now rewrite Hst.
    + split; [reflexivity|]. exists [item]. split; [reflexivity|].
      constructor; [|constructor]. now rewrite Hst.
    + now apply scan_appends_same_lists.
Qed.

(** The test of [needsSync] on an existing entry. *)
Lemma needsSync_entry (file : FileInfo) (m : Manifest) (existing : ManifestEntry) :
  files m !! relativePath file = Some existing ->
  needsSync file m =
  if js_gt (lastModifiedTime file) (e_lastModifiedTime existing)
     || negb (size file =? e_size existing)
  then modified else unchanged.
Proof. intros He. unfold needsSync, files_at. now rewrite He. Qed.

(** Without an entry, the answer depends on what the object inherits under
    the name. *)
Lemma needsSync_no_entry (file : FileInfo) (m : Manifest) :
  files m !! relativePath file = None ->
  needsSync file m =
  match inherited_at m (relativePath file) with
  | Undefined => new
  | EntryObject e =>
      if js_gt (lastModifiedTime file) (e_lastModifiedTime e)
         || negb (size file =? e_size e)
      then modified else unchanged
  | v => if js_truthy v then modified else new
  end.
Proof.
  intros He. unfold needsSync, files_at. rewrite He.
  destruct (inherited_at m (relativePath file)) as [|e| |x|[z| |]]; cbn;
    try reflexivity.
  - now destruct (negb (String.eqb x "")).
  - now destruct (negb (z =? 0)).
Qed.

(** With the prototype of an object literal, the inherited names are those
    of [Object.prototype]. *)
Lemma inherited_at_plain (m : Manifest) (key : string) :
  files_proto m = None ->
  key <> "__proto__" -> key ∉ Object_prototype_names ->
  inherited_at m key = Undefined.
Proof.
  intros Hp Hk Hn. unfold inherited_at. rewrite Hp. cbn.
  apply String.eqb_neq in Hk as ->. now rewrite bool_decide_eq_false_2.
Qed.

Lemma needsSync_new_no_entry (file : FileInfo) (m : Manifest) :
  needsSync file m = new -> files m !! relativePath file = None.
Proof.
  destruct (files m !! relativePath file) as [e|] eqn:He; [|reflexivity].
  rewrite (needsSync_entry file m e He). now destruct (_ || _).
Qed.

Lemma changed_iff (a b : jsnum) (x y : Z) :
  js_gt a b || negb (x =? y) = true <-> js_gt a b = true \/ x <> y.
Proof. now rewrite orb_true_iff, negb_true_iff, Z.eqb_neq. Qed.

(** C1, as the code has it, for a file whose [relativePath] is not the name
    of a property that the object [manifest.files] inherits from its
    prototype (with the prototype of an object literal: [__proto__] and the
    names of [Object.prototype]): [needsSync(file, manifest)] returns [new]
    exactly when the manifest has no entry under [file.relativePath].  For
    every file, [new] is returned only when there is no entry, and when
    the manifest has an entry, it returns [modified] exactly when the remote
    time is strictly greater than the stored one or the sizes differ, and
    [unchanged] otherwise.  In particular a file whose stored size and time
    equal the remote ones is [unchanged]; and in a run without the full-sync
    flag, the only one in which the scan consults [needsSync], a file
    classified [unchanged] is not appended to the to-sync list. *)
Theorem needsSync_classification (file : FileInfo) (m : Manifest) :
  (needsSync file m = new -> files m !! relativePath file = None)
  /\ (inherited_at m (relativePath file) = Undefined ->
      files m !! relativePath file = None -> needsSync file m = new)
  /\ (files_proto m = None -> relativePath file <> "__proto__" ->
      relativePath file ∉ Object_prototype_names ->
      (needsSync file m = new <-> files m !! relativePath file = None))
  /\ (forall existing, files m !! relativePath file = Some existing ->
        (needsSync file m = modified <->
           js_gt (lastModifiedTime file) (e_lastModifiedTime existing) = true
           \/ size file <> e_size existing)
        /\ (needsSync file m = unchanged <->
              ~ (js_gt (lastModifiedTime file) (e_lastModifiedTime existing) = true
                 \/ size file <> e_size existing))
        /\ (e_size existing = size file ->
            e_lastModifiedTime existing = lastModifiedTime file ->
            needsSync file m = unchanged))
  /\ (forall rt cfg env fuel folderPath s,
        fullSync cfg = false -> manifest s = m ->
        needsSync file m = unchanged ->
        filesToSync (snd (scanFile cfg file s)) = filesToSync s
        /\ exists added,
             filesToSync (snd (scanFolder rt cfg env fuel folderPath s))
               = (filesToSync s ++ added)%list
             /\ file ∉ added).
Proof.
  split; [|split; [|split; [|split]]].
  - apply needsSync_new_no_entry.
  - intros Hplain He. now rewrite (needsSync_no_entry file m He), Hplain.
  - intros Hp Hk Hn. split; [apply needsSync_new_no_entry|].
    intros He. rewrite (needsSync_no_entry file m He).
    now rewrite (inherited_at_plain m (relativePath file) Hp Hk Hn).
  - intros existing He. rewrite (needsSync_entry file m existing He).
    pose proof (changed_iff (lastModifiedTime file) (e_lastModifiedTime existing)
                  (size file) (e_size existing)) as Hiff.
    destruct (js_gt _ _ || negb _); destruct Hiff as [Hto Hfrom].
    + specialize (Hto eq_refl). split; [|split].
      * now split.
      * split; [discriminate | intros Hn; now destruct Hn].
      * intros Hsize Htime. destruct Hto as [Hgt|Hne].
        -- rewrite Htime, js_gt_irrefl in Hgt. discriminate.
        -- now destruct Hne.
    + split; [|split].
      * split; [discriminate | intros Hch; now apply Hfrom in Hch].
      * split; [intros _ Hch; now apply Hfrom in Hch | reflexivity].
      * reflexivity.
  - intros rt cfg env fuel folderPath s Hinc Hm Hun. split.
    + rewrite scanFile_run, Hinc, Hm, Hun. reflexivity.
    + destruct (scanFolder_incremental rt cfg env fuel folderPath Hinc s)
        as (_ & added & Hadd & Hall).
      exists added. split; [assumption|]. intros Hin.
      rewrite Forall_forall in Hall. apply (Hall file Hin). now rewrite Hm.
Qed.

Lemma needsSync_classification_witness :
  let cfg := Demo.config false false in
  let fresh :=
    mkFileInfo (Demo.root +:+ "report.txt") "report.txt" "report.txt" 12 false
      "300" (Num 300) in
  needsSync fresh Scenario.ledger = new
  /\ needsSync Scenario.policy Scenario.ledger = unchanged
  /\ exists added,
       filesToSync (snd (scanFolder Demo.runtime cfg Scenario.tree 5 ""
                           Scenario.with_ledger))
         = (filesToSync Scenario.with_ledger ++ added)%list
       /\ Scenario.policy ∉ added.
Proof.
  cbv zeta.
  destruct (needsSync_classification Scenario.policy Scenario.ledger)
    as (_ & _ & _ & Hentry & Hscan).
  destruct (needsSync_classification
              (mkFileInfo (Demo.root +:+ "report.txt") "report.txt" "report.txt"
                 12 false "300" (Num 300)) Scenario.ledger)
    as (_ & Hnew & _).
  assert (Hun : needsSync Scenario.policy Scenario.ledger = unchanged).
  { apply (Hentry (mkManifestEntry "Documents/Policy.pdf" 1024 "200" (Num 200)
                     "2026-01-02T00:00:00.0Z" None)); reflexivity. }
  split; [apply Hnew; reflexivity|]. split; [exact Hun|].
  apply (Hscan Demo.runtime (Demo.config false false) Scenario.tree 5%nat ""
           Scenario.with_ledger); [reflexivity | reflexivity | exact Hun].
Defined.

(** C1 without the restriction to runs that consult [needsSync] fails: with
    the full-sync flag, line 361 takes [new] for every file, and a file
    whose stored size and time equal the listing's, for which [needsSync]
    gives [unchanged], is appended to the to-sync list by the scan. *)
Lemma full_sync_appends_an_unchanged_file :
  let cfg := Demo.config false true in
  fullSync cfg = true
  /\ (exists existing,
        files Scenario.ledger !! relativePath Scenario.policy = Some existing
        /\ e_size existing = size Scenario.policy
        /\ e_lastModifiedTime existing = lastModifiedTime Scenario.policy)
  /\ needsSync Scenario.policy Scenario.ledger = unchanged
  /\ filesToSync Scenario.with_ledger = []
  /\ filesToSync (snd (scanFolder Demo.runtime cfg Scenario.tree 5 ""
                         Scenario.with_ledger))
     = [Scenario.policy].
Proof.
  cbv zeta. split; [reflexivity|]. split.
  - exists (mkManifestEntry "Documents/Policy.pdf" 1024 "200" (Num 200)
              "2026-01-02T00:00:00.0Z" None).
    repeat split; reflexivity.
  - repeat split; vm_compute; reflexivity.
Qed.

(** ** Listing requests *)

Section Propfind.

Variable rt : Runtime.
Variable cfg : Config.
Variable env : Env.
Variable folderPath : string.
Variable url : Url.
Hypothesis Hurl : new_URL rt (propfind_url cfg folderPath) = Some url.

Variable res : Response.
Hypothesis Hres : server env (propfind_options url None) = Responds res.

(** A first response that is not a 401 is parsed whatever its status. *)
Lemma propfind_unchallenged (s : State) :
  statusCode res <> 401 ->
  propfind rt cfg env folderPath s =
  resolve_parsed rt (body res) folderPath
    (with_sent (sent s ++ [propfind_options url None]) s).
Proof.
  intros Hst. unfold propfind. rewrite Hurl. unfold bind, request. rewrite Hres.
  apply Z.eqb_neq in Hst. now rewrite Hst.
Qed.

(** A challenge without a realm or without a nonce: one request sent, and
    the promise is left unsettled. *)
Lemma propfind_unparsable_challenge (s : State) :
  statusCode res = 401 ->
  realmMatch (default "" (www_authenticate res)) = None
  \/ nonceMatch (default "" (www_authenticate res)) = None ->
  propfind rt cfg env folderPath s =
  (NeverSettles, with_sent (sent s ++ [propfind_options url None]) s).
Proof.
  intros Hst Hno. unfold propfind. rewrite Hurl. unfold bind, request.
  rewrite Hres, Hst. cbn [Z.eqb Pos.eqb].
  destruct Hno as [-> | ->]; [reflexivity|].
  now destruct (realmMatch _).
Qed.

(** After a challenge that can be answered, the second response decides:
    207 is parsed, any other status is an error that carries it. *)
Lemma propfind_authenticated (s : State) (realm nonce : string) (authRes : Response) :
  statusCode res = 401 ->
  realmMatch (default "" (www_authenticate res)) = Some realm ->
  nonceMatch (default "" (www_authenticate res)) = Some nonce ->
  let authorization :=
    createDigestAuth rt cfg (random_token rt (draws s)) realm nonce
      (pathname url) "PROPFIND" in
  let s' :=
    with_sent (sent s ++ [propfind_options url None;
                           propfind_options url (Some authorization)])
      (with_draws (S (draws s)) s) in
  server env (propfind_options url (Some authorization)) = Responds authRes ->
  propfind rt cfg env folderPath s =
  if statusCode authRes =? 207
  then resolve_parsed rt (body authRes) folderPath s'
  else (Throws ("Error: HTTP " +:+ of_Z (statusCode authRes)), s').
Proof.
  intros Hst Hrealm Hnonce authorization s' Hauth.
  unfold propfind. rewrite Hurl. unfold bind at 1. unfold request at 1.
  rewrite Hres, Hst. cbn [Z.eqb Pos.eqb]. rewrite Hrealm, Hnonce.
  unfold bind, draw_cnonce, request. cbn [with_sent with_draws draws sent].
  fold authorization. rewrite Hauth.
  assert (Hs : with_sent
                 ((sent s ++ [propfind_options url None])
                  ++ [propfind_options url (Some authorization)])
                 (with_draws (S (draws s))
                    (with_sent (sent s ++ [propfind_options url None]) s)) = s').
  { subst s'. unfold with_sent, with_draws. cbn. now rewrite <- app_assoc. }
  rewrite Hs. destruct (statusCode authRes =? 207); reflexivity.
Qed.

End Propfind.

Lemma ensure_dir_returns (dir : string) (s : State) :
  exists s', ensure_dir dir s = (Returns tt, s') /\ sent s' = sent s.
Proof.
  unfold ensure_dir, bind, existsSync, get. cbn [fst snd].
  destruct (bool_decide _ || bool_decide _); eexists; split; reflexivity.
Qed.

(** A download that meets a challenge without a realm or without a nonce
    returns false after its single request. *)
Lemma downloadFile_unparsable_challenge (rt : Runtime) (cfg : Config) (env : Env)
    (fileUrl destPath : string) (url : Url) (res : Response) (s : State) :
  dryRun cfg = false ->
  new_URL rt fileUrl = Some url ->
  server env (mkRequest GET (hostname url) 443 (pathname url) [] "") = Responds res ->
  statusCode res = 401 ->
  realmMatch (default "" (www_authenticate res)) = None
  \/ nonceMatch (default "" (www_authenticate res)) = None ->
  let r := downloadFile rt cfg env fileUrl destPath s in
  fst r = Returns false
  /\ sent (snd r)
     = (sent s ++ [mkRequest GET (hostname url) 443 (pathname url) [] ""])%list.
Proof.
  intros Hdry Hurl Hres Hst Hno r.
  destruct (ensure_dir_returns (path_dirname rt destPath) s) as (s0 & Hs0 & Hsent).
  assert (Hrun : r = (Returns false,
                      with_sent (sent s0 ++ [mkRequest GET (hostname url) 443
                                               (pathname url) [] ""]) s0)).
  { subst r. unfold downloadFile. rewrite Hdry, Hurl.
    unfold bind at 1. rewrite Hs0. unfold bind at 1. unfold request at 1.
    rewrite Hres. unfold handleResponse, handleResponseWith. rewrite Hst.
    replace ((300 <=? 401) && (401 <? 400)) with false by reflexivity.
    replace ((401 =? 401) && negb false) with true by reflexivity.
    destruct Hno as [Hn | Hn]; rewrite Hn.
    - now destruct (truthy (location res)).
    - destruct (truthy (location res)), (realmMatch _); reflexivity. }
  rewrite Hrun. cbn. now rewrite Hsent.
Qed.

(** C4: a listing that receives a 401 whose challenge has no nonce does not
    fail: its promise is never settled.  On the root listing the run stops
    there, without an error recorded or logged and without a retry (one
    request was sent).  A download that receives the same challenge does fail
    at once: it returns false after its single request. *)
Theorem listing_without_nonce_never_settles :
  let cfg := Demo.config false false in
  let run := program Demo.runtime cfg Scenario.no_nonce 5 Demo.start in
  let get := downloadFile Demo.runtime cfg Scenario.no_nonce
               (href Scenario.policy) "./backups/Documents/Policy.pdf" Demo.start in
  fst (propfind Demo.runtime cfg Scenario.no_nonce "" Demo.start) = NeverSettles
  /\ fst run = NeverSettles
  /\ errors (stats (snd run)) = []
  /\ length (sent (snd run)) = 1%nat
  /\ (text <$> disk_files (snd run) !! logFile cfg) =
       Some ("[2026-01-03T00:00:00.2Z] [INFO] === Backup Started ===" +:+ newline
             +:+ "[2026-01-03T00:00:00.3Z] [INFO] Mode: Incremental" +:+ newline
             +:+ "[2026-01-03T00:00:00.4Z] [INFO] Destination: ./backups" +:+ newline
             +:+ "[2026-01-03T00:00:00.5Z] [INFO] Manifest loaded: 0 files tracked"
             +:+ newline
             +:+ "[2026-01-03T00:00:00.6Z] [INFO] Scanning for changes..." +:+ newline)
  /\ fst get = Returns false
  /\ length (sent (snd get)) = 1%nat.
Proof. cbv zeta. repeat split; vm_compute; reflexivity. Qed.

(** C7: a first response that is not a challenge is not checked for its
    status.  A 404 with a page of text gives the empty listing as a
    successful result, and the run ends without any error. *)
Theorem unchallenged_404_gives_an_empty_listing :
  let cfg := Demo.config false false in
  let run := program Demo.runtime cfg Scenario.not_found 5 Demo.start in
  server Scenario.not_found
    (propfind_options (mkUrl "sbnewcomers.org" "/resources/" "") None)
    = Responds (mkResponse 404 None None "<html>Not Found</html>")
  /\ fst (propfind Demo.runtime cfg Scenario.not_found "" Demo.start) = Returns []
  /\ fst run = Returns tt
  /\ errors (stats (snd run)) = [].
Proof. cbv zeta. repeat split; vm_compute; reflexivity. Qed.

(** C2: two incremental runs in a row, the second on the disk the first
    left, against the same server.  The first ends without error; the second
    still classifies a file as modified and downloads it: the files named
    [a%41] and [aA] are both recorded under the key [aA]. *)
Theorem second_run_downloads_again :
  let cfg := Demo.config false false in
  let first := program Demo.runtime cfg Scenario.two_names 5 Demo.start in
  let second := program Demo.runtime cfg Scenario.two_names 5
                  (fresh_process (snd first)) in
  dryRun cfg = false /\ fullSync cfg = false
  /\ fst first = Returns tt
  /\ errors (stats (snd first)) = []
  /\ map relativePath (filesToSync (snd first)) = ["aA"; "aA"]
  /\ fst second = Returns tt
  /\ filesModified (stats (snd second)) = 1
  /\ filesUnchanged (stats (snd second)) = 1
  /\ filesDownloaded (stats (snd second)) = 1.
Proof. cbv zeta. repeat split; vm_compute; reflexivity. Qed.

(** ** Downloads and the sync phase *)

Section Download.

Variable rt : Runtime.
Variable cfg : Config.
Variable env : Env.

(** Any relation that tolerates bookkeeping, the creation of directories
    and the writing of the destination file. *)
Variable R : State -> State -> Prop.
Variable destPath : string.
Hypothesis HR : Bookkeeping R.
Hypothesis HR_dest :
  forall s d, R s (with_disk_files (<[destPath := d]> (disk_files s)) s).
Hypothesis HR_dirs : forall s d, R s (with_disk_dirs d s).

Lemma keeps_pipe_to_file (data : string) :
  keeps R (pipe_to_file env destPath data).
Proof.
  unfold pipe_to_file. destruct (stream_ok env destPath); [|now apply keeps_ret].
  apply keeps_bind; [assumption | apply keeps_update; intros; apply HR_dest |].
  intros _. now apply keeps_ret.
Qed.

Lemma keeps_handleResponseWith (again : Response -> M bool) (url : Url)
    (res : Response) (isAuth : bool) :
  (forall r, keeps R (again r)) ->
  keeps R (handleResponseWith rt cfg env again url destPath res isAuth).
Proof.
  intros Hagain. unfold handleResponseWith.
  destruct ((300 <=? statusCode res) && (statusCode res <? 400)),
    (truthy (location res)) as [loc|].
  1: { destruct (new_URL rt loc) as [redirectUrl|]; [|now apply keeps_crash].
       apply keeps_bind; [assumption | now apply keeps_request |].
       intros [redirectRes|err]; [|now apply keeps_ret].
       destruct (statusCode redirectRes =? 200);
         [apply keeps_pipe_to_file | now apply keeps_ret]. }
  all: destruct ((statusCode res =? 401) && negb isAuth);
    [ destruct (realmMatch _) as [realm|]; [|now apply keeps_ret];
      destruct (nonceMatch _) as [nonce|]; [|now apply keeps_ret];
      apply keeps_bind; [assumption | now apply keeps_draw_cnonce |];
      intros cnonce;
      apply keeps_bind; [assumption | now apply keeps_request |];
      intros [authRes|err]; [apply Hagain | now apply keeps_ret]
    | destruct (statusCode res =? 200);
      [apply keeps_pipe_to_file | now apply keeps_ret] ].
Qed.

Lemma keeps_downloadFile (fileUrl : string) :
  keeps R (downloadFile rt cfg env fileUrl destPath).
Proof.
  unfold downloadFile. destruct (dryRun cfg); [now apply keeps_ret|].
  destruct (new_URL rt fileUrl) as [url|]; [|now apply keeps_throw].
  apply keeps_bind; [assumption | |].
  { unfold ensure_dir. apply keeps_bind; [assumption | now apply keeps_get |].
    intros [|]; [now apply keeps_ret|]. apply keeps_update. intros s. apply HR_dirs. }
  intros _. apply keeps_bind; [assumption | now apply keeps_request |].
  intros [res|err]; [|now apply keeps_ret].
  unfold handleResponse. apply keeps_handleResponseWith. intros authRes.
  apply keeps_handleResponseWith. intros r. now apply keeps_ret.
Qed.

End Download.

Lemma same_objects_bookkeeping : Bookkeeping same_objects.
Proof.
  split.
  - intros s. now repeat split.
  - intros a b c (H1 & H2 & H3) (H4 & H5 & H6). repeat split; congruence.
  - intros s n. now repeat split.
  - intros s n. now repeat split.
  - intros s l. now repeat split.
Qed.

(** A download touches the disk and the network, never the manifest, the
    statistics or the to-sync list. *)
Lemma downloadFile_same_objects (rt : Runtime) (cfg : Config) (env : Env)
    (fileUrl destPath : string) :
  keeps same_objects (downloadFile rt cfg env fileUrl destPath).
Proof.
  apply keeps_downloadFile.
  - apply same_objects_bookkeeping.
  - intros s f. now repeat split.
  - intros s d. now repeat split.
Qed.

(** *** Assignments to [manifest.files] *)

Lemma files_assign_at (key : string) (e : ManifestEntry) (m : Manifest) :
  files_at (files_assign key e m) key = EntryObject e.
Proof.
  unfold files_assign, files_at.
  destruct (String.eqb_spec key "__proto__") as [->|Hk]; cbn [andb].
  - destruct (bool_decide_reflect (is_Some (files m !! "__proto__"))) as [Hs|Hn];
      cbn [negb files files_proto].
    + now rewrite lookup_insert_eq.
    + apply eq_None_not_Some in Hn. rewrite Hn. reflexivity.
  - cbn [files]. now rewrite lookup_insert_eq.
Qed.

Lemma files_assign_other (key key' : string) (e : ManifestEntry) (m : Manifest) :
  key' <> key -> files (files_assign key e m) !! key' = files m !! key'.
Proof.
  intros Hne. unfold files_assign. destruct (_ && _); cbn [files];
    [reflexivity | now apply lookup_insert_ne].
Qed.

(** Under any key but [__proto__], and under [__proto__] when the object
    has such a property of its own, the entry becomes an own property. *)
Lemma files_assign_own (key : string) (e : ManifestEntry) (m : Manifest) :
  key <> "__proto__" \/ is_Some (files m !! key) ->
  files_assign key e m
  = mkManifest (lastFullSync m) (lastIncrementalSync m) (totalFiles m)
      (totalSize m) (<[key := e]> (files m)) (files_proto m).
Proof.
  intros H. unfold files_assign.
  destruct (String.eqb_spec key "__proto__") as [Hk|Hk]; cbn [andb];
    [|reflexivity].
  destruct H as [H|H]; [contradiction|].
  now rewrite bool_decide_eq_true_2.
Qed.

(** Otherwise the entry becomes the prototype and no property is created. *)
Lemma files_assign_proto (e : ManifestEntry) (m : Manifest) :
  files m !! "__proto__" = None ->
  files_assign "__proto__" e m
  = mkManifest (lastFullSync m) (lastIncrementalSync m) (totalFiles m)
      (totalSize m) (files m) (Some e).
Proof.
  intros H. unfold files_assign. cbn [String.eqb Ascii.eqb andb].
  rewrite bool_decide_eq_false_2; [reflexivity|].
  rewrite H. apply is_Some_None.
Qed.

Lemma files_assign_cases (key : string) (e : ManifestEntry) (m : Manifest) :
  (files (files_assign key e m) = <[key := e]> (files m)
   /\ files_proto (files_assign key e m) = files_proto m)
  \/ (key = "__proto__" /\ files (files_assign key e m) = files m
      /\ files_proto (files_assign key e m) = Some e).
Proof.
  unfold files_assign.
  destruct (String.eqb_spec key "__proto__") as [->|Hk]; cbn [andb];
    [|now left].
  destruct (bool_decide _); cbn [negb]; [now left | now right].
Qed.

(** No own property is ever removed. *)
Lemma files_assign_keeps (key k : string) (e : ManifestEntry) (m : Manifest) :
  is_Some (files m !! k) -> is_Some (files (files_assign key e m) !! k).
Proof.
  intros Hk. destruct (files_assign_cases key e m) as [[-> _] | (_ & -> & _)];
    [|assumption].
  apply lookup_insert_is_Some'. now right.
Qed.

Lemma files_assign_fields (key : string) (e : ManifestEntry) (m : Manifest) :
  lastFullSync (files_assign key e m) = lastFullSync m
  /\ lastIncrementalSync (files_assign key e m) = lastIncrementalSync m
  /\ totalFiles (files_assign key e m) = totalFiles m
  /\ totalSize (files_assign key e m) = totalSize m.
Proof. unfold files_assign. now destruct (_ && _). Qed.



Section Sync.

Variable rt : Runtime.
Variable cfg : Config.
Variable env : Env.
Variable file : FileInfo.

(** The iteration for a file whose download fails. *)
Lemma syncFile_failure (s s1 : State) :
  downloadFile rt cfg env (href file) (path_join rt (backupDir cfg) (relativePath file)) s = (Returns false, s1) ->
  let error := "Failed to download: " +:+ relativePath file in
  syncFile rt cfg env file s =
  (Returns tt,
   with_stats (push_error error (stats s))
     (snd (log rt cfg error ERROR s1))).
Proof.
  intros Hd error. unfold syncFile. unfold bind at 1. rewrite Hd.
  destruct (downloadFile_same_objects rt cfg env (href file) (path_join rt (backupDir cfg) (relativePath file)) s)
    as (_ & Hst & _).
  rewrite Hd in Hst. cbn [snd] in Hst. fold error.
  unfold bind, log, now_iso, bind, tick, ret, appendFileSync, set_stats, update.
  cbn. now rewrite Hst.
Qed.

(** The iteration for a file whose download succeeds. *)
Lemma syncFile_success (s s1 : State) :
  downloadFile rt cfg env (href file) (path_join rt (backupDir cfg) (relativePath file)) s = (Returns true, s1) ->
  syncFile rt cfg env file s =
  (Returns tt,
   with_manifest
     (files_assign (relativePath file)
        (entry_of file (toISOString rt (clock s1))) (manifest s))
     (with_clock (S (clock s1))
        (with_stats (count_download (size file) (stats s)) s1))).
Proof.
  intros Hd. unfold syncFile. unfold bind at 1. rewrite Hd.
  destruct (downloadFile_same_objects rt cfg env (href file) (path_join rt (backupDir cfg) (relativePath file)) s)
    as (Hm & Hst & _).
  rewrite Hd in Hm, Hst. cbn [snd] in Hm, Hst.
  unfold bind, now_iso, bind, tick, ret, set_stats, set_manifest_entry, update.
  cbn. rewrite Hst, Hm. reflexivity.
Qed.

End Sync.







(** ** Triples *)

Section Hoare.

Context {A B : Type}.

Lemma hoare_bind (P : State -> Prop) (Mid : A -> State -> Prop)
    (Q : B -> State -> Prop) (E : State -> Prop) (m : M A) (k : A -> M B) :
  hoare P m Mid E -> (forall a, hoare (Mid a) (k a) Q E) ->
  hoare P (bind m k) Q E.
Proof.
  intros Hm Hk s HP. specialize (Hm s HP). unfold bind.
  destruct (m s) as [[a|e|e|c| | |] s1]; cbn [fst snd] in *; try assumption.
  apply (Hk a s1 Hm).
Qed.

Lemma hoare_consequence (P P' : State -> Prop) (Q Q' : A -> State -> Prop)
    (E E' : State -> Prop) (m : M A) :
  hoare P' m Q' E' ->
  (forall s, P s -> P' s) -> (forall a s, Q' a s -> Q a s) ->
  (forall s, E' s -> E s) ->
  hoare P m Q E.
Proof.
  intros Hm HP HQ HE s Hs. specialize (Hm s (HP s Hs)).
  destruct (fst (m s)); auto.
Qed.

(** A step that keeps an invariant. *)
Lemma hoare_preserved (I : State -> Prop) (E : State -> Prop) (m : M A) :
  keeps (preserved I) m -> (forall s, I s -> E s) ->
  hoare I m (fun _ => I) E.
Proof.
  intros Hm HE s Hs. specialize (Hm s Hs). destruct (fst (m s)); auto.
Qed.

Lemma hoare_ret (P : State -> Prop) (E : State -> Prop) (a : A) :
  hoare P (ret a) (fun _ => P) E.
Proof. intros s Hs. exact Hs. Qed.

Lemma hoare_get (P : State -> Prop) (E : State -> Prop) (proj : State -> A) :
  hoare P (get proj) (fun a s => P s /\ proj s = a) E.
Proof. intros s Hs. cbn. now split. Qed.

End Hoare.

Lemma hoare_update (P Q : State -> Prop) (E : State -> Prop) (f : State -> State) :
  (forall s, P s -> Q (f s)) -> hoare P (update f) (fun _ => Q) E.
Proof. intros H s Hs. cbn. now apply H. Qed.

Lemma hoare_exit {A} (P E : State -> Prop) (Q : A -> State -> Prop) (c : Z) :
  (forall s, P s -> E s) -> hoare P (exit c) Q E.
Proof. intros H s Hs. cbn. now apply H. Qed.

Lemma preserved_bookkeeping (I : State -> Prop) :
  (forall s n, I s -> I (with_clock n s)) ->
  (forall s n, I s -> I (with_draws n s)) ->
  (forall s l, I s -> I (with_sent l s)) ->
  Bookkeeping (preserved I).
Proof.
  intros Hc Hd Hs. split; unfold preserved; auto.
Qed.

(** ** Manifest entries are never dropped *)

Lemma json_entry_idempotent (e : ManifestEntry) :
  json_entry (json_entry e) = json_entry e.
Proof. destruct e as [rp sz lm [z| |] sa h]; reflexivity. Qed.

Lemma entries_survive_refl (m0 : Manifest) (toSync : list FileInfo) :
  entries_survive m0 m0 toSync.
Proof. intros key e He. now exists e. Qed.

Lemma entries_survive_json (m0 m : Manifest) (toSync : list FileInfo) :
  entries_survive m0 m toSync -> entries_survive m0 (json_roundtrip m) toSync.
Proof.
  intros H key e He. destruct (H key e He) as (e' & He' & Hstale).
  exists (json_entry e'). split.
  - cbn. now rewrite lookup_fmap, He'.
  - intros Hno. rewrite json_entry_idempotent. now apply Hstale.
Qed.

Lemma ledger_kept_bookkeeping (cfg : Config) : Bookkeeping (ledger_kept cfg).
Proof.
  split.
  - intros s. now repeat split.
  - intros a b c (H1 & H2 & H3) (H4 & H5 & H6). repeat split; congruence.
  - intros s n. now repeat split.
  - intros s n. now repeat split.
  - intros s l. now repeat split.
Qed.

Lemma manifests_kept_bookkeeping (cfg : Config) : Bookkeeping (manifests_kept cfg).
Proof.
  split.
  - intros s. now repeat split.
  - intros a b c (H1 & H2) (H4 & H5). repeat split; congruence.
  - intros s n. now repeat split.
  - intros s n. now repeat split.
  - intros s l. now repeat split.
Qed.

Lemma ledger_kept_write (cfg : Config) (s : State) (p : string) (d : FileData) :
  p <> manifestFile cfg ->
  ledger_kept cfg s (with_disk_files (<[p := d]> (disk_files s)) s).
Proof. intros Hp. repeat split. cbn. now apply lookup_insert_ne. Qed.

Lemma manifest_on_disk_kept (cfg : Config) (s s' : State) :
  disk_files s' !! manifestFile cfg = disk_files s !! manifestFile cfg ->
  manifest_on_disk cfg s' = manifest_on_disk cfg s.
Proof. unfold manifest_on_disk. now intros ->. Qed.

(** The stages are stable under steps that keep the ledger. *)
Lemma keeps_weaken (R R' : State -> State -> Prop) {A} (m : M A) :
  (forall s s', R s s' -> R' s s') -> keeps R m -> keeps R' m.
Proof. intros H Hm s. apply H, Hm. Qed.

Lemma persisted_stable (cfg : Config) (m0 : Manifest) (s s' : State) :
  ledger_kept cfg s s' -> preserved (persisted cfg m0) s s'.
Proof.
  intros (Hd & _ & Hl) (m' & Hm' & Hs). exists m'.
  rewrite (manifest_on_disk_kept cfg s s' Hd), Hl. now split.
Qed.

Lemma loaded_stable (cfg : Config) (m0 : Manifest) (s s' : State) :
  manifests_kept cfg s s' -> preserved (loaded cfg m0) s s'.
Proof.
  intros (Hd & Hm) (Hdisk & Hmem). split.
  - now rewrite (manifest_on_disk_kept cfg s s' Hd).
  - congruence.
Qed.

Lemma syncing_from_stable (cfg : Config) (m0 : Manifest) (toSync : list FileInfo)
    (s s' : State) :
  ledger_kept cfg s s' -> preserved (syncing_from cfg m0 toSync) s s'.
Proof.
  intros (Hd & Hm & Hl) (Hdisk & Hlist & Hs). repeat split.
  - now rewrite (manifest_on_disk_kept cfg s s' Hd).
  - congruence.
  - now rewrite Hm.
Qed.

Lemma loaded_persisted (cfg : Config) (m0 : Manifest) (s : State) :
  manifest_on_disk cfg s = Some m0 -> persisted cfg m0 s.
Proof. intros H. exists m0. split; [assumption | apply entries_survive_refl]. Qed.

Section Ledger.

Variable rt : Runtime.
Variable cfg : Config.
Variable env : Env.
Variable m0 : Manifest.

(** The manifest file is not the log, nor a report, nor the destination
    of the download of a file of the list [toSync0]. *)
Hypothesis Hlog : logFile cfg <> manifestFile cfg.
Hypothesis Hreport :
  forall n, reportFile (toISOString rt n) <> manifestFile cfg.
Variable toSync0 : list FileInfo.
Hypothesis Hdest :
  forall f, f ∈ toSync0 ->
    path_join rt (backupDir cfg) (relativePath f) <> manifestFile cfg.


Lemma on_disk_stable (s s' : State) :
  ledger_kept cfg s s' -> preserved (on_disk cfg m0) s s'.
Proof.
  intros (Hd & _) H. unfold on_disk in *.
  now rewrite (manifest_on_disk_kept cfg s s' Hd).
Qed.

Lemma ledger_log (message level : string) :
  keeps (ledger_kept cfg) (log rt cfg message level).
Proof.
  apply keeps_log; [apply ledger_kept_bookkeeping|].
  intros s d. now apply ledger_kept_write.
Qed.

Lemma ledger_ensure_dir (dir : string) : keeps (ledger_kept cfg) (ensure_dir dir).
Proof.
  unfold ensure_dir.
  apply keeps_bind; [apply ledger_kept_bookkeeping | |].
  - apply keeps_get, ledger_kept_bookkeeping.
  - intros [|]; [apply keeps_ret, ledger_kept_bookkeeping|].
    apply keeps_update. intros s. now repeat split.
Qed.

Lemma ledger_set_stats (f : SyncStats -> SyncStats) :
  keeps (ledger_kept cfg) (set_stats f).
Proof. apply keeps_update. intros s. now repeat split. Qed.

Lemma ledger_downloadFile (fileUrl : string) (file : FileInfo) :
  file ∈ toSync0 ->
  keeps (ledger_kept cfg)
    (downloadFile rt cfg env fileUrl
       (path_join rt (backupDir cfg) (relativePath file))).
Proof.
  intros Hin. apply keeps_downloadFile.
  - apply ledger_kept_bookkeeping.
  - intros s d. now apply ledger_kept_write, Hdest.
  - intros s d. now repeat split.
Qed.

(** With [m0] on disk, [loadManifest] returns [m0] and changes nothing. *)
Lemma loadManifest_reads (s : State) :
  (on_disk cfg m0) s -> loadManifest rt cfg s = (Returns m0, s).
Proof.
  unfold on_disk, manifest_on_disk. intros H.
  destruct (disk_files s !! manifestFile cfg) as [d|] eqn:Hd; [|discriminate].
  cbn in H. unfold loadManifest, bind, existsSync, get. cbn [fst snd].
  rewrite Hd, bool_decide_eq_true_2 by eauto. cbn. rewrite Hd. cbn.
  now rewrite H.
Qed.

Ltac ledger_step I :=
  apply hoare_bind with (Mid := fun _ => I);
  [ apply hoare_preserved;
    [ eapply keeps_weaken; [ | ] | ]
  | intros ? ].

Lemma on_disk_persisted (s : State) : (on_disk cfg m0) s -> (persisted cfg m0) s.
Proof. apply loaded_persisted. Qed.

Lemma init_loads :
  hoare (on_disk cfg m0) (init rt cfg) (fun _ => loaded cfg m0) (persisted cfg m0).
Proof.
  unfold init.
  ledger_step (on_disk cfg m0);
    [apply on_disk_stable | apply keeps_now_ms, ledger_kept_bookkeeping
    | apply on_disk_persisted |].
  ledger_step (on_disk cfg m0);
    [apply on_disk_stable | apply keeps_now_iso, ledger_kept_bookkeeping
    | apply on_disk_persisted |].
  ledger_step (on_disk cfg m0);
    [apply on_disk_stable | apply keeps_update; intros s; now repeat split
    | apply on_disk_persisted |].
  do 3 (ledger_step (on_disk cfg m0);
    [apply on_disk_stable | apply ledger_log | apply on_disk_persisted |]).
  ledger_step (on_disk cfg m0);
    [apply on_disk_stable | apply ledger_ensure_dir | apply on_disk_persisted |].
  apply hoare_bind with (Mid := fun m s => (on_disk cfg m0) s /\ m = m0).
  { intros s Hs. rewrite (loadManifest_reads s Hs). cbn. now split. }
  intros m. apply hoare_bind with (Mid := fun _ => loaded cfg m0).
  { apply hoare_update. intros s [Hs ->]. now split. }
  intros _. apply hoare_bind with (Mid := fun _ => loaded cfg m0).
  { apply hoare_preserved.
    - eapply keeps_weaken; [|apply ledger_log].
      intros s s' (Hd & Hm & _). apply loaded_stable. now split.
    - intros s [Hs _]. now apply on_disk_persisted. }
  intros _. apply hoare_ret.
Qed.

Lemma scanning_keeps_manifests (fuel : nat) :
  keeps (manifests_kept cfg) (scanning rt cfg env fuel).
Proof.
  pose proof (manifests_kept_bookkeeping cfg) as HB.
  assert (Hlogs : forall message level,
             keeps (manifests_kept cfg) (log rt cfg message level)).
  { intros message level. eapply keeps_weaken; [|apply ledger_log].
    intros s s' (Hd & Hm & _). now split. }
  unfold scanning.
  apply keeps_bind; [assumption | apply Hlogs |]. intros _.
  apply keeps_bind; [assumption | apply keeps_update; intros s; now split |].
  intros _. apply keeps_bind; [assumption | |].
  { apply keeps_scanFolder; try assumption.
    - intros s d. split; [|reflexivity]. cbn. now apply lookup_insert_ne.
    - intros s. now split.
    - intros s e. now split.
    - intros item s. rewrite scanFile_run. cbn [snd].
      destruct (if fullSync cfg then new else needsSync item (manifest s));
        now split. }
  intros _. apply keeps_bind; [assumption | now apply keeps_get |]. intros st.
  apply Hlogs.
Qed.

Lemma scanning_loaded (fuel : nat) :
  hoare (loaded cfg m0) (scanning rt cfg env fuel) (fun _ => loaded cfg m0) (persisted cfg m0).
Proof.
  apply hoare_preserved.
  - eapply keeps_weaken; [|apply scanning_keeps_manifests]. apply loaded_stable.
  - intros s [Hs _]. now apply on_disk_persisted.
Qed.

Lemma syncing_from_bookkeeping (toSync : list FileInfo) :
  Bookkeeping (preserved (syncing_from cfg m0 toSync)).
Proof. apply preserved_bookkeeping; intros s x H; exact H. Qed.

Lemma persisted_bookkeeping : Bookkeeping (preserved (persisted cfg m0)).
Proof. apply preserved_bookkeeping; intros s x H; exact H. Qed.

Lemma syncing_from_persisted (toSync : list FileInfo) (s : State) :
  syncing_from cfg m0 toSync s -> (persisted cfg m0) s.
Proof. intros (Hs & _). now apply on_disk_persisted. Qed.

(** Writing the entry of a file of the list keeps the entries of [m0]. *)
Lemma set_manifest_entry_survive (toSync : list FileInfo) (file : FileInfo)
    (e : ManifestEntry) :
  file ∈ toSync ->
  keeps (preserved (syncing_from cfg m0 toSync))
        (set_manifest_entry (relativePath file) e).
Proof.
  intros Hin. apply keeps_update. intros s (Hdisk & Hlist & Hs).
  repeat split; try assumption. intros key e0 He0. cbn.
  destruct (files_assign_cases (relativePath file) e (manifest s))
    as [[-> _] | (_ & -> & _)]; [|now apply Hs].
  destruct (decide (relativePath file = key)) as [<-|Hne].
  - exists e. split; [apply lookup_insert_eq|].
    intros Hno. now destruct (Hno file Hin).
  - rewrite lookup_insert_ne by assumption. now apply Hs.
Qed.

Lemma syncFile_survive (file : FileInfo) :
  file ∈ toSync0 ->
  keeps (preserved (syncing_from cfg m0 toSync0)) (syncFile rt cfg env file).
Proof.
  intros Hin. pose proof (syncing_from_bookkeeping toSync0) as HB.
  assert (Hk : forall A (m : M A), keeps (ledger_kept cfg) m ->
                 keeps (preserved (syncing_from cfg m0 toSync0)) m).
  { intros A m. apply keeps_weaken, syncing_from_stable. }
  unfold syncFile.
  apply keeps_bind; [assumption | now apply Hk, ledger_downloadFile |].
  intros [|].
  - apply keeps_bind; [assumption | apply Hk, ledger_set_stats |]. intros _.
    apply keeps_bind; [assumption | now apply keeps_now_iso |]. intros ts.
    now apply set_manifest_entry_survive.
  - apply keeps_bind; [assumption | apply Hk, ledger_log |]. intros _.
    apply Hk, ledger_set_stats.
Qed.

Lemma syncing_survive :
  hoare (fun s => loaded cfg m0 s /\ filesToSync s = toSync0)
    (syncing rt cfg env)
    (fun _ => syncing_from cfg m0 toSync0) (persisted cfg m0).
Proof.
  unfold syncing.
  apply hoare_bind with
    (Mid := fun l s => syncing_from cfg m0 toSync0 s /\ l = toSync0).
  { intros s [[Hdisk Hmem] Hl]. cbn. repeat split; try assumption.
    rewrite Hmem. apply entries_survive_refl. }
  intros toSync s [Hs ->]. revert s Hs.
  apply hoare_preserved; [|apply syncing_from_persisted].
  pose proof (syncing_from_bookkeeping toSync0) as HB.
  assert (Hlogs : forall message level,
             keeps (preserved (syncing_from cfg m0 toSync0))
                   (log rt cfg message level)).
  { intros message level. eapply keeps_weaken; [|apply ledger_log].
    apply syncing_from_stable. }
  destruct (0 <? length toSync0)%nat; [|apply Hlogs].
  apply keeps_bind; [assumption | apply Hlogs |]. intros _.
  apply keeps_for_each; [assumption|]. intros file Hin.
  now apply syncFile_survive.
Qed.

Lemma saveManifest_persists (toSync : list FileInfo) (m : Manifest) :
  hoare (fun s => syncing_from cfg m0 toSync s /\ manifest s = m)
        (saveManifest cfg m) (fun _ => persisted cfg m0)
    (persisted cfg m0).
Proof.
  unfold saveManifest. destruct (dryRun cfg); cbn [negb].
  - intros s [Hs _]. cbn. now apply (syncing_from_persisted toSync).
  - intros s [(Hdisk & Hlist & Hs) Hm]. cbn.
    exists (json_roundtrip m). split.
    + unfold manifest_on_disk. cbn. now rewrite lookup_insert_eq.
    + cbn. rewrite Hlist, <- Hm. now apply entries_survive_json.
Qed.

Lemma finalizing_persists (toSync : list FileInfo) (startTime : Z) :
  hoare (syncing_from cfg m0 toSync) (finalizing rt cfg startTime)
        (fun _ => persisted cfg m0)
    (persisted cfg m0).
Proof.
  pose proof persisted_bookkeeping as HB.
  assert (Hk : forall A (m : M A), keeps (ledger_kept cfg) m ->
                 hoare (persisted cfg m0) m (fun _ => persisted cfg m0)
    (persisted cfg m0)).
  { intros A m Hm. apply hoare_preserved; [|auto].
    eapply keeps_weaken; [|exact Hm]. apply persisted_stable. }
  unfold finalizing.
  apply hoare_bind with (Mid := fun _ => syncing_from cfg m0 toSync).
  { apply hoare_preserved; [|apply syncing_from_persisted].
    apply keeps_now_iso, syncing_from_bookkeeping. }
  intros stamp.
  apply hoare_bind with (Mid := fun _ => syncing_from cfg m0 toSync).
  { apply hoare_update. intros s (Hdisk & Hlist & Hs). repeat split; try assumption.
    intros key e He. cbn. unfold finalize_manifest.
    destruct (fullSync cfg); cbn; now apply Hs. }
  intros _.
  apply hoare_bind with
    (Mid := fun m s => syncing_from cfg m0 toSync s /\ manifest s = m).
  { apply hoare_get. }
  intros m. apply hoare_bind with (Mid := fun _ => (persisted cfg m0)).
  { apply saveManifest_persists. }
  intros _. apply hoare_bind with (Mid := fun _ => (persisted cfg m0)).
  { apply Hk, keeps_now_ms, ledger_kept_bookkeeping. }
  intros endTime. apply hoare_bind with (Mid := fun _ => (persisted cfg m0)).
  { apply Hk, ledger_set_stats. }
  intros _. apply hoare_bind with (Mid := fun _ => (persisted cfg m0)).
  { apply Hk, keeps_get, ledger_kept_bookkeeping. }
  intros st.
  apply hoare_bind with
    (Mid := fun day s => persisted cfg m0 s /\ exists n, day = toISOString rt n).
  { intros s Hs.
    pose proof (Hk _ (now_iso rt)
                  (keeps_now_iso _ (ledger_kept_bookkeeping cfg) rt) s Hs) as H.
    unfold now_iso, bind, tick, ret in *. cbn [fst snd] in *.
    split; [exact H | now exists (clock s)]. }
  intros day. apply hoare_bind with (Mid := fun _ => (persisted cfg m0)).
  { intros s [Hs [n ->]]. revert s Hs. apply Hk. destruct (negb (dryRun cfg)).
    - apply keeps_update. intros s. apply ledger_kept_write, Hreport.
    - apply keeps_ret, ledger_kept_bookkeeping. }
  intros _. apply hoare_bind with (Mid := fun _ => (persisted cfg m0)).
  { apply Hk, ledger_log. }
  intros _. destruct (0 <? length (errors st))%nat.
  - apply hoare_exit. auto.
  - apply hoare_ret.
Qed.

(** The two last phases, when the to-sync list is [toSync0]. *)
Lemma tail_persists (startTime : Z) :
  hoare (fun s => loaded cfg m0 s /\ filesToSync s = toSync0)
    (syncing rt cfg env ;; finalizing rt cfg startTime)
    (fun _ => persisted cfg m0) (persisted cfg m0).
Proof.
  apply hoare_bind with (Mid := fun _ => syncing_from cfg m0 toSync0);
    [apply syncing_survive|].
  intros _. apply finalizing_persists.
Qed.

(** The handler of [main().catch]. *)
Lemma fatal_persists (e : string) (s : State) :
  persisted cfg m0 s ->
  persisted cfg m0
    (snd ((log rt cfg ("Fatal error: " +:+ e) ERROR ;; @exit unit 1) s)).
Proof.
  assert (Hk : keeps (preserved (persisted cfg m0))
                 (log rt cfg ("Fatal error: " +:+ e) ERROR ;; @exit unit 1)).
  { apply keeps_bind; [apply persisted_bookkeeping | |].
    - eapply keeps_weaken; [|apply ledger_log]. apply persisted_stable.
    - intros _. apply keeps_exit, persisted_bookkeeping. }
  apply Hk.
Qed.

End Ledger.

(** *** The to-sync list after the scan *)

Lemma same_queue_bookkeeping : Bookkeeping same_queue.
Proof.
  split; try (intros; reflexivity).
  intros a b c H1 H2. unfold same_queue in *. congruence.
Qed.

Lemma same_queue_log (rt : Runtime) (cfg : Config) (message level : string) :
  keeps same_queue (log rt cfg message level).
Proof. apply keeps_log; [apply same_queue_bookkeeping|]. now intros s d. Qed.

Lemma same_queue_syncing (rt : Runtime) (cfg : Config) (env : Env) :
  keeps same_queue (syncing rt cfg env).
Proof.
  pose proof same_queue_bookkeeping as HB. unfold syncing.
  apply keeps_bind; [assumption | now apply keeps_get |]. intros toSync.
  destruct (0 <? length toSync)%nat; [|apply same_queue_log].
  apply keeps_bind; [assumption | apply same_queue_log |]. intros _.
  apply keeps_for_each; [assumption|]. intros file _. unfold syncFile.
  apply keeps_bind; [assumption | |].
  { apply keeps_downloadFile; [assumption | now intros s d..]. }
  intros [|].
  - apply keeps_bind; [assumption | apply keeps_update; now intros s |].
    intros _. apply keeps_bind; [assumption | now apply keeps_now_iso |].
    intros ts. apply keeps_update. now intros s.
  - apply keeps_bind; [assumption | apply same_queue_log |]. intros _.
    apply keeps_update. now intros s.
Qed.

Lemma same_queue_finalizing (rt : Runtime) (cfg : Config) (startTime : Z) :
  keeps same_queue (finalizing rt cfg startTime).
Proof.
  pose proof same_queue_bookkeeping as HB. unfold finalizing, saveManifest.
  apply keeps_bind; [assumption | now apply keeps_now_iso |]. intros stamp.
  apply keeps_bind; [assumption | apply keeps_update; now intros s |].
  intros _. apply keeps_bind; [assumption | now apply keeps_get |]. intros m.
  apply keeps_bind; [assumption | |].
  { destruct (negb (dryRun cfg));
      [apply keeps_update; now intros s | now apply keeps_ret]. }
  intros _. apply keeps_bind; [assumption | now apply keeps_now_ms |].
  intros t1. apply keeps_bind; [assumption | apply keeps_update; now intros s |].
  intros _. apply keeps_bind; [assumption | now apply keeps_get |]. intros st.
  apply keeps_bind; [assumption | now apply keeps_now_iso |]. intros day.
  apply keeps_bind; [assumption | |].
  { destruct (negb (dryRun cfg));
      [apply keeps_update; now intros s | now apply keeps_ret]. }
  intros _. apply keeps_bind; [assumption | apply same_queue_log |]. intros _.
  destruct (0 <? length (errors st))%nat; [now apply keeps_exit | now apply keeps_ret].
Qed.

Lemma same_queue_tail (rt : Runtime) (cfg : Config) (env : Env) (startTime : Z) :
  keeps same_queue (syncing rt cfg env ;; finalizing rt cfg startTime).
Proof.
  apply keeps_bind; [apply same_queue_bookkeeping | apply same_queue_syncing |].
  intros _. apply same_queue_finalizing.
Qed.

Lemma same_queue_fatal (rt : Runtime) (cfg : Config) (e : string) :
  keeps same_queue (log rt cfg ("Fatal error: " +:+ e) ERROR ;; @exit unit 1).
Proof.
  apply keeps_bind; [apply same_queue_bookkeeping | apply same_queue_log |].
  intros _. apply keeps_exit, same_queue_bookkeeping.
Qed.

(** *** The manifest on disk after a run *)

(** A property of the state in which [bind m k] ends. *)
Lemma bind_final {A B} (P : State -> Prop) (m : M A) (k : A -> M B) (s : State) :
  (forall a s1, m s = (Returns a, s1) -> P (snd (k a s1))) ->
  ((forall a, fst (m s) <> Returns a) -> P (snd (m s))) ->
  P (snd (bind m k s)).
Proof.
  intros Hk Hm. unfold bind.
  destruct (m s) as [[a|e|e|c| | |] s1]; cbn [fst snd] in *;
    [now apply Hk | apply Hm; discriminate ..].
Qed.

Section Persistence.

Variable rt : Runtime.
Variable cfg : Config.
Variable env : Env.
Variable m0 : Manifest.
Hypothesis Hlog : logFile cfg <> manifestFile cfg.
Hypothesis Hreport :
  forall n, reportFile (toISOString rt n) <> manifestFile cfg.

Lemma main_persists (fuel : nat) (s : State) :
  on_disk cfg m0 s ->
  clear_of_downloads rt cfg (snd (main rt cfg env fuel s)) ->
  persisted cfg m0 (snd (main rt cfg env fuel s)).
Proof.
  intros Hs. unfold main. destruct (String.eqb (password cfg) "").
  { intros _. now apply on_disk_persisted. }
  pose proof (init_loads rt cfg m0 Hlog s Hs) as Hinit.
  apply (bind_final (fun s' => clear_of_downloads rt cfg s' -> persisted cfg m0 s')).
  2: { intros Hnot _. destruct (fst (init rt cfg s)) as [t0| | | | | |];
         try assumption. now destruct (Hnot t0). }
  intros t0 sa Hrun. rewrite Hrun in Hinit. cbn [fst snd] in Hinit.
  pose proof (scanning_loaded rt cfg env m0 Hlog fuel sa Hinit) as Hscan.
  apply (bind_final (fun s' => clear_of_downloads rt cfg s' -> persisted cfg m0 s')).
  2: { intros Hnot _. destruct (fst (scanning rt cfg env fuel sa)) as [[]| | | | | |];
         try assumption. now destruct (Hnot tt). }
  intros [] sb Hrun'. rewrite Hrun' in Hscan. cbn [fst snd] in Hscan.
  pose proof (same_queue_tail rt cfg env t0 sb) as Hq. unfold same_queue in Hq.
  intros Hclear.
  assert (Hdest : forall f, f ∈ filesToSync sb ->
            path_join rt (backupDir cfg) (relativePath f) <> manifestFile cfg).
  { intros f Hf. apply Hclear. now rewrite Hq. }
  pose proof (tail_persists rt cfg env m0 Hlog Hreport (filesToSync sb) Hdest
                t0 sb (conj Hscan eq_refl)) as Htail.
  destruct (fst _); assumption.
Qed.

(** However the run ends, the manifest on disk holds the entries it held
    at the start; those of files that are not in the to-sync list are as
    they were. *)
Lemma program_persists (fuel : nat) (s : State) :
  on_disk cfg m0 s ->
  clear_of_downloads rt cfg (snd (program rt cfg env fuel s)) ->
  persisted cfg m0 (snd (program rt cfg env fuel s)).
Proof.
  intros Hs. pose proof (main_persists fuel s Hs) as Hmain.
  unfold program, try_catch.
  destruct (main rt cfg env fuel s) as [[a|e|e|c| | |] s1]; cbn [fst snd] in *;
    try assumption.
  intros Hclear. apply (fatal_persists rt cfg m0 Hlog), Hmain.
  intros f Hf. apply Hclear.
  pose proof (same_queue_fatal rt cfg e s1) as Hq. unfold same_queue in Hq.
  now rewrite Hq.
Qed.

End Persistence.

(** ** Full sync *)

Lemma scan_all_new_bookkeeping : Bookkeeping scan_all_new.
Proof.
  assert (Hsame : forall s s', manifest s' = manifest s ->
            filesToSync s' = filesToSync s ->
            filesFound (stats s') = filesFound (stats s) ->
            filesNew (stats s') = filesNew (stats s) ->
            filesModified (stats s') = filesModified (stats s) ->
            filesUnchanged (stats s') = filesUnchanged (stats s) ->
            scan_all_new s s').
  { intros s s' Hm Hl H1 H2 H3 H4. split; [assumption|]. exists [].
    rewrite app_nil_r. cbn. repeat split; try assumption; lia. }
  split; try (intros; now apply Hsame).
  intros a b c (Hm1 & l1 & Hl1 & Hf1 & Hn1 & Hmo1 & Hu1)
    (Hm2 & l2 & Hl2 & Hf2 & Hn2 & Hmo2 & Hu2).
  split; [congruence|]. exists (l1 ++ l2)%list.
  rewrite Hl2, Hl1, app_assoc, length_app. repeat split; try congruence; lia.
Qed.

Lemma scanFolder_all_new (rt : Runtime) (cfg : Config) (env : Env)
    (fuel : nat) (folderPath : string) :
  fullSync cfg = true ->
  keeps scan_all_new (scanFolder rt cfg env fuel folderPath).
Proof.
  intros Hfull.
  assert (Hsame : forall s s', manifest s' = manifest s ->
            filesToSync s' = filesToSync s ->
            filesFound (stats s') = filesFound (stats s) ->
            filesNew (stats s') = filesNew (stats s) ->
            filesModified (stats s') = filesModified (stats s) ->
            filesUnchanged (stats s') = filesUnchanged (stats s) ->
            scan_all_new s s').
  { intros s s' Hm Hl H1 H2 H3 H4. split; [assumption|]. exists [].
    rewrite app_nil_r. cbn. repeat split; try assumption; lia. }
  apply keeps_scanFolder.
  - apply scan_all_new_bookkeeping.
  - intros s d. now apply Hsame.
  - intros s. now apply Hsame.
  - intros s e. now apply Hsame.
  - intros item s. rewrite scanFile_run, Hfull. cbn [snd].
    split; [reflexivity|]. exists [item]. cbn. repeat split; lia.
Qed.

(** ** Two runs in a row *)

(** *** Calls that return *)

Lemma bind_returns {A B} (m : M A) (k : A -> M B) (s s' : State) (b : B) :
  bind m k s = (Returns b, s') ->
  exists a s0, m s = (Returns a, s0) /\ k a s0 = (Returns b, s').
Proof.
  unfold bind. destruct (m s) as [[a|e|e|c| | |] s0]; try discriminate.
  intros H. now exists a, s0.
Qed.

Lemma try_catch_returns {A} (m : M A) (h : string -> M A) (s s' : State) (a : A) :
  try_catch m h s = (Returns a, s') ->
  m s = (Returns a, s')
  \/ exists e s0, m s = (Throws e, s0) /\ h e s0 = (Returns a, s').
Proof.
  unfold try_catch. destruct (m s) as [[x|e|e|c| | |] s0]; try discriminate.
  - intros H. now left.
  - intros H. right. now exists e, s0.
Qed.

Lemma for_each_cons_returns {A} (x : A) (l : list A) (f : A -> M unit)
    (s s' : State) :
  for_each (x :: l) f s = (Returns tt, s') ->
  exists s0, f x s = (Returns tt, s0) /\ for_each l f s0 = (Returns tt, s').
Proof.
  cbn [for_each]. intros H. apply bind_returns in H as ([] & s0 & H1 & H2).
  now exists s0.
Qed.

Lemma log_returns (rt : Runtime) (cfg : Config) (message level : string) (s : State) :
  exists s', log rt cfg message level s = (Returns tt, s')
             /\ same_objects s s'.
Proof.
  unfold log, bind, now_iso, bind, tick, ret, appendFileSync, update.
  eexists. split; [reflexivity|]. now repeat split.
Qed.

(** A scan never ends with an exception that can be caught: it catches
    those of the listing itself. *)
Lemma scanFolder_does_not_throw (rt : Runtime) (cfg : Config) (env : Env)
    (fuel : nat) (folderPath : string) (s : State) (e : string) :
  fst (scanFolder rt cfg env fuel folderPath s) <> Throws e.
Proof.
  destruct fuel as [|fuel]; cbn [scanFolder]; [discriminate|].
  unfold bind at 1. cbn [set_stats update fst snd]. unfold try_catch.
  destruct (bind (propfind rt cfg env folderPath) _ _) as [[[]|e'|e'|c| | |] s1];
    discriminate.
Qed.

Lemma bind_throws {A B} (m : M A) (k : A -> M B) (s s' : State) (e : string) :
  bind m k s = (Throws e, s') ->
  m s = (Throws e, s')
  \/ exists a s0, m s = (Returns a, s0) /\ k a s0 = (Throws e, s').
Proof.
  unfold bind. destruct (m s) as [[a|e'|e'|c| | |] s0]; try discriminate.
  - intros H. right. exists a, s0. split; [reflexivity | exact H].
  - intros H. left. now injection H as -> ->.
Qed.

Lemma for_each_does_not_throw {A} (l : list A) (f : A -> M unit) :
  (forall x s e, fst (f x s) <> Throws e) ->
  forall s e, fst (for_each l f s) <> Throws e.
Proof.
  intros Hf. induction l as [|x l IH]; intros s e; cbn [for_each]; [discriminate|].
  unfold bind. specialize (Hf x s).
  destruct (f x s) as [[[]|e'|e'|c| | |] s0]; cbn [fst] in *; try discriminate.
  - apply IH.
  - intros H. now apply (Hf e').
Qed.

(** *** What a scan that returned has met *)

Lemma scanned_same (P : FileInfo -> Prop) (s s' : State) :
  (forall f, ~ P f) ->
  manifest s' = manifest s -> filesToSync s' = filesToSync s ->
  scanned P s s'.
Proof.
  intros HP Hm Hl. split; [assumption|]. exists []. rewrite app_nil_r.
  repeat split; try assumption.
  - intros f Hf. now destruct (HP f).
  - intros f Hf. inversion Hf.
Qed.

Lemma scanned_trans (P Q : FileInfo -> Prop) (a b c : State) :
  scanned P a b -> scanned Q b c -> scanned (fun f => P f \/ Q f) a c.
Proof.
  intros (Hm1 & l1 & Hl1 & Hc1 & Hs1) (Hm2 & l2 & Hl2 & Hc2 & Hs2).
  split; [congruence|]. exists (l1 ++ l2)%list. repeat split.
  - now rewrite Hl2, Hl1, app_assoc.
  - intros f [Hf|Hf].
    + destruct (Hc1 f Hf) as [Hin|Hun]; [left | now right].
      apply elem_of_app. now left.
    + destruct (Hc2 f Hf) as [Hin|Hun]; [left | right; now rewrite <- Hm1].
      apply elem_of_app. now right.
  - intros f Hf. apply elem_of_app in Hf as [Hf|Hf]; [left | right]; auto.
Qed.

Lemma scanned_iff (P Q : FileInfo -> Prop) (s s' : State) :
  (forall f, P f <-> Q f) -> scanned P s s' -> scanned Q s s'.
Proof.
  intros HPQ (Hm & l & Hl & Hc & Hs). split; [assumption|]. exists l.
  repeat split; try assumption.
  - intros f Hf. apply Hc, HPQ, Hf.
  - intros f Hf. apply HPQ, Hs, Hf.
Qed.

Lemma scanned_from (P : FileInfo -> Prop) (s0 s s' : State) :
  manifest s = manifest s0 -> filesToSync s = filesToSync s0 ->
  scanned P s s' -> scanned P s0 s'.
Proof.
  intros Hm0 Hl0 (Hm & l & Hl & Hc & Hs). split; [congruence|]. exists l.
  repeat split; try assumption; [congruence|].
  intros f Hf. rewrite <- Hm0. now apply Hc.
Qed.

Lemma scanFile_scanned (cfg : Config) (item : FileInfo) (s : State) :
  fullSync cfg = false ->
  scanned (fun f => f = item) s (snd (scanFile cfg item s)).
Proof.
  intros Hinc. rewrite scanFile_run, Hinc. cbn [snd].
  destruct (needsSync item (manifest s)) eqn:Hst.
  1, 2: split; [reflexivity|]; exists [item]; repeat split;
    [ intros f ->; left; apply list_elem_of_here
    | intros f Hf; now apply list_elem_of_singleton in Hf ].
  split; [reflexivity|]. exists []. cbn. rewrite app_nil_r. repeat split.
  - intros f ->. now right.
  - intros f Hf. inversion Hf.
Qed.

Lemma for_each_scanned (reach : FileInfo -> FileInfo -> Prop)
    (body : FileInfo -> M unit) (items : list FileInfo) :
  (forall item s0 s1, item ∈ items -> body item s0 = (Returns tt, s1) ->
     scanned (reach item) s0 s1) ->
  forall s s', for_each items body s = (Returns tt, s') ->
    scanned (fun f => exists item, item ∈ items /\ reach item f) s s'.
Proof.
  induction items as [|item items IH]; intros Hbody s s' Hrun.
  - cbn in Hrun. injection Hrun as <-. apply scanned_same; try reflexivity.
    intros f (item & Hin & _). inversion Hin.
  - apply for_each_cons_returns in Hrun as (s0 & Hhead & Htail).
    pose proof (Hbody item s s0 (list_elem_of_here _ _) Hhead) as H1.
    assert (H2 : scanned (fun f => exists it, it ∈ items /\ reach it f) s0 s').
    { apply IH; [|assumption]. intros it a b Hin. apply Hbody.
      now apply list_elem_of_further. }
    eapply scanned_iff; [|exact (scanned_trans _ _ _ _ _ H1 H2)].
    intros f. split.
    + intros [Hf | (it & Hin & Hf)].
      * exists item. split; [apply list_elem_of_here | assumption].
      * exists it. split; [now apply list_elem_of_further | assumption].
    + intros (it & Hin & Hf). apply elem_of_cons in Hin as [->|Hin];
        [now left | right; now exists it].
Qed.

Section Scans.

Variable rt : Runtime.
Variable cfg : Config.
Variable env : Env.

(** The listings do not depend on when they are asked for. *)
Variable L : string -> Outcome (list FileInfo).
Hypothesis HL : forall folderPath s, fst (propfind rt cfg env folderPath s) = L folderPath.

Lemma propfind_same_objects (folderPath : string) (s : State) :
  same_objects s (snd (propfind rt cfg env folderPath s)).
Proof. apply keeps_propfind, same_objects_bookkeeping. Qed.

Lemma met_step (fuel : nat) (folderPath : string) (items : list FileInfo)
    (f : FileInfo) :
  L folderPath = Returns items ->
  met L (S fuel) folderPath f <->
  exists item, item ∈ items
               /\ if isFolder item then met L fuel (relativePath item) f
                  else f = item.
Proof. intros HLp. cbn [met]. now rewrite HLp. Qed.

Lemma met_none (fuel : nat) (folderPath : string) (f : FileInfo) :
  (forall items, L folderPath <> Returns items) -> ~ met L (S fuel) folderPath f.
Proof.
  intros HLp. cbn [met]. destruct (L folderPath) as [items| | | | | |]; auto.
  now destruct (HLp items).
Qed.

(** A scan that returned has met every file of the tree below its folder,
    appended those that are not unchanged, and nothing else. *)
Lemma scanFolder_scanned (fuel : nat) :
  fullSync cfg = false ->
  forall folderPath s s',
    scanFolder rt cfg env fuel folderPath s = (Returns tt, s') ->
    scanned (met L fuel folderPath) s s'.
Proof.
  intros Hinc. induction fuel as [|fuel IH]; intros folderPath s s' Hrun;
    [discriminate|].
  cbn [scanFolder] in Hrun.
  apply bind_returns in Hrun as ([] & s0 & Hs0 & Hrun).
  injection Hs0 as <-.
  apply (scanned_from _ s (with_stats (bump_foldersScanned (stats s)) s));
    [reflexivity | reflexivity |].
  set (s0 := with_stats (bump_foldersScanned (stats s)) s) in *.
  apply try_catch_returns in Hrun as [Hbody | (e & s1 & Hthrow & Hcatch)].
  - apply bind_returns in Hbody as (items & s1 & Hlist & Hloop).
    assert (HLp : L folderPath = Returns items).
    { rewrite <- (HL folderPath s0), Hlist. reflexivity. }
    destruct (propfind_same_objects folderPath s0) as (Hm & _ & Hl).
    rewrite Hlist in Hm, Hl. cbn [snd] in Hm, Hl.
    apply (scanned_from _ s0 s1); [assumption | assumption |].
    eapply scanned_iff; [intros f; symmetry; apply (met_step fuel _ items f HLp)|].
    apply (for_each_scanned
             (fun item f => if isFolder item then met L fuel (relativePath item) f
                            else f = item)
             (fun item => if isFolder item
                          then scanFolder rt cfg env fuel (relativePath item)
                          else scanFile cfg item) items); [|exact Hloop].
    intros item a b _ Hitem. destruct (isFolder item).
    + now apply IH.
    + replace b with (snd (scanFile cfg item a)) by now rewrite Hitem.
      now apply scanFile_scanned.
  - apply bind_throws in Hthrow as [Hlist | (items & s2 & Hlist & Hloop)].
    + destruct (propfind_same_objects folderPath s0) as (Hm & _ & Hl).
      rewrite Hlist in Hm, Hl. cbn [snd] in Hm, Hl.
      apply bind_returns in Hcatch as ([] & s2 & Hlog & Hpush).
      destruct (log_returns rt cfg
                  ("Failed to scan folder " +:+ folderPath +:+ ": " +:+ e) ERROR s1)
        as (s2' & Hlog' & Hm2 & _ & Hl2).
      rewrite Hlog in Hlog'. injection Hlog' as <-.
      injection Hpush as <-.
      apply scanned_same.
      * intros f. apply met_none. intros items Hitems.
        rewrite <- (HL folderPath s0), Hlist in Hitems. discriminate.
      * cbn. now rewrite Hm2, Hm.
      * cbn. now rewrite Hl2, Hl.
    + exfalso.
      apply (for_each_does_not_throw items
               (fun item => if isFolder item
                            then scanFolder rt cfg env fuel (relativePath item)
                            else scanFile cfg item)) with (s := s2) (e := e).
      * intros item a e'. destruct (isFolder item).
        -- apply scanFolder_does_not_throw.
        -- rewrite scanFile_run. discriminate.
      * now rewrite Hloop.
Qed.

(** A relation kept by the steps of [scanFile] on the files met is kept by
    the scan. *)
Lemma keeps_scanFolder_met (R : State -> State -> Prop) :
  Bookkeeping R ->
  (forall s d, R s (with_disk_files (<[logFile cfg := d]> (disk_files s)) s)) ->
  (forall s, R s (with_stats (bump_foldersScanned (stats s)) s)) ->
  (forall s e, R s (with_stats (push_error e (stats s)) s)) ->
  forall fuel folderPath,
    (forall f, met L fuel folderPath f -> keeps R (scanFile cfg f)) ->
    keeps R (scanFolder rt cfg env fuel folderPath).
Proof.
  intros HR Hlog Hfolders Herror. induction fuel as [|fuel IH];
    intros folderPath Hmet; cbn [scanFolder]; [now apply keeps_out_of_fuel|].
  apply keeps_bind; [assumption | apply keeps_update, Hfolders |]. intros _.
  apply keeps_try_catch; [assumption | |].
  - intros s. unfold bind.
    pose proof (keeps_propfind R HR rt cfg env folderPath s) as Hp.
    pose proof (HL folderPath s) as HLp.
    destruct (propfind rt cfg env folderPath s) as [[items|e|e|c| | |] s1];
      cbn [fst snd] in *; try assumption.
    eapply (bk_trans R HR); [exact Hp|].
    apply keeps_for_each; [assumption|]. intros item Hin.
    destruct (isFolder item) eqn:Hfolder.
    + apply IH. intros f Hf. apply Hmet.
      apply (met_step fuel folderPath items f (eq_sym HLp)).
      exists item. now rewrite Hfolder.
    + apply Hmet. apply (met_step fuel folderPath items item (eq_sym HLp)).
      exists item. now rewrite Hfolder.
  - intros e. apply keeps_bind; [assumption | now apply keeps_log |]. intros _.
    apply keeps_update. intros s. apply Herror.
Qed.

End Scans.

Lemma same_file_refl (cwd p : string) : same_file cwd p p.
Proof. reflexivity. Qed.

(** *** The files a full sync takes *)

Lemma taken_same (P : FileInfo -> Prop) (s s' : State) :
  (forall f, ~ P f) ->
  manifest s' = manifest s -> filesToSync s' = filesToSync s ->
  filesFound (stats s') = filesFound (stats s) ->
  filesNew (stats s') = filesNew (stats s) ->
  filesModified (stats s') = filesModified (stats s) ->
  filesUnchanged (stats s') = filesUnchanged (stats s) ->
  taken_as_new P s s'.
Proof.
  intros HP Hm Hl H1 H2 H3 H4. split; [assumption|]. exists [].
  rewrite app_nil_r. cbn. repeat split; try assumption; try lia.
  - intros Hf. now destruct (HP f).
  - intros Hf. inversion Hf.
Qed.

Lemma taken_trans (P Q : FileInfo -> Prop) (a b c : State) :
  taken_as_new P a b -> taken_as_new Q b c ->
  taken_as_new (fun f => P f \/ Q f) a c.
Proof.
  intros (Hm1 & l1 & Hl1 & Hc1 & Hf1 & Hn1 & Hmo1 & Hu1)
    (Hm2 & l2 & Hl2 & Hc2 & Hf2 & Hn2 & Hmo2 & Hu2).
  split; [congruence|]. exists (l1 ++ l2)%list.
  rewrite Hl2, Hl1, app_assoc, length_app.
  repeat split; try congruence; try lia.
  - intros [Hf|Hf]; apply elem_of_app; [left; now apply Hc1 | right; now apply Hc2].
  - intros Hf. apply elem_of_app in Hf as [Hf|Hf];
      [left; now apply Hc1 | right; now apply Hc2].
Qed.

Lemma taken_iff (P Q : FileInfo -> Prop) (s s' : State) :
  (forall f, P f <-> Q f) -> taken_as_new P s s' -> taken_as_new Q s s'.
Proof.
  intros HPQ (Hm & l & Hl & Hc & Hrest). split; [assumption|]. exists l.
  split; [assumption|]. split; [|exact Hrest].
  intros f. now rewrite <- HPQ.
Qed.

Lemma taken_from (P : FileInfo -> Prop) (s0 s s' : State) :
  manifest s = manifest s0 -> filesToSync s = filesToSync s0 ->
  filesFound (stats s) = filesFound (stats s0) ->
  filesNew (stats s) = filesNew (stats s0) ->
  filesModified (stats s) = filesModified (stats s0) ->
  filesUnchanged (stats s) = filesUnchanged (stats s0) ->
  taken_as_new P s s' -> taken_as_new P s0 s'.
Proof.
  intros Hm0 Hl0 H1 H2 H3 H4 (Hm & l & Hl & Hc & Hf & Hn & Hmo & Hu).
  split; [congruence|]. exists l. repeat split; try congruence; apply Hc.
Qed.

Lemma scanFile_taken (cfg : Config) (item : FileInfo) (s : State) :
  fullSync cfg = true ->
  taken_as_new (fun f => f = item) s (snd (scanFile cfg item s)).
Proof.
  intros Hfull. rewrite scanFile_run, Hfull. cbn [snd].
  split; [reflexivity|]. exists [item]. cbn. repeat split; try lia.
  - intros ->. apply list_elem_of_here.
  - intros Hf. now apply list_elem_of_singleton in Hf.
Qed.

Lemma for_each_taken (reach : FileInfo -> FileInfo -> Prop)
    (body : FileInfo -> M unit) (items : list FileInfo) :
  (forall item s0 s1, item ∈ items -> body item s0 = (Returns tt, s1) ->
     taken_as_new (reach item) s0 s1) ->
  forall s s', for_each items body s = (Returns tt, s') ->
    taken_as_new (fun f => exists item, item ∈ items /\ reach item f) s s'.
Proof.
  induction items as [|item items IH]; intros Hbody s s' Hrun.
  - cbn in Hrun. injection Hrun as <-. apply taken_same; try reflexivity.
    intros f (item & Hin & _). inversion Hin.
  - apply for_each_cons_returns in Hrun as (s0 & Hhead & Htail).
    pose proof (Hbody item s s0 (list_elem_of_here _ _) Hhead) as H1.
    assert (H2 : taken_as_new (fun f => exists it, it ∈ items /\ reach it f) s0 s').
    { apply IH; [|assumption]. intros it a b Hin. apply Hbody.
      now apply list_elem_of_further. }
    eapply taken_iff; [|exact (taken_trans _ _ _ _ _ H1 H2)].
    intros f. split.
    + intros [Hf | (it & Hin & Hf)].
      * exists item. split; [apply list_elem_of_here | assumption].
      * exists it. split; [now apply list_elem_of_further | assumption].
    + intros (it & Hin & Hf). apply elem_of_cons in Hin as [->|Hin];
        [now left | right; now exists it].
Qed.

(** In a full sync, a scan that returned has appended the files of the
    tree below its folder, and nothing else. *)
Lemma scanFolder_taken (rt : Runtime) (cfg : Config) (env : Env)
    (L : string -> Outcome (list FileInfo)) (fuel : nat) :
  (forall folderPath s, fst (propfind rt cfg env folderPath s) = L folderPath) ->
  fullSync cfg = true ->
  forall folderPath s s',
    scanFolder rt cfg env fuel folderPath s = (Returns tt, s') ->
    taken_as_new (met L fuel folderPath) s s'.
Proof.
  intros HL Hfull. induction fuel as [|fuel IH]; intros folderPath s s' Hrun;
    [discriminate|].
  cbn [scanFolder] in Hrun.
  apply bind_returns in Hrun as ([] & s0 & Hs0 & Hrun).
  injection Hs0 as <-.
  apply (taken_from _ s (with_stats (bump_foldersScanned (stats s)) s));
    try reflexivity.
  set (s0 := with_stats (bump_foldersScanned (stats s)) s) in *.
  apply try_catch_returns in Hrun as [Hbody | (e & s1 & Hthrow & Hcatch)].
  - apply bind_returns in Hbody as (items & s1 & Hlist & Hloop).
    assert (HLp : L folderPath = Returns items).
    { rewrite <- (HL folderPath s0), Hlist. reflexivity. }
    destruct (propfind_same_objects rt cfg env folderPath s0) as (Hm & Hst & Hl).
    rewrite Hlist in Hm, Hst, Hl. cbn [snd] in Hm, Hst, Hl.
    apply (taken_from _ s0 s1); try assumption; try now rewrite Hst.
    eapply taken_iff;
      [intros f; symmetry; apply (met_step L fuel _ items f HLp)|].
    apply (for_each_taken
             (fun item f => if isFolder item then met L fuel (relativePath item) f
                            else f = item)
             (fun item => if isFolder item
                          then scanFolder rt cfg env fuel (relativePath item)
                          else scanFile cfg item) items); [|exact Hloop].
    intros item a b _ Hitem. destruct (isFolder item).
    + now apply IH.
    + replace b with (snd (scanFile cfg item a)) by now rewrite Hitem.
      now apply scanFile_taken.
  - apply bind_throws in Hthrow as [Hlist | (items & s2 & Hlist & Hloop)].
    + destruct (propfind_same_objects rt cfg env folderPath s0) as (Hm & Hst & Hl).
      rewrite Hlist in Hm, Hst, Hl. cbn [snd] in Hm, Hst, Hl.
      apply bind_returns in Hcatch as ([] & s2 & Hlog & Hpush).
      destruct (log_returns rt cfg
                  ("Failed to scan folder " +:+ folderPath +:+ ": " +:+ e) ERROR s1)
        as (s2' & Hlog' & Hm2 & Hst2 & Hl2).
      rewrite Hlog in Hlog'. injection Hlog' as <-.
      injection Hpush as <-.
      apply taken_same.
      * intros f. apply (met_none L). intros items Hitems.
        rewrite <- (HL folderPath s0), Hlist in Hitems. discriminate.
      * cbn. now rewrite Hm2, Hm.
      * cbn. now rewrite Hl2, Hl.
      * cbn. now rewrite Hst2, Hst.
      * cbn. now rewrite Hst2, Hst.
      * cbn. now rewrite Hst2, Hst.
      * cbn. now rewrite Hst2, Hst.
    + exfalso.
      apply (for_each_does_not_throw items
               (fun item => if isFolder item
                            then scanFolder rt cfg env fuel (relativePath item)
                            else scanFile cfg item)) with (s := s2) (e := e).
      * intros item a e'. destruct (isFolder item).
        -- apply scanFolder_does_not_throw.
        -- rewrite scanFile_run. discriminate.
      * now rewrite Hloop.
Qed.

(** The listings of the server of the examples do not depend on the
    state in which they are asked for. *)
Lemma dav_listings_fixed (cfg : Config) (listings contents : list (string * string))
    (folderPath : string) (s s0 : State) :
  fst (propfind Demo.runtime cfg (Demo.dav listings contents) folderPath s)
  = fst (propfind Demo.runtime cfg (Demo.dav listings contents) folderPath s0).
Proof.
  destruct (new_URL Demo.runtime (propfind_url cfg folderPath)) as [url|] eqn:Hurl.
  2: { unfold propfind. now rewrite Hurl. }
  set (env := Demo.dav listings contents).
  set (res := mkResponse 401 (Some Demo.challenge) None "").
  set (authRes := match Demo.assoc (pathname url) listings with
                  | Some xml => mkResponse 207 None None xml
                  | None => mkResponse 404 None None "Not Found"
                  end).
  assert (Hres : server env (propfind_options url None) = Responds res)
    by reflexivity.
  assert (Hauth : forall a,
            server env (propfind_options url (Some a)) = Responds authRes).
  { intros a. subst env authRes. unfold propfind_options. cbn.
    now destruct (Demo.assoc (pathname url) listings). }
  assert (Hrealm : realmMatch (default "" (www_authenticate res)) = Some "WA")
    by (vm_compute; reflexivity).
  assert (Hnonce : nonceMatch (default "" (www_authenticate res)) = Some "abc123")
    by (vm_compute; reflexivity).
  rewrite (propfind_authenticated Demo.runtime cfg env folderPath url Hurl res
             Hres s "WA" "abc123" authRes eq_refl Hrealm Hnonce (Hauth _)).
  rewrite (propfind_authenticated Demo.runtime cfg env folderPath url Hurl res
             Hres s0 "WA" "abc123" authRes eq_refl Hrealm Hnonce (Hauth _)).
  unfold resolve_parsed.
  destruct (statusCode authRes =? 207); [|reflexivity].
  now destruct (parseMultistatus Demo.runtime (body authRes) folderPath).
Qed.

(** The scan of a run, in a full sync: when it returns, the to-sync list
    holds the files of the tree, and nothing else. *)
Lemma scanning_taken (rt : Runtime) (cfg : Config) (env : Env)
    (L : string -> Outcome (list FileInfo)) (fuel : nat) (s s' : State) :
  (forall folderPath s0, fst (propfind rt cfg env folderPath s0) = L folderPath) ->
  fullSync cfg = true ->
  scanning rt cfg env fuel s = (Returns tt, s') ->
  taken_as_new (met L fuel "") (with_filesToSync [] s) s'.
Proof.
  intros HL Hfull H. unfold scanning in H.
  apply bind_returns in H as ([] & s1 & H1 & H).
  destruct (log_returns rt cfg "Scanning for changes..." INFO s)
    as (s1' & H1' & Hm1 & Hst1 & _).
  rewrite H1 in H1'. injection H1' as <-.
  apply bind_returns in H as ([] & s2 & H2 & H). injection H2 as <-.
  apply bind_returns in H as ([] & s3 & H3 & H).
  apply (scanFolder_taken rt cfg env L fuel HL Hfull) in H3.
  apply bind_returns in H as (st & s4 & H4 & H). injection H4 as <- <-.
  destruct (log_returns rt cfg
              ("Scan complete: " +:+ of_Z (filesNew (stats s3)) +:+ " new, "
               +:+ of_Z (filesModified (stats s3)) +:+ " modified, "
               +:+ of_Z (filesUnchanged (stats s3)) +:+ " unchanged") INFO s3)
    as (s5 & H5 & Hm5 & Hst5 & Hl5).
  rewrite H in H5. injection H5 as <-.
  destruct H3 as (Hm3 & added & Hl3 & Hc & Hf & Hn & Hmo & Hu).
  cbn [manifest filesToSync stats with_filesToSync] in *.
  split; [cbn; congruence|]. exists added. cbn [filesToSync stats with_filesToSync].
  rewrite Hl5, Hst5. repeat split; try congruence; apply Hc.
Qed.

(** The to-sync list of a run is the one its scan leaves. *)
Lemma program_queue (rt : Runtime) (cfg : Config) (env : Env) (fuel : nat)
    (s sa sb : State) (t0 : Z) :
  password cfg <> "" ->
  init rt cfg s = (Returns t0, sa) ->
  scanning rt cfg env fuel sa = (Returns tt, sb) ->
  filesToSync (snd (program rt cfg env fuel s)) = filesToSync sb.
Proof.
  intros Hpw Hinit Hscan. apply String.eqb_neq in Hpw.
  unfold program, main. rewrite Hpw. unfold try_catch.
  unfold bind at 1. rewrite Hinit. unfold bind at 1. rewrite Hscan.
  pose proof (same_queue_tail rt cfg env t0 sb) as Htail.
  unfold same_queue in Htail.
  destruct ((syncing rt cfg env ;; finalizing rt cfg t0) sb)
    as [[a|e|e|c| | |] s1]; cbn [fst snd] in *; assumption.
Qed.

(** C8, as the code has it: in a run with the full-sync flag every file
    the scan meets is classified new and appended to the to-sync list,
    whatever the manifest holds: [scanFile] appends it and counts it found
    and new; a scan, however it ends, appends as many files as it counts
    found and new, counts none modified or unchanged and leaves the
    manifest as it is; and a scan that returns has appended the files of
    the listings below its folder, all of them and nothing else, so that
    the to-sync list of a run whose scan returns holds the files of the
    tree, however the run goes on.  And no
    entry is deleted, provided that the manifest file is not also the log
    file, a report file or the destination of a download of the run:
    however the run ends, the manifest on disk then holds an entry under
    every key it held at the start, and the entries of files that are not
    in the to-sync list are as they were. *)
Theorem full_sync_takes_every_file_and_drops_no_entry (rt : Runtime)
    (cfg : Config) (env : Env) :
  fullSync cfg = true ->
  (forall item s,
     scanFile cfg item s =
     (Returns tt,
      with_filesToSync (filesToSync s ++ [item])
        (with_stats (bump_filesNew (bump_filesFound (stats s))) s)))
  /\ (forall fuel folderPath s,
        scan_all_new s (snd (scanFolder rt cfg env fuel folderPath s)))
  /\ (forall (L : string -> Outcome (list FileInfo)) fuel folderPath s s',
        (forall p s0, fst (propfind rt cfg env p s0) = L p) ->
        scanFolder rt cfg env fuel folderPath s = (Returns tt, s') ->
        taken_as_new (met L fuel folderPath) s s')
  /\ (forall (L : string -> Outcome (list FileInfo)) fuel s t0 sa sb,
        (forall p s0, fst (propfind rt cfg env p s0) = L p) ->
        password cfg <> "" ->
        init rt cfg s = (Returns t0, sa) ->
        scanning rt cfg env fuel sa = (Returns tt, sb) ->
        forall f,
          met L fuel "" f <-> f ∈ filesToSync (snd (program rt cfg env fuel s)))
  /\ (forall fuel s m0 cwd,
        let s' := snd (program rt cfg env fuel s) in
        ~ same_file cwd (logFile cfg) (manifestFile cfg) ->
        (forall n, ~ same_file cwd (reportFile (toISOString rt n))
                     (manifestFile cfg)) ->
        (forall f, f ∈ filesToSync s' ->
                   ~ same_file cwd (destination rt cfg f) (manifestFile cfg)) ->
        manifest_on_disk cfg s = Some m0 ->
        persisted cfg m0 s').
Proof.
  intros Hfull. split; [|split; [|split; [|split]]].
  - intros item s. now rewrite scanFile_run, Hfull.
  - intros fuel folderPath s. now apply scanFolder_all_new.
  - intros L fuel folderPath s s' HL Hrun.
    now apply (scanFolder_taken rt cfg env L fuel HL Hfull).
  - intros L fuel s t0 sa sb HL Hpw Hinit Hscan f.
    rewrite (program_queue rt cfg env fuel s sa sb t0 Hpw Hinit Hscan).
    destruct (scanning_taken rt cfg env L fuel sa sb HL Hfull Hscan)
      as (_ & added & Hl & Hc & _).
    cbn [filesToSync with_filesToSync app] in Hl. rewrite Hl. apply Hc.
  - intros fuel s m0 cwd s' Hlog Hreport Hdest Hdisk.
    apply program_persists.
    + intros Heq. apply Hlog. rewrite Heq. apply same_file_refl.
    + intros n Heq. apply (Hreport n). rewrite Heq. apply same_file_refl.
    + exact Hdisk.
    + intros f Hf Heq. apply (Hdest f Hf). unfold destination. rewrite Heq.
      apply same_file_refl.
Qed.

Lemma full_sync_takes_every_file_and_drops_no_entry_witness :
  let cfg := Demo.config false true in
  let s := Scenario.with_ledger in
  let L := fun p => fst (propfind Demo.runtime cfg Scenario.tree p Demo.start) in
  persisted cfg Scenario.ledger
    (snd (program Demo.runtime cfg Scenario.tree 5 s))
  /\ taken_as_new (met L 5 "") s
       (snd (scanFolder Demo.runtime cfg Scenario.tree 5 "" s))
  /\ met L 5 "" Scenario.policy
  /\ Scenario.policy ∈ filesToSync (snd (program Demo.runtime cfg Scenario.tree 5 s)).
Proof.
  cbv zeta.
  destruct (full_sync_takes_every_file_and_drops_no_entry Demo.runtime
              (Demo.config false true) Scenario.tree eq_refl)
    as (_ & _ & Hscan & Hrun & Hkeep).
  assert (Hmet : met (fun p => fst (propfind Demo.runtime (Demo.config false true)
                                      Scenario.tree p Demo.start)) 5 ""
                   Scenario.policy).
  { assert (Hroot : exists items,
              fst (propfind Demo.runtime (Demo.config false true) Scenario.tree
                     "" Demo.start) = Returns items
              /\ exists item, item ∈ items /\ isFolder item = true
                              /\ relativePath item = "Documents").
    { eexists. split; [vm_compute; reflexivity|].
      eexists. split; [apply list_elem_of_here|]. now split. }
    destruct Hroot as (items & Hitems & item & Hin & Hfolder & Hrel).
    cbn [met]. rewrite Hitems. exists item. split; [exact Hin|].
    rewrite Hfolder, Hrel.
    assert (Hdocs : exists items',
              fst (propfind Demo.runtime (Demo.config false true) Scenario.tree
                     "Documents" Demo.start) = Returns items'
              /\ Scenario.policy ∈ items').
    { eexists. split; [vm_compute; reflexivity|]. apply list_elem_of_here. }
    destruct Hdocs as (items' & Hitems' & Hin').
    rewrite Hitems'. exists Scenario.policy. split; [exact Hin'|reflexivity]. }
  split; [|split; [|split; [exact Hmet|]]].
  - apply (Hkeep 5%nat Scenario.with_ledger Scenario.ledger "/srv/wa").
    + intros H. vm_compute in H. discriminate H.
    + intros n H. vm_compute in H. discriminate H.
    + intros f Hf H. vm_compute in Hf.
      apply list_elem_of_singleton in Hf. subst f.
      vm_compute in H. discriminate H.
    + reflexivity.
  - apply Hscan.
    + intros p s0. apply dav_listings_fixed.
    + assert (H : fst (scanFolder Demo.runtime (Demo.config false true)
                         Scenario.tree 5 "" Scenario.with_ledger) = Returns tt)
        by (vm_compute; reflexivity).
      destruct (scanFolder Demo.runtime (Demo.config false true) Scenario.tree 5
                  "" Scenario.with_ledger) as [o s1].
      cbn [fst snd] in *. now subst o.
  - pose (sa := snd (init Demo.runtime (Demo.config false true)
                       Scenario.with_ledger)).
    assert (Hinit : init Demo.runtime (Demo.config false true)
                      Scenario.with_ledger = (Returns 0, sa)).
    { assert (H : fst (init Demo.runtime (Demo.config false true)
                         Scenario.with_ledger) = Returns 0)
        by (vm_compute; reflexivity).
      subst sa.
      destruct (init Demo.runtime (Demo.config false true) Scenario.with_ledger)
        as [o x].
      cbn [fst snd] in *. now subst o. }
    pose (sb := snd (scanning Demo.runtime (Demo.config false true)
                       Scenario.tree 5 sa)).
    assert (Hscanned : scanning Demo.runtime (Demo.config false true)
                         Scenario.tree 5 sa = (Returns tt, sb)).
    { assert (H : fst (scanning Demo.runtime (Demo.config false true)
                         Scenario.tree 5 sa) = Returns tt)
        by (vm_compute; reflexivity).
      subst sb.
      destruct (scanning Demo.runtime (Demo.config false true) Scenario.tree 5 sa)
        as [o x].
      cbn [fst snd] in *. now subst o. }
    assert (Hpw : password (Demo.config false true) <> "") by discriminate.
    exact (proj1 (Hrun (fun p => fst (propfind Demo.runtime (Demo.config false true)
                                        Scenario.tree p Demo.start))
                    5%nat Scenario.with_ledger 0 sa sb
                    (fun p s0 => dav_listings_fixed (Demo.config false true) _ _ p s0
                                   Demo.start)
                    Hpw Hinit Hscanned Scenario.policy) Hmet).
Defined.

(** C8 as stated fails: in a full sync whose log file is the manifest file,
    the line the run logs first makes the manifest unreadable, the run
    starts from an empty manifest, and the manifest it saves no longer has
    the entry of the file that is gone from the server. *)
Lemma log_in_the_manifest_file_drops_stale_entries :
  let cfg := Scenario.log_in_manifest in
  let s := Scenario.with_ledger in
  let s' := snd (program Demo.runtime cfg Scenario.tree 5 s) in
  fullSync cfg = true
  /\ manifest_on_disk cfg s = Some Scenario.ledger
  /\ is_Some (files Scenario.ledger !! "Old/gone.txt")
  /\ ~ persisted cfg Scenario.ledger s'
  /\ files (manifest s') !! "Old/gone.txt" = None
  /\ exists m t,
       disk_files s' !! manifestFile cfg = Some (mkFileData (ManifestJson m) t)
       /\ files m !! "Old/gone.txt" = None.
Proof.
  cbv zeta. split; [reflexivity|]. split; [vm_compute; reflexivity|].
  split; [vm_compute; eauto|]. split; [|split].
  - intros (m' & H & _). vm_compute in H. discriminate H.
  - vm_compute. reflexivity.
  - eexists. eexists. split; [vm_compute; reflexivity|]. vm_compute. reflexivity.
Qed.

(** *** What a sync phase without failure leaves in the manifest *)

Lemma syncFiles_synced (rt : Runtime) (cfg : Config) (env : Env)
    (toSync : list FileInfo) :
  (forall f, f ∈ toSync -> relativePath f <> "__proto__") ->
  forall s s',
    syncFiles rt cfg env toSync s = (Returns tt, s') ->
    errors (stats s') = [] ->
    synced toSync (manifest s) (manifest s')
    /\ errors (stats s) = []
    /\ filesToSync s' = filesToSync s.
Proof.
  unfold syncFiles. induction toSync as [|f rest IH]; intros Hplain s s' Hrun Herr.
  - cbn in Hrun. injection Hrun as <-. repeat split; [|assumption].
    intros key. right. split; [|reflexivity]. intros f Hf. inversion Hf.
  - apply for_each_cons_returns in Hrun as (s0 & Hhead & Htail).
    assert (Hrest : forall g, g ∈ rest -> relativePath g <> "__proto__").
    { intros g Hg. apply Hplain. now apply list_elem_of_further. }
    destruct (IH Hrest s0 s' Htail Herr) as (Hsynced & Herr0 & Hlist).
    pose proof Hhead as Hd. unfold syncFile in Hd.
    apply bind_returns in Hd as (ok & s1 & Hd & _).
    destruct (downloadFile_same_objects rt cfg env (href f)
                (path_join rt (backupDir cfg) (relativePath f)) s)
      as (_ & _ & Hl1).
    rewrite Hd in Hl1. cbn [snd] in Hl1.
    destruct ok.
    + rewrite (syncFile_success rt cfg env f s s1 Hd) in Hhead.
      injection Hhead as <-. cbn in Herr0, Hsynced, Hlist.
      rewrite files_assign_own in Hsynced
        by (left; apply Hplain, list_elem_of_here).
      cbn [files] in Hsynced.
      repeat split; [|assumption | congruence].
      intros key. destruct (Hsynced key) as [(g & ts & Hin & Hkey & Hg) | [Hno Hsame]].
      * left. exists g, ts. repeat split; [now apply list_elem_of_further|..];
          assumption.
      * destruct (decide (relativePath f = key)) as [Hk|Hk].
        -- left. exists f, (toISOString rt (clock s1)).
           repeat split; [apply list_elem_of_here | assumption |].
           rewrite Hsame, <- Hk. apply lookup_insert_eq.
        -- right. split.
           ++ intros f' Hf'. apply elem_of_cons in Hf' as [->|Hf']; auto.
           ++ rewrite Hsame. now apply lookup_insert_ne.
    + rewrite (syncFile_failure rt cfg env f s s1 Hd) in Hhead.
      injection Hhead as <-. cbn in Herr0.
      now destruct (errors (stats s)).
Qed.

(** *** A file seen in the first run is unchanged for the second *)

Lemma js_gt_json_self (t : jsnum) : js_gt t (json_number t) = false.
Proof. destruct t as [z| |]; cbn; [apply Z.ltb_irrefl | reflexivity..]. Qed.

Lemma json_number_id (t : jsnum) : t <> NaN -> json_number t = t.
Proof. now destruct t. Qed.

Lemma needsSync_unchanged_inv (f : FileInfo) (m : Manifest) :
  files_proto m = None ->
  needsSync f m = unchanged ->
  exists e, files m !! relativePath f = Some e
            /\ js_gt (lastModifiedTime f) (e_lastModifiedTime e) = false
            /\ size f = e_size e.
Proof.
  intros Hp. destruct (files m !! relativePath f) as [e|] eqn:He.
  - rewrite (needsSync_entry f m e He).
    destruct (js_gt _ _) eqn:Hgt; [discriminate|].
    destruct (Z.eqb_spec (size f) (e_size e)); [|discriminate].
    intros _. now exists e.
  - rewrite (needsSync_no_entry f m He). unfold inherited_at. rewrite Hp. cbn.
    destruct (String.eqb _ _); [discriminate|].
    destruct (bool_decide _); discriminate.
Qed.

Lemma unchanged_after_sync (reached : FileInfo -> Prop) (toSync : list FileInfo)
    (m1 m' mf : Manifest) (f : FileInfo) :
  (forall a b, reached a -> reached b -> relativePath a = relativePath b ->
     size a = size b /\ lastModifiedTime a = lastModifiedTime b) ->
  no_nan m1 -> files_proto m1 = None ->
  (forall a, reached a -> a ∈ toSync \/ needsSync a m1 = unchanged) ->
  (forall a, a ∈ toSync -> reached a) ->
  synced toSync m1 m' ->
  files mf = files m' ->
  reached f ->
  needsSync f (json_roundtrip mf) = unchanged.
Proof.
  intros Hagree Hclean Hplain Hcomplete Hsound Hsynced Hfiles Hf.
  destruct (Hsynced (relativePath f)) as [(g & ts & Hin & Hkey & Hg) | [Hno Hsame]].
  - rewrite (needsSync_entry f _ (json_entry (entry_of g ts))).
    + cbn. destruct (Hagree g f (Hsound g Hin) Hf Hkey) as [Hsize Htime].
      rewrite Htime, Hsize, js_gt_json_self, Z.eqb_refl. reflexivity.
    + cbn [files json_roundtrip]. now rewrite lookup_fmap, Hfiles, Hg.
  - destruct (Hcomplete f Hf) as [Hin | Hun].
    + now destruct (Hno f Hin).
    + apply needsSync_unchanged_inv in Hun as (e & He & Hgt & Hsize);
        [|assumption].
      rewrite (needsSync_entry f _ (json_entry e)).
      * cbn. rewrite (json_number_id _ (Hclean _ _ He)), Hgt, Hsize, Z.eqb_refl.
        reflexivity.
      * cbn [files json_roundtrip]. now rewrite lookup_fmap, Hfiles, Hsame, He.
Qed.

(** *** The first run, taken apart *)

Lemma hoare_any {A} (m : M A) (P : State -> Prop) :
  hoare P m (fun _ _ => True) (fun _ => True).
Proof. intros s _. now destruct (fst (m s)). Qed.

Lemma hoare_returned {A} (P : State -> Prop) (m : M A) (Q : A -> State -> Prop)
    (E : State -> Prop) (s s' : State) (a : A) :
  hoare P m Q E -> P s -> m s = (Returns a, s') -> Q a s'.
Proof. intros H HP Hrun. specialize (H s HP). now rewrite Hrun in H. Qed.

Lemma loadManifest_no_nan (rt : Runtime) (cfg : Config) :
  hoare (fun _ => True) (loadManifest rt cfg)
        (fun m _ => as_loaded m) (fun _ => True).
Proof.
  assert (Hempty : as_loaded emptyManifest).
  { split; [|reflexivity]. intros key e He. cbn in He.
    now rewrite lookup_empty in He. }
  intros s _. unfold loadManifest, bind, existsSync, get. cbn [fst snd].
  destruct (bool_decide _ || bool_decide _); [|exact Hempty].
  destruct (disk_files s !! manifestFile cfg ≫= JSON_parse) as [m|] eqn:Hparse.
  - cbn. destruct (disk_files s !! manifestFile cfg) as [d|]; [|discriminate].
    cbn in Hparse. unfold JSON_parse in Hparse.
    destruct (doc d) as [|m'|]; try discriminate.
    destruct (is_blank (text d)); [|discriminate].
    injection Hparse as <-. split; [|reflexivity]. intros key e He. cbn in He.
    rewrite lookup_fmap in He. destruct (files m' !! key) as [e'|]; [|discriminate].
    injection He as <-. cbn. now destruct (e_lastModifiedTime e').
  - destruct (default true _); [exact Hempty | exact I].
Qed.

Lemma init_no_nan (rt : Runtime) (cfg : Config) :
  hoare (fun _ => True) (init rt cfg)
        (fun _ s => as_loaded (manifest s)) (fun _ => True).
Proof.
  unfold init.
  do 7 (apply hoare_bind with (Mid := fun _ _ => True); [apply hoare_any | intros ?]).
  apply hoare_bind with (Mid := fun m _ => as_loaded m); [apply loadManifest_no_nan|].
  intros m. apply hoare_bind with (Mid := fun _ s => as_loaded (manifest s)).
  { apply hoare_update. auto. }
  intros _. apply hoare_bind with (Mid := fun _ s => as_loaded (manifest s)).
  { intros s Hs.
    destruct (log_returns rt cfg
                ("Manifest loaded: " +:+ of_Z (count_keys m) +:+ " files tracked")
                INFO s) as (s' & Hlog & Hm & _).
    rewrite Hlog. cbn. now rewrite Hm. }
  intros _. apply hoare_ret.
Qed.

Section FirstRun.

Variable rt : Runtime.
Variable cfg : Config.
Variable env : Env.
Variable L : string -> Outcome (list FileInfo).
Hypothesis HL : forall folderPath s, fst (propfind rt cfg env folderPath s) = L folderPath.
Hypothesis Hdry : dryRun cfg = false.
Hypothesis Hinc : fullSync cfg = false.
Hypothesis Hlog : logFile cfg <> manifestFile cfg.
Hypothesis Hreport : forall day, reportFile day <> manifestFile cfg.

Lemma log_run_objects (message level : string) (s s' : State) :
  log rt cfg message level s = (Returns tt, s') -> same_objects s s'.
Proof.
  intros H. destruct (log_returns rt cfg message level s) as (s0 & H0 & Hobj).
  rewrite H in H0. now injection H0 as <-.
Qed.

Lemma scanning_returns (fuel : nat) (s s' : State) :
  scanning rt cfg env fuel s = (Returns tt, s') ->
  manifest s' = manifest s
  /\ (forall f, met L fuel "" f ->
        f ∈ filesToSync s' \/ needsSync f (manifest s) = unchanged)
  /\ (forall f, f ∈ filesToSync s' -> met L fuel "" f).
Proof.
  unfold scanning. intros H.
  apply bind_returns in H as ([] & s1 & H1 & H).
  apply log_run_objects in H1 as (Hm1 & _).
  apply bind_returns in H as ([] & s2 & H2 & H). injection H2 as <-.
  apply bind_returns in H as ([] & s3 & H3 & H).
  apply (scanFolder_scanned rt cfg env L HL fuel Hinc) in H3
    as (Hm3 & added & Hl3 & Hcomplete & Hsound).
  cbn in Hm3, Hl3, Hcomplete.
  apply bind_returns in H as (st & s4 & H4 & H). injection H4 as <- <-.
  apply log_run_objects in H as (Hm5 & _ & Hl5).
  rewrite Hm5, Hm3, Hl5, Hl3. repeat split; try assumption.
  intros f Hf. rewrite <- Hm1. now apply Hcomplete.
Qed.

Lemma syncing_returns (s s' : State) :
  (forall f, f ∈ filesToSync s -> relativePath f <> "__proto__") ->
  syncing rt cfg env s = (Returns tt, s') ->
  errors (stats s') = [] ->
  synced (filesToSync s) (manifest s) (manifest s').
Proof.
  unfold syncing. intros Hplain H Herr.
  apply bind_returns in H as (toSync & s1 & H1 & H). injection H1 as <- <-.
  destruct (0 <? length (filesToSync s))%nat eqn:Hlen.
  - apply bind_returns in H as ([] & s2 & H2 & H).
    apply log_run_objects in H2 as (Hm2 & _ & Hl2).
    apply syncFiles_synced in H as (Hsynced & _); [|assumption..].
    now rewrite Hm2 in Hsynced.
  - apply log_run_objects in H as (Hm & _).
    apply Nat.ltb_ge in Hlen. destruct (filesToSync s); [|cbn in Hlen; lia].
    intros key. right. split; [|now rewrite Hm]. intros f Hf. inversion Hf.
Qed.

Lemma finalizing_returns (startTime : Z) (s s' : State) :
  finalizing rt cfg startTime s = (Returns tt, s') ->
  errors (stats s) = []
  /\ exists mf, files mf = files (manifest s)
                /\ manifest_on_disk cfg s' = Some (json_roundtrip mf).
Proof.
  unfold finalizing, saveManifest. rewrite Hdry. cbn [negb]. intros H.
  apply bind_returns in H as (stamp & s1 & H1 & H). injection H1 as <- <-.
  apply bind_returns in H as ([] & s2 & H2 & H). injection H2 as <-.
  apply bind_returns in H as (m & s3 & H3 & H). injection H3 as <- <-.
  apply bind_returns in H as ([] & s4 & H4 & H). injection H4 as <-.
  apply bind_returns in H as (endTime & s5 & H5 & H). injection H5 as <- <-.
  apply bind_returns in H as ([] & s6 & H6 & H). injection H6 as <-.
  apply bind_returns in H as (st & s7 & H7 & H). injection H7 as <- <-.
  apply bind_returns in H as (day & s8 & H8 & H). injection H8 as <- <-.
  apply bind_returns in H as ([] & s9 & H9 & H). injection H9 as <-.
  apply bind_returns in H as ([] & s10 & H10 & H).
  cbn [stats with_stats set_duration errors] in H.
  destruct (0 <? length (errors (stats s)))%nat eqn:Hlen; [discriminate|].
  injection H as <-. split.
  - apply Nat.ltb_ge in Hlen. destruct (errors (stats s)); [reflexivity|].
    cbn in Hlen. lia.
  - exists (finalize_manifest cfg (toISOString rt (clock s)) (manifest s)). split.
    + unfold finalize_manifest. now destruct (fullSync cfg).
    + unfold log, bind, now_iso, bind, tick, ret, appendFileSync, update in H10.
      injection H10 as <-. unfold manifest_on_disk. cbn.
      rewrite lookup_insert_ne by apply Hlog.
      rewrite lookup_insert_ne by apply Hreport.
      now rewrite lookup_insert_eq.
Qed.

(** What a first run that ended normally leaves: a manifest on disk against
    which every file it met is unchanged, provided the files met under one
    path have one size and one time, and none has the path [__proto__],
    under which an assignment creates no entry. *)
Lemma first_run_leaves_all_unchanged (fuel : nat) (s s1 : State) :
  (forall a b, met L fuel "" a -> met L fuel "" b ->
     relativePath a = relativePath b ->
     size a = size b /\ lastModifiedTime a = lastModifiedTime b) ->
  (forall f, met L fuel "" f -> relativePath f <> "__proto__") ->
  program rt cfg env fuel s = (Returns tt, s1) ->
  String.eqb (password cfg) "" = false
  /\ exists m2, manifest_on_disk cfg s1 = Some m2
                /\ forall f, met L fuel "" f -> needsSync f m2 = unchanged.
Proof.
  intros Hagree Hplain Hrun. unfold program in Hrun.
  apply try_catch_returns in Hrun as [Hmain | (e & s0 & _ & Hcatch)].
  2: { apply bind_returns in Hcatch as ([] & s' & _ & Hexit). discriminate. }
  unfold main in Hmain. destruct (String.eqb (password cfg) ""); [discriminate|].
  split; [reflexivity|].
  apply bind_returns in Hmain as (t0 & sa & Hinit & Hmain).
  apply bind_returns in Hmain as ([] & sb & Hscan & Hmain).
  apply bind_returns in Hmain as ([] & sc & Hsync & Hfinal).
  pose proof (hoare_returned _ _ _ _ _ _ _ (init_no_nan rt cfg) I Hinit)
    as [Hclean Hproto].
  apply scanning_returns in Hscan as (Hmb & Hcomplete & Hsound).
  apply finalizing_returns in Hfinal as (Herr & mf & Hfiles & Hdisk).
  apply syncing_returns in Hsync; [| intros f Hf; now apply Hplain, Hsound
                                    | assumption].
  exists (json_roundtrip mf). split; [assumption|].
  intros f Hf.
  apply (unchanged_after_sync (met L fuel "") (filesToSync sb) (manifest sa)
           (manifest sc) mf f); try assumption.
  now rewrite <- Hmb.
Qed.

End FirstRun.

(** *** The second run *)

Lemma hoare_conj {A} (P1 P2 : State -> Prop) (m : M A)
    (Q1 Q2 : A -> State -> Prop) (E1 E2 : State -> Prop) :
  hoare P1 m Q1 E1 -> hoare P2 m Q2 E2 ->
  hoare (fun s => P1 s /\ P2 s) m (fun a s => Q1 a s /\ Q2 a s)
        (fun s => E1 s /\ E2 s).
Proof.
  intros H1 H2 s [HP1 HP2]. specialize (H1 s HP1). specialize (H2 s HP2).
  destruct (fst (m s)); auto.
Qed.

Lemma idle_bookkeeping : Bookkeeping (preserved idle).
Proof. apply preserved_bookkeeping; intros s x H; exact H. Qed.

Section SecondRun.

Variable rt : Runtime.
Variable cfg : Config.
Variable env : Env.
Variable L : string -> Outcome (list FileInfo).
Hypothesis HL : forall folderPath s, fst (propfind rt cfg env folderPath s) = L folderPath.
Hypothesis Hinc : fullSync cfg = false.
Hypothesis Hlog : logFile cfg <> manifestFile cfg.

Variable fuel : nat.
Variable m2 : Manifest.
Hypothesis Hunchanged : forall f, met L fuel "" f -> needsSync f m2 = unchanged.

Lemma idle_log (message level : string) :
  keeps (preserved idle) (log rt cfg message level).
Proof.
  apply keeps_log; [apply idle_bookkeeping|]. intros s d H. exact H.
Qed.

Lemma idle_init : keeps (preserved idle) (init rt cfg).
Proof.
  pose proof idle_bookkeeping as HB. unfold init.
  apply keeps_bind; [assumption | now apply keeps_now_ms |]. intros t0.
  apply keeps_bind; [assumption | now apply keeps_now_iso |]. intros started.
  apply keeps_bind; [assumption | |].
  { apply keeps_update. intros s (Hl & _). now repeat split. }
  intros _. do 3 (apply keeps_bind; [assumption | apply idle_log |]; intros _).
  apply keeps_bind; [assumption | |].
  { unfold ensure_dir. apply keeps_bind; [assumption | now apply keeps_get |].
    intros [|]; [now apply keeps_ret|]. apply keeps_update. intros s H. exact H. }
  intros _. apply keeps_bind; [assumption | |].
  { unfold loadManifest.
    apply keeps_bind; [assumption | now apply keeps_get |]. intros [|];
      [|now apply keeps_ret].
    apply keeps_bind; [assumption | now apply keeps_get |]. intros content.
    destruct (content ≫= JSON_parse); [now apply keeps_ret|].
  destruct (default true _); [|now apply keeps_unchecked].
    apply keeps_bind; [assumption | apply idle_log |]. intros _.
    now apply keeps_ret. }
  intros m. apply keeps_bind; [assumption | |].
  { apply keeps_update. intros s H. exact H. }
  intros _. apply keeps_bind; [assumption | apply idle_log |]. intros _.
  now apply keeps_ret.
Qed.

Lemma idle_finalizing (startTime : Z) :
  keeps (preserved idle) (finalizing rt cfg startTime).
Proof.
  pose proof idle_bookkeeping as HB. unfold finalizing.
  apply keeps_bind; [assumption | now apply keeps_now_iso |]. intros stamp.
  apply keeps_bind; [assumption | apply keeps_update; intros s H; exact H |].
  intros _. apply keeps_bind; [assumption | now apply keeps_get |]. intros m.
  apply keeps_bind; [assumption | |].
  { unfold saveManifest. destruct (negb (dryRun cfg)); [|now apply keeps_ret].
    apply keeps_update. intros s H. exact H. }
  intros _. apply keeps_bind; [assumption | now apply keeps_now_ms |]. intros t1.
  apply keeps_bind; [assumption | apply keeps_update; intros s H; exact H |].
  intros _. apply keeps_bind; [assumption | now apply keeps_get |]. intros st.
  apply keeps_bind; [assumption | now apply keeps_now_iso |]. intros day.
  apply keeps_bind; [assumption | |].
  { destruct (negb (dryRun cfg)); [|now apply keeps_ret].
    apply keeps_update. intros s H. exact H. }
  intros _. apply keeps_bind; [assumption | apply idle_log |]. intros _.
  destruct (0 <? length (errors st))%nat; [now apply keeps_exit | now apply keeps_ret].
Qed.

Lemma watching_bookkeeping : Bookkeeping (preserved (watching m2)).
Proof. apply preserved_bookkeeping; intros s x H; exact H. Qed.

Lemma watching_log (message level : string) :
  keeps (preserved (watching m2)) (log rt cfg message level).
Proof.
  apply keeps_log; [apply watching_bookkeeping|]. intros s d H. exact H.
Qed.

Lemma watching_scanning :
  keeps (preserved (watching m2)) (scanning rt cfg env fuel).
Proof.
  pose proof watching_bookkeeping as HB. unfold scanning.
  apply keeps_bind; [assumption | apply watching_log |]. intros _.
  apply keeps_bind; [assumption | |].
  { apply keeps_update. intros s ((Hl & Hrest) & Hm). now repeat split. }
  intros _. apply keeps_bind; [assumption | |].
  { apply (keeps_scanFolder_met rt cfg env L HL); try assumption.
    - intros s d H. exact H.
    - intros s H. exact H.
    - intros s e H. exact H.
    - intros f Hf s ((Hl & Hn & Hmo & Hd & Hu) & Hm).
      rewrite scanFile_run, Hinc, Hm, (Hunchanged f Hf). cbn.
      repeat split; try assumption. cbn. lia. }
  intros _. apply keeps_bind; [assumption | now apply keeps_get |]. intros st.
  apply watching_log.
Qed.

Lemma idle_syncing : keeps (preserved idle) (syncing rt cfg env).
Proof.
  intros s Hidle. unfold syncing, bind, get. cbn [fst snd].
  destruct Hidle as (Hl & Hrest). rewrite Hl. cbn [length Nat.ltb Nat.leb].
  apply idle_log. now split.
Qed.

Lemma second_run_idle (s : State) :
  idle s -> on_disk cfg m2 s ->
  idle (snd (program rt cfg env fuel s)).
Proof.
  intros Hidle Hdisk.
  assert (Hmain : idle (snd (main rt cfg env fuel s))).
  { unfold main. destruct (String.eqb (password cfg) ""); [exact Hidle|].
    assert (Hinit : hoare (fun s => on_disk cfg m2 s /\ idle s) (init rt cfg)
                      (fun _ s => loaded cfg m2 s /\ idle s)
                      (fun s => persisted cfg m2 s /\ idle s)).
    { apply hoare_conj; [now apply init_loads|].
      apply hoare_preserved; [apply idle_init | auto]. }
    specialize (Hinit s (conj Hdisk Hidle)). unfold bind at 1.
    destruct (init rt cfg s) as [[t0|e|e|c| | |] sa]; cbn [fst snd] in *;
      try apply Hinit.
    destruct Hinit as [[_ Hm] Hia].
    pose proof (watching_scanning sa (conj Hia Hm)) as Hscan. unfold bind at 1.
    destruct (scanning rt cfg env fuel sa) as [[[]|e|e|c| | |] sb]; cbn [fst snd] in *;
      try apply Hscan.
    destruct Hscan as [Hib _].
    pose proof (idle_syncing sb Hib) as Hsync. unfold bind at 1.
    destruct (syncing rt cfg env sb) as [[[]|e|e|c| | |] sc]; cbn [fst snd] in *;
      try assumption.
    now apply idle_finalizing. }
  unfold program, try_catch.
  destruct (main rt cfg env fuel s) as [[[]|e|e|c| | |] s']; cbn [fst snd] in *;
    assumption.
Qed.

End SecondRun.

(** A second incremental run, on the disk left by a first one that ended
    normally and against the same listings, finds nothing to do, provided no
    two files met under the same path differ in size or time, and no file
    has the path [__proto__]. *)
Lemma rerun_without_collisions_is_idle (rt : Runtime) (cfg : Config) (env : Env)
    (L : string -> Outcome (list FileInfo)) (fuel : nat) (s s1 : State) :
  dryRun cfg = false -> fullSync cfg = false ->
  logFile cfg <> manifestFile cfg ->
  (forall day, reportFile day <> manifestFile cfg) ->
  (forall folderPath s0, fst (propfind rt cfg env folderPath s0) = L folderPath) ->
  (forall a b, met L fuel "" a -> met L fuel "" b ->
     relativePath a = relativePath b ->
     size a = size b /\ lastModifiedTime a = lastModifiedTime b) ->
  (forall f, met L fuel "" f -> relativePath f <> "__proto__") ->
  program rt cfg env fuel s = (Returns tt, s1) ->
  idle (snd (program rt cfg env fuel (fresh_process s1))).
Proof.
  intros Hdry Hinc Hlog Hreport HL Hagree Hplain Hrun.
  destruct (first_run_leaves_all_unchanged rt cfg env L HL Hdry Hinc Hlog Hreport
              fuel s s1 Hagree Hplain Hrun) as (_ & m2 & Hdisk & Hunchanged).
  apply (second_run_idle rt cfg env L HL Hinc Hlog fuel m2 Hunchanged).
  - now repeat split.
  - exact Hdisk.
Qed.

(** * Further properties of the code *)

(** ** The multi-status parser, again *)

Lemma append_empty_r (s : string) : s +:+ "" = s.
Proof.
  induction s as [|c s IH]; [reflexivity|].
  change (String c (s +:+ "") = String c s). now f_equal.
Qed.

Lemma includes_false_cons (sub : string) (c : ascii) (s : string) :
  includes sub (String c s) = false ->
  starts_with sub (String c s) = false /\ includes sub s = false.
Proof. cbn [includes]. intros H. now apply orb_false_iff in H. Qed.

Lemma split_go_without_separator (sep : string) (s : string) :
  forall cur, includes sep s = false -> split_go sep O cur s = [cur +:+ s].
Proof.
  induction s as [|c r IH]; intros cur H.
  - cbn [split_go]. now rewrite append_empty_r.
  - apply includes_false_cons in H as [Hhere Hrest].
    cbn [split_go]. rewrite Hhere, (IH _ Hrest), append_assoc. reflexivity.
Qed.

(** X1: a body that holds no [<d:response>] tag (the page of an error, an empty
    body) is parsed as the empty listing, whatever the folder listed. *)
Theorem body_without_response_block_is_empty_listing (rt : Runtime)
    (xml currentPath : string) :
  includes "<d:response>" xml = false ->
  parseMultistatus rt xml currentPath = Some [].
Proof.
  intros H. unfold parseMultistatus, split.
  rewrite (split_go_without_separator _ _ "" H). reflexivity.
Qed.

Lemma body_without_response_block_is_empty_listing_witness :
  parseMultistatus Demo.runtime "<html>Not Found</html>" "Documents" = Some [].
Proof.
  apply (body_without_response_block_is_empty_listing Demo.runtime).
  vm_compute. reflexivity.
Defined.

Lemma span_fst_parseInt (s : string) :
  forall acc, 0 <= acc -> 0 <= parseInt_go acc (fst (span is_digit s)).
Proof.
  induction s as [|c r IH]; intros acc Hacc; [exact Hacc|].
  cbn [span]. destruct (is_digit c) eqn:Hc; [|exact Hacc].
  destruct (span is_digit r) as [run rest]. cbn [fst parseInt_go] in *.
  apply IH.
  unfold is_digit in Hc. apply andb_true_iff in Hc as [Hlo _].
  apply N.leb_le in Hlo. lia.
Qed.

Lemma match_here_run (lead : string) (cls : ascii -> bool) (nonempty : bool)
    (trail s c : string) :
  match_here lead cls nonempty trail s = Some c ->
  exists r, c = fst (span cls r).
Proof.
  unfold match_here. destruct (strip_prefix lead s) as [r|]; [|discriminate].
  destruct (span cls r) as [run rest] eqn:Hr.
  destruct (nonempty && _); [discriminate|].
  destruct (starts_with trail rest); [|discriminate].
  intros [= <-]. exists r. now rewrite Hr.
Qed.

Lemma regex_capture_run (lead : string) (cls : ascii -> bool) (nonempty : bool)
    (trail s c : string) :
  regex_capture lead cls nonempty trail s = Some c ->
  exists r, c = fst (span cls r).
Proof.
  induction s as [|x s IH]; cbn [regex_capture].
  - destruct (match_here lead cls nonempty trail "") eqn:Hm; [|discriminate].
    intros [= <-]. eapply match_here_run, Hm.
  - destruct (match_here lead cls nonempty trail (String x s)) eqn:Hm.
    + intros [= <-]. eapply match_here_run, Hm.
    + exact IH.
Qed.

Lemma parseResponse_pushed_size (rt : Runtime) (response currentPath : string)
    (item : FileInfo) :
  parseResponse rt response currentPath = Pushed item ->
  size item =
  match regex_capture "<d:getcontentlength>" is_digit true
          "</d:getcontentlength>" response with
  | Some d => parseInt d
  | None => 0
  end
  /\ lastModifiedTime item =
     (if String.eqb (lastModified item) "" then Num 0
      else date_getTime rt (lastModified item))
  /\ isFolder item = includes "<d:collection" response.
Proof.
  unfold parseResponse. intros H.
  destruct (regex_capture "<d:href>" _ _ _ response) as [raw|]; [|discriminate].
  destruct (decodeURIComponent raw) as [h|]; [|discriminate].
  destruct (isCurrentFolder (hrefPath h) currentPath); [discriminate|].
  destruct (decodeURIComponent (hrefPath h)) as [d|]; [|discriminate].
  injection H as <-. cbn [size lastModifiedTime lastModified isFolder]. auto.
Qed.

(** X2: every entry the parser returns has a size that is not negative (the
    digits of [getcontentlength] read by [parseInt], or 0 without them), and
    an entry without a modification date has [lastModifiedTime] 0. *)
Theorem listed_sizes_are_not_negative (rt : Runtime) (xml currentPath : string)
    (items : list FileInfo) (item : FileInfo) :
  parseMultistatus rt xml currentPath = Some items ->
  item ∈ items ->
  0 <= size item
  /\ (lastModified item = "" -> lastModifiedTime item = Num 0).
Proof.
  unfold parseMultistatus. intros Hp Hin.
  destruct (parseResponses_elem _ _ _ _ _ Hp Hin) as (response & _ & Hpush).
  destruct (parseResponse_pushed_size _ _ _ _ Hpush) as (Hsize & Htime & _).
  split.
  - rewrite Hsize.
    destruct (regex_capture "<d:getcontentlength>" _ _ _ response) as [d|] eqn:Hd;
      [|lia].
    destruct (regex_capture_run _ _ _ _ _ _ Hd) as (r & ->).
    now apply span_fst_parseInt.
  - intros Hl. now rewrite Htime, Hl.
Qed.

Lemma listed_sizes_are_not_negative_witness :
  0 <= size Scenario.policy
  /\ (lastModified Scenario.policy = "" ->
      lastModifiedTime Scenario.policy = Num 0).
Proof.
  apply (listed_sizes_are_not_negative Demo.runtime Cases.documents_listing
           "Documents" [Scenario.policy]).
  - vm_compute. reflexivity.
  - apply list_elem_of_here.
Defined.

Lemma parseResponses_URIError (rt : Runtime) (responses : list string)
    (currentPath response : string) :
  response ∈ responses ->
  parseResponse rt response currentPath = URIError ->
  parseResponses rt responses currentPath = None.
Proof.
  intros Hin Hbad. induction responses as [|r rest IH]; [inversion Hin|].
  cbn [parseResponses]. apply elem_of_cons in Hin as [<-|Hin].
  - now rewrite Hbad.
  - destruct (parseResponse rt r currentPath); [|auto|reflexivity].
    now rewrite (IH Hin).
Qed.

(** X3: one response block whose href [decodeURIComponent] rejects, at the
    first decoding or, for an entry that is not the folder listed, at the
    second one, makes [parseMultistatus] throw: no entry of the listing is
    returned, and thrown inside the ['end'] callback of [propfind] the
    exception is caught by nobody. *)
Theorem malformed_escape_fails_the_whole_listing (rt : Runtime)
    (xml currentPath response raw : string) :
  response ∈ tail (split "<d:response>" xml) ->
  regex_capture "<d:href>" (is_not "<") true "</d:href>" response = Some raw ->
  decodeURIComponent raw = None
  \/ (exists h, decodeURIComponent raw = Some h
                /\ isCurrentFolder (hrefPath h) currentPath = false
                /\ decodeURIComponent (hrefPath h) = None) ->
  parseMultistatus rt xml currentPath = None
  /\ forall s, resolve_parsed rt xml currentPath s
               = (Crashes "URIError: URI malformed", s).
Proof.
  intros Hin Hraw Hbad.
  assert (Hblock : parseResponse rt response currentPath = URIError).
  { unfold parseResponse. rewrite Hraw.
    destruct Hbad as [-> | (h & -> & -> & ->)]; reflexivity. }
  assert (Hnone : parseMultistatus rt xml currentPath = None).
  { unfold parseMultistatus. eapply parseResponses_URIError; eassumption. }
  split; [exact Hnone|]. intros s. unfold resolve_parsed. now rewrite Hnone.
Qed.

Lemma malformed_escape_fails_the_whole_listing_witness :
  parseMultistatus Demo.runtime Cases.percent_listing "" = None
  /\ forall s, resolve_parsed Demo.runtime Cases.percent_listing "" s
               = (Crashes "URIError: URI malformed", s).
Proof.
  apply (malformed_escape_fails_the_whole_listing Demo.runtime _ ""
           (nth 2 (tail (split "<d:response>" Cases.percent_listing)) "")
           (Demo.root +:+ "100%25.pdf")).
  - vm_compute. do 2 apply list_elem_of_further. apply list_elem_of_here.
  - vm_compute. reflexivity.
  - right. exists (Demo.root +:+ "100%.pdf"). repeat split; vm_compute; reflexivity.
Defined.

(** ** The configuration *)

(** X4: when [WA_PASSWORD] is unset or empty, the password of the
    configuration is empty and the program exits with status 1 at once: no
    log line is written, no directory created, no request sent. *)
Theorem missing_password_exits_before_any_effect (rt : Runtime) (p : ProcessEnv)
    (env : Env) (fuel : nat) (s : State) :
  WA_PASSWORD p = None \/ WA_PASSWORD p = Some "" ->
  password (CONFIG p) = ""
  /\ program rt (CONFIG p) env fuel s = (Exits 1, s).
Proof.
  intros Hp.
  assert (Hpw : password (CONFIG p) = "").
  { cbn [CONFIG password]. now destruct Hp as [-> | ->]. }
  split; [exact Hpw|].
  unfold program, try_catch, main. now rewrite Hpw.
Qed.

Lemma missing_password_exits_before_any_effect_witness :
  let p := mkProcessEnv (Some "") (Some "/srv/backup") None None None ["--full"] in
  password (CONFIG p) = ""
  /\ program Demo.runtime (CONFIG p) Scenario.tree 5 Scenario.with_ledger
     = (Exits 1, Scenario.with_ledger).
Proof.
  apply (missing_password_exits_before_any_effect Demo.runtime
           (mkProcessEnv (Some "") (Some "/srv/backup") None None None ["--full"])).
  now right.
Defined.

Lemma or_default_nonempty (v : option string) (d : string) :
  d <> "" -> or_default v d <> "".
Proof.
  intros Hd. unfold or_default. destruct v as [s|]; [|exact Hd].
  destruct (String.eqb s "") eqn:Hs; [exact Hd|]. now apply String.eqb_neq.
Qed.

Lemma argv_includes_elem (flag : string) (args : list string) :
  argv_includes flag args = true <-> flag ∈ args.
Proof.
  unfold argv_includes. rewrite existsb_exists. split.
  - intros (x & Hin & Heq). apply String.eqb_eq in Heq as ->.
    now apply list_elem_of_In.
  - intros Hin. exists flag. split; [now apply list_elem_of_In | apply String.eqb_refl].
Qed.

(** X5: the three paths of the configuration are never empty, an environment
    variable set to the empty string counting as unset, and each mode flag is
    set exactly when its word is one of the arguments. *)
Theorem CONFIG_falls_back_to_defaults (p : ProcessEnv) :
  backupDir (CONFIG p) <> "" /\ manifestFile (CONFIG p) <> ""
  /\ logFile (CONFIG p) <> ""
  /\ (BACKUP_DIR p = Some "" -> backupDir (CONFIG p) = "./backups")
  /\ (dryRun (CONFIG p) = true <-> "--dry-run" ∈ argv p)
  /\ (fullSync (CONFIG p) = true <-> "--full" ∈ argv p).
Proof.
  cbn [CONFIG backupDir manifestFile logFile dryRun fullSync].
  repeat split; try (apply or_default_nonempty; discriminate);
    try apply argv_includes_elem.
  now intros ->.
Qed.

Lemma CONFIG_falls_back_to_defaults_witness :
  let p := mkProcessEnv (Some "secret") (Some "") (Some "/var/wa/manifest.json")
             None None ["--dry-run"] in
  backupDir (CONFIG p) = "./backups" /\ dryRun (CONFIG p) = true.
Proof.
  destruct (CONFIG_falls_back_to_defaults
              (mkProcessEnv (Some "secret") (Some "") (Some "/var/wa/manifest.json")
                 None None ["--dry-run"]))
    as (_ & _ & _ & Hdir & Hdry & _).
  split; [now apply Hdir|]. apply Hdry. apply list_elem_of_here.
Defined.

(** ** Sizes in the report *)

Lemma of_Z_digit (d : Z) : 0 <= d < 10 -> String.length (of_Z d) = 1%nat.
Proof.
  intros H.
  assert (Hd : d = 0 \/ d = 1 \/ d = 2 \/ d = 3 \/ d = 4 \/ d = 5 \/ d = 6
               \/ d = 7 \/ d = 8 \/ d = 9) by lia.
  repeat (destruct Hd as [-> | Hd]; [reflexivity|]). now subst.
Qed.

Lemma toFixed_ratio_one_digit (num den : Z) :
  0 <= num -> 0 < den ->
  let n := (2 * num * 10 + den) / (2 * den) in
  toFixed_ratio num den 1 = of_Z (n / 10) +:+ "." +:+ of_Z (n mod 10).
Proof.
  intros Hnum Hden n. unfold toFixed_ratio.
  change (10 ^ Z.of_nat 1) with 10. fold n.
  rewrite (of_Z_digit (n mod 10)) by (apply Z.mod_pos_bound; lia).
  reflexivity.
Qed.

(** X6: from 1024 bytes up to (not including) 1 MiB, [formatBytes] prints the
    number [n] of tenths of a kilobyte nearest to the size, the larger one on
    a tie, as [n / 10], a dot and [n mod 10]; hence the last 51 sizes below
    1 MiB are printed as [1024.0 KB]. *)
Theorem formatBytes_rounds_to_a_tenth_of_a_kilobyte (bytes : Z) :
  1024 <= bytes < 1024 * 1024 ->
  let n := (20 * bytes + 1024) / 2048 in
  formatBytes bytes = of_Z (n / 10) +:+ "." +:+ of_Z (n mod 10) +:+ " KB"
  /\ 2048 * n <= 20 * bytes + 1024 < 2048 * (n + 1)
  /\ (1048525 <= bytes -> formatBytes bytes = "1024.0 KB").
Proof.
  intros Hb n.
  assert (Hfmt : formatBytes bytes
                 = of_Z (n / 10) +:+ "." +:+ of_Z (n mod 10) +:+ " KB").
  { unfold formatBytes.
    replace (bytes <? 1024) with false by (symmetry; apply Z.ltb_ge; lia).
    replace (bytes <? 1024 * 1024) with true by (symmetry; apply Z.ltb_lt; lia).
    rewrite toFixed_ratio_one_digit by lia.
    replace ((2 * bytes * 10 + 1024) / (2 * 1024)) with n
      by (unfold n; f_equal; lia).
    now rewrite !append_assoc. }
  assert (Hn : 2048 * n <= 20 * bytes + 1024 < 2048 * (n + 1)).
  { unfold n. pose proof (Z.mul_div_le (20 * bytes + 1024) 2048).
    pose proof (Z.mul_succ_div_gt (20 * bytes + 1024) 2048). lia. }
  repeat split; try apply Hn; try exact Hfmt.
  intros Hhigh. rewrite Hfmt. replace n with 10240 by lia. reflexivity.
Qed.

Lemma formatBytes_rounds_to_a_tenth_of_a_kilobyte_witness :
  formatBytes 1536 = "1.5 KB" /\ formatBytes 1048575 = "1024.0 KB".
Proof.
  split.
  - destruct (formatBytes_rounds_to_a_tenth_of_a_kilobyte 1536) as (H & _);
      [lia | exact H].
  - destruct (formatBytes_rounds_to_a_tenth_of_a_kilobyte 1048575) as (_ & _ & H);
      [lia | apply H; lia].
Defined.

(** ** Requests of a listing *)

Lemma after_requests_nil (s s' : State) :
  sent s' = sent s -> disk_files s' = disk_files s -> disk_dirs s' = disk_dirs s ->
  clock s' = clock s -> manifest s' = manifest s -> stats s' = stats s ->
  filesToSync s' = filesToSync s ->
  after_requests [] s s'.
Proof. intros. unfold after_requests. rewrite app_nil_r. auto 10. Qed.

Lemma resolve_parsed_state (rt : Runtime) (data folderPath : string) (s : State) :
  snd (resolve_parsed rt data folderPath s) = s.
Proof. unfold resolve_parsed. now destruct (parseMultistatus _ _ _). Qed.

(** X7: a listing sends no request (its URL is invalid), one request, or two:
    the second is the first with an [Authorization] header added.  It changes
    nothing else: neither the disk, nor the clock, nor the manifest, the
    statistics or the to-sync list. *)
Theorem propfind_sends_at_most_two_requests (rt : Runtime) (cfg : Config)
    (env : Env) (folderPath : string) (s : State) :
  let s' := snd (propfind rt cfg env folderPath s) in
  exists requests,
    after_requests requests s s'
    /\ (requests = []
        \/ exists url,
             new_URL rt (propfind_url cfg folderPath) = Some url
             /\ (requests = [propfind_options url None]
                 \/ exists authorization,
                      requests = [propfind_options url None;
                                  propfind_options url (Some authorization)])).
Proof.
  cbv zeta. unfold propfind.
  destruct (new_URL rt (propfind_url cfg folderPath)) as [url|] eqn:Hurl.
  2: { exists []. split; [now apply after_requests_nil | now left]. }
  unfold bind at 1. unfold request at 1.
  destruct (server env (propfind_options url None)) as [res|err].
  2: { exists [propfind_options url None]. split; [now repeat split|].
       right. exists url. auto. }
  destruct (statusCode res =? 401).
  2: { rewrite resolve_parsed_state. exists [propfind_options url None].
       split; [now repeat split|]. right. exists url. auto. }
  destruct (realmMatch _) as [realm|].
  2: { exists [propfind_options url None]. split; [now repeat split|].
       right. exists url. auto. }
  destruct (nonceMatch _) as [nonce|].
  2: { exists [propfind_options url None]. split; [now repeat split|].
       right. exists url. auto. }
  unfold bind, draw_cnonce, request. cbn [with_sent with_draws sent draws].
  set (authorization := createDigestAuth rt cfg _ realm nonce (pathname url) "PROPFIND").
  exists [propfind_options url None; propfind_options url (Some authorization)].
  split; [|right; exists url; split; [reflexivity | right; now exists authorization]].
  destruct (server env (propfind_options url (Some authorization))) as [authRes|err].
  - destruct (statusCode authRes =? 207); [rewrite resolve_parsed_state|];
      repeat split; cbn; now rewrite <- app_assoc.
  - repeat split; cbn; now rewrite <- app_assoc.
Qed.

(** X8: a connection error on the first request of a listing rejects the
    promise with that error, which [scanFolder] can catch; a connection error
    on the request repeated with credentials, which has no ['error']
    listener, ends the process. *)
Theorem listing_connection_errors (rt : Runtime) (cfg : Config) (env : Env)
    (folderPath : string) (url : Url) (err : string) (s : State) :
  new_URL rt (propfind_url cfg folderPath) = Some url ->
  (server env (propfind_options url None) = Fails err ->
   propfind rt cfg env folderPath s
   = (Throws err, with_sent (sent s ++ [propfind_options url None]) s))
  /\ (forall res realm nonce,
        server env (propfind_options url None) = Responds res ->
        statusCode res = 401 ->
        realmMatch (default "" (www_authenticate res)) = Some realm ->
        nonceMatch (default "" (www_authenticate res)) = Some nonce ->
        server env
          (propfind_options url
             (Some (createDigestAuth rt cfg (random_token rt (draws s)) realm
                      nonce (pathname url) "PROPFIND")))
        = Fails err ->
        fst (propfind rt cfg env folderPath s) = Crashes err).
Proof.
  intros Hurl. split.
  - intros Hfail. unfold propfind. rewrite Hurl. unfold bind, request.
    now rewrite Hfail.
  - intros res realm nonce Hres Hst Hrealm Hnonce Hfail.
    unfold propfind. rewrite Hurl. unfold bind at 1. unfold request at 1.
    rewrite Hres, Hst. cbn [Z.eqb Pos.eqb]. rewrite Hrealm, Hnonce.
    unfold bind, draw_cnonce, request. cbn [with_sent with_draws draws sent].
    now rewrite Hfail.
Qed.

Lemma listing_connection_errors_witness :
  let cfg := Demo.config false false in
  fst (propfind Demo.runtime cfg Cases.unreachable "" Demo.start)
  = Throws "Error: connect ECONNREFUSED"
  /\ fst (propfind Demo.runtime cfg Cases.drops_retry "" Demo.start)
     = Crashes "Error: socket hang up".
Proof.
  split.
  - destruct (listing_connection_errors Demo.runtime (Demo.config false false)
                Cases.unreachable "" Cases.resources
                "Error: connect ECONNREFUSED" Demo.start eq_refl) as [H _].
    now rewrite H.
  - destruct (listing_connection_errors Demo.runtime (Demo.config false false)
                Cases.drops_retry "" Cases.resources
                "Error: socket hang up" Demo.start eq_refl) as [_ H].
    apply (H (mkResponse 401 (Some Demo.challenge) None "") "WA" "abc123");
      vm_compute; reflexivity.
Defined.

(** X9: after a 401 whose challenge has a realm and a nonce, the listing is
    requested once more with the Digest header computed for [PROPFIND] and
    the path of the URL; a 207 answer is parsed, any other status rejects the
    promise with [HTTP <status>]. *)
Theorem authenticated_listing_checks_the_status (rt : Runtime) (cfg : Config)
    (env : Env) (folderPath : string) (url : Url) (res authRes : Response)
    (realm nonce : string) (s : State) :
  new_URL rt (propfind_url cfg folderPath) = Some url ->
  server env (propfind_options url None) = Responds res ->
  statusCode res = 401 ->
  realmMatch (default "" (www_authenticate res)) = Some realm ->
  nonceMatch (default "" (www_authenticate res)) = Some nonce ->
  let retry :=
    propfind_options url
      (Some (createDigestAuth rt cfg (random_token rt (draws s)) realm nonce
               (pathname url) "PROPFIND")) in
  server env retry = Responds authRes ->
  let run := propfind rt cfg env folderPath s in
  sent (snd run) = (sent s ++ [propfind_options url None; retry])%list
  /\ (statusCode authRes = 207 ->
      fst run = match parseMultistatus rt (body authRes) folderPath with
                | Some items => Returns items
                | None => Crashes "URIError: URI malformed"
                end)
  /\ (statusCode authRes <> 207 ->
      fst run = Throws ("Error: HTTP " +:+ of_Z (statusCode authRes))).
Proof.
  intros Hurl Hres Hst Hrealm Hnonce retry Hauth run.
  pose proof (propfind_authenticated rt cfg env folderPath url Hurl res Hres s
                realm nonce authRes Hst Hrealm Hnonce Hauth) as Hrun.
  cbv zeta in Hrun. subst run. rewrite Hrun.
  destruct (statusCode authRes =? 207) eqn:H207.
  - apply Z.eqb_eq in H207. rewrite resolve_parsed_state.
    split; [reflexivity|]. split; [|congruence].
    intros _. unfold resolve_parsed.
    now destruct (parseMultistatus rt (body authRes) folderPath).
  - apply Z.eqb_neq in H207. split; [reflexivity|]. split; [congruence|].
    reflexivity.
Qed.

Lemma authenticated_listing_checks_the_status_witness :
  let cfg := Demo.config false false in
  let run := propfind Demo.runtime cfg Scenario.tree "Missing" Demo.start in
  length (sent (snd run)) = 2%nat
  /\ fst run = Throws "Error: HTTP 404".
Proof.
  destruct (authenticated_listing_checks_the_status Demo.runtime
              (Demo.config false false) Scenario.tree "Missing"
              (mkUrl "sbnewcomers.org" "/resources/Missing/" "")
              (mkResponse 401 (Some Demo.challenge) None "")
              (mkResponse 404 None None "Not Found")
              "WA" "abc123" Demo.start)
    as (Hsent & _ & Hbad); try (vm_compute; reflexivity).
  split.
  - rewrite Hsent. reflexivity.
  - rewrite Hbad; [reflexivity | discriminate].
Defined.

(** ** Requests of a download *)

Lemma pipe_to_file_sent (env : Env) (destPath data : string) (s : State) :
  sent (snd (pipe_to_file env destPath data s)) = sent s.
Proof. unfold pipe_to_file. now destruct (stream_ok env destPath). Qed.

Lemma handleResponseWith_trace (rt : Runtime) (cfg : Config) (env : Env)
    (again : Response -> M bool) (url : Url) (destPath : string)
    (res : Response) (isAuth : bool) (s : State) :
  (forall r s0, exists rest,
      sent (snd (again r s0)) = (sent s0 ++ rest)%list
      /\ handler_trace url true rest) ->
  exists requests,
    sent (snd (handleResponseWith rt cfg env again url destPath res isAuth s))
    = (sent s ++ requests)%list
    /\ handler_trace url isAuth requests.
Proof.
  intros Hagain. unfold handleResponseWith.
  assert (Hquiet : forall m : M bool,
             sent (snd (m s)) = sent s ->
             exists requests,
               sent (snd (m s)) = (sent s ++ requests)%list
               /\ handler_trace url isAuth requests).
  { intros m Hm. exists []. rewrite app_nil_r. split; [exact Hm | constructor]. }
  assert (Hrest : exists requests,
             sent (snd
               ((if (statusCode res =? 401) && negb isAuth
                 then
                   match realmMatch (default "" (www_authenticate res)),
                         nonceMatch (default "" (www_authenticate res)) with
                   | Some realm, Some nonce =>
                       bind (draw_cnonce rt) (fun cnonce =>
                         bind (request env
                                 (mkRequest GET (hostname url) 443 (pathname url)
                                    [("Authorization",
                                      createDigestAuth rt cfg cnonce realm nonce
                                        (pathname url) "GET")] ""))
                              (fun x => match x with
                                        | Fails _ => ret false
                                        | Responds authRes => again authRes
                                        end))
                   | _, _ => ret false
                   end
                 else if statusCode res =? 200
                      then pipe_to_file env destPath (body res)
                      else ret false) s))
             = (sent s ++ requests)%list
             /\ handler_trace url isAuth requests).
  { destruct ((statusCode res =? 401) && negb isAuth) eqn:Hc.
    - apply andb_true_iff in Hc as [_ Hna]. apply negb_true_iff in Hna as ->.
      destruct (realmMatch _) as [realm|]; [|now apply Hquiet].
      destruct (nonceMatch _) as [nonce|]; [|now apply Hquiet].
      unfold bind, draw_cnonce, request. cbn [with_sent with_draws sent draws].
      set (a := createDigestAuth rt cfg _ realm nonce (pathname url) "GET").
      destruct (server env _) as [authRes|err].
      + destruct (Hagain authRes
                    (with_sent (sent s ++ [auth_get url a])
                       (with_draws (S (draws s)) s)))
          as (rest & Hsent & Htrace).
        exists (auth_get url a :: rest). split; [|now constructor].
        unfold auth_get in *. rewrite Hsent. cbn. now rewrite <- app_assoc.
      + exists [auth_get url a]. split; [reflexivity | repeat constructor].
    - destruct (statusCode res =? 200); [|now apply Hquiet].
      apply Hquiet, pipe_to_file_sent. }
  destruct ((300 <=? statusCode res) && (statusCode res <? 400));
    [|destruct (truthy (location res)); exact Hrest].
  destruct (truthy (location res)) as [loc|]; [|exact Hrest].
  destruct (new_URL rt loc) as [redirectUrl|]; [|now apply Hquiet].
  unfold bind, request.
  exists [redirect_get redirectUrl]. split; [|constructor].
  destruct (server env _) as [redirectRes|err]; [|reflexivity].
  destruct (statusCode redirectRes =? 200); [|reflexivity].
  now rewrite pipe_to_file_sent.
Qed.

Lemma handleResponse_trace (rt : Runtime) (cfg : Config) (env : Env)
    (url : Url) (destPath : string) (res : Response) (s : State) :
  exists requests,
    sent (snd (handleResponse rt cfg env url destPath res false s))
    = (sent s ++ requests)%list
    /\ handler_trace url false requests.
Proof.
  unfold handleResponse. apply handleResponseWith_trace. intros r s0.
  apply handleResponseWith_trace. intros r1 s1.
  exists []. rewrite app_nil_r. split; [reflexivity | constructor].
Qed.

Lemma ensure_dir_sent (dir : string) (s : State) :
  fst (ensure_dir dir s) = Returns tt /\ sent (snd (ensure_dir dir s)) = sent s.
Proof.
  unfold ensure_dir, bind, existsSync, get. cbn [fst snd].
  now destruct (bool_decide _ || bool_decide _).
Qed.

(** What a download sends. *)
Lemma downloadFile_trace (rt : Runtime) (cfg : Config) (env : Env)
    (fileUrl destPath : string) (s : State) :
  exists requests,
    sent (snd (downloadFile rt cfg env fileUrl destPath s))
    = (sent s ++ requests)%list
    /\ (requests = []
        \/ exists url, dryRun cfg = false /\ new_URL rt fileUrl = Some url
                       /\ download_trace url requests).
Proof.
  unfold downloadFile. destruct (dryRun cfg) eqn:Hdry.
  { exists []. rewrite app_nil_r. auto. }
  destruct (new_URL rt fileUrl) as [url|] eqn:Hurl.
  2: { exists []. rewrite app_nil_r. auto. }
  unfold bind at 1.
  destruct (ensure_dir_sent (path_dirname rt destPath) s) as [Hret Hsent].
  destruct (ensure_dir (path_dirname rt destPath) s) as [o s0].
  cbn [fst snd] in Hret, Hsent. subst o.
  unfold bind, request. fold (plain_get url).
  destruct (server env (plain_get url)) as [res|err].
  - destruct (handleResponse_trace rt cfg env url destPath res
                (with_sent (sent s0 ++ [plain_get url]) s0))
      as (rest & Hrest & Htrace).
    exists (plain_get url :: rest). split.
    + rewrite Hrest. cbn [sent with_sent]. rewrite Hsent.
      now rewrite <- app_assoc.
    + right. exists url. repeat split; try assumption.
      inversion Htrace as [| |a rest' Hinner]; subst; try constructor.
      inversion Hinner; subst; constructor.
  - exists [plain_get url]. cbn [snd sent with_sent]. rewrite Hsent.
    split; [reflexivity|]. right. exists url. repeat split; try assumption.
    constructor.
Qed.

(** X10: a download sends at most three requests, all [GET] on port 443
    without a body, at most one of them with a header (credentials are tried
    once); in a dry run it sends none. *)
Theorem download_sends_at_most_three_requests (rt : Runtime) (cfg : Config)
    (env : Env) (fileUrl destPath : string) (s : State) :
  exists requests,
    sent (snd (downloadFile rt cfg env fileUrl destPath s))
    = (sent s ++ requests)%list
    /\ (length requests <= 3)%nat
    /\ (length (filter (fun r => bool_decide (rq_headers r <> [])) requests) <= 1)%nat
    /\ Forall (fun r => rq_method r = GET /\ rq_port r = 443 /\ rq_body r = "")
              requests
    /\ (dryRun cfg = true -> requests = []).
Proof.
  destruct (downloadFile_trace rt cfg env fileUrl destPath s)
    as (requests & Hsent & Hshape).
  exists requests. split; [exact Hsent|].
  destruct Hshape as [-> | (url & Hdry & _ & Htrace)].
  - repeat split; cbn; try lia. constructor.
  - destruct Htrace; repeat split; cbn; try lia; try congruence;
      repeat constructor.
Qed.

(** X11: a request of a download that carries a header goes to the host and
    the path of the URL that was asked for: the request that follows a
    redirect carries no credentials. *)
Theorem credentials_go_to_the_requested_url_only (rt : Runtime) (cfg : Config)
    (env : Env) (fileUrl destPath : string) (s : State) (requests : list Request)
    (r : Request) :
  sent (snd (downloadFile rt cfg env fileUrl destPath s))
  = (sent s ++ requests)%list ->
  r ∈ requests ->
  rq_headers r <> [] ->
  exists url,
    new_URL rt fileUrl = Some url
    /\ rq_hostname r = hostname url /\ rq_path r = pathname url.
Proof.
  intros Hsent Hin Hheaders.
  destruct (downloadFile_trace rt cfg env fileUrl destPath s)
    as (requests' & Hsent' & Hshape).
  rewrite Hsent in Hsent'. apply app_inv_head in Hsent' as <-.
  destruct Hshape as [-> | (url & _ & Hurl & Htrace)]; [inversion Hin|].
  exists url. split; [exact Hurl|].
  destruct Htrace;
    repeat (apply elem_of_cons in Hin as [-> | Hin]);
    try (now inversion Hin); try (now destruct Hheaders); now split.
Qed.

Lemma credentials_go_to_the_requested_url_only_witness :
  let cfg := Demo.config false false in
  let run := downloadFile Demo.runtime cfg Scenario.tree (href Scenario.policy)
               "./backups/Documents/Policy.pdf" Demo.start in
  exists url,
    Demo.parse_url (href Scenario.policy) = Some url
    /\ rq_hostname (nth 1 (sent (snd run)) (plain_get Cases.policy_url))
       = hostname url
    /\ rq_path (nth 1 (sent (snd run)) (plain_get Cases.policy_url))
       = pathname url.
Proof.
  cbv zeta.
  apply (credentials_go_to_the_requested_url_only Demo.runtime
           (Demo.config false false) Scenario.tree (href Scenario.policy)
           "./backups/Documents/Policy.pdf" Demo.start
           (sent (snd (downloadFile Demo.runtime (Demo.config false false)
                         Scenario.tree (href Scenario.policy)
                         "./backups/Documents/Policy.pdf" Demo.start)))).
  - reflexivity.
  - vm_compute. apply list_elem_of_further, list_elem_of_here.
  - vm_compute. discriminate.
Defined.

(** ** The outcome of a download *)

Lemma pipe_to_file_true (env : Env) (destPath : string) (res : Response)
    (r : Request) (s s' : State) :
  r ∈ sent s -> server env r = Responds res -> statusCode res = 200 ->
  pipe_to_file env destPath (body res) s = (Returns true, s') ->
  stream_ok env destPath = true /\ stored_from_200 env destPath s'.
Proof.
  intros Hin Hres Hst. unfold pipe_to_file.
  destruct (stream_ok env destPath); [|discriminate].
  unfold bind, writeFileSync, update, ret. intros [= <-].
  split; [reflexivity|]. exists r, res. repeat split; try assumption.
  cbn. apply lookup_insert_eq.
Qed.

Lemma handleResponseWith_true (rt : Runtime) (cfg : Config) (env : Env)
    (again : Response -> M bool) (url : Url) (destPath : string)
    (res : Response) (isAuth : bool) (r : Request) (s s' : State) :
  (forall r0 res0 s0 s1,
      r0 ∈ sent s0 -> server env r0 = Responds res0 ->
      again res0 s0 = (Returns true, s1) ->
      stream_ok env destPath = true /\ stored_from_200 env destPath s1) ->
  r ∈ sent s -> server env r = Responds res ->
  handleResponseWith rt cfg env again url destPath res isAuth s
  = (Returns true, s') ->
  stream_ok env destPath = true /\ stored_from_200 env destPath s'.
Proof.
  intros Hagain Hin Hres. unfold handleResponseWith.
  assert (Hrest :
    (if (statusCode res =? 401) && negb isAuth
     then
       match realmMatch (default "" (www_authenticate res)),
             nonceMatch (default "" (www_authenticate res)) with
       | Some realm, Some nonce =>
           bind (draw_cnonce rt) (fun cnonce =>
             bind (request env
                     (mkRequest GET (hostname url) 443 (pathname url)
                        [("Authorization",
                          createDigestAuth rt cfg cnonce realm nonce
                            (pathname url) "GET")] ""))
                  (fun x => match x with
                            | Fails _ => ret false
                            | Responds authRes => again authRes
                            end))
       | _, _ => ret false
       end
     else if statusCode res =? 200
          then pipe_to_file env destPath (body res)
          else ret false) s = (Returns true, s') ->
    stream_ok env destPath = true /\ stored_from_200 env destPath s').
  { destruct ((statusCode res =? 401) && negb isAuth).
    - destruct (realmMatch _) as [realm|]; [|discriminate].
      destruct (nonceMatch _) as [nonce|]; [|discriminate].
      unfold bind, draw_cnonce, request. cbn [with_sent with_draws sent draws].
      set (q := mkRequest GET _ _ _ _ _).
      destruct (server env q) as [authRes|err] eqn:Hauth; [|discriminate].
      intros Hrun. eapply Hagain; [|exact Hauth|exact Hrun].
      cbn. apply elem_of_app. right. apply list_elem_of_here.
    - destruct (statusCode res =? 200) eqn:H200; [|discriminate].
      apply Z.eqb_eq in H200. now apply (pipe_to_file_true env destPath res r). }
  destruct ((300 <=? statusCode res) && (statusCode res <? 400));
    [|destruct (truthy (location res)); exact Hrest].
  destruct (truthy (location res)) as [loc|]; [|exact Hrest].
  destruct (new_URL rt loc) as [redirectUrl|]; [|discriminate].
  unfold bind, request. set (q := mkRequest GET _ _ _ _ _).
  destruct (server env q) as [redirectRes|err] eqn:Hredirect; [|discriminate].
  destruct (statusCode redirectRes =? 200) eqn:H200; [|discriminate].
  apply Z.eqb_eq in H200.
  apply (pipe_to_file_true env destPath redirectRes q); try assumption.
  cbn. apply elem_of_app. right. apply list_elem_of_here.
Qed.

(** X12: when a download that is not a dry run returns true, the destination
    file holds the body of a response with status 200 that the server gave to
    one of the requests sent, and the write stream finished. *)
Theorem successful_download_stores_a_200_body (rt : Runtime) (cfg : Config)
    (env : Env) (fileUrl destPath : string) (s s' : State) :
  dryRun cfg = false ->
  downloadFile rt cfg env fileUrl destPath s = (Returns true, s') ->
  stream_ok env destPath = true /\ stored_from_200 env destPath s'.
Proof.
  intros Hdry. unfold downloadFile. rewrite Hdry.
  destruct (new_URL rt fileUrl) as [url|]; [|discriminate].
  unfold bind at 1.
  destruct (ensure_dir_sent (path_dirname rt destPath) s) as [Hret _].
  destruct (ensure_dir (path_dirname rt destPath) s) as [o s0].
  cbn [fst] in Hret. subst o. unfold bind, request.
  destruct (server env _) as [res|err] eqn:Hres; [|discriminate].
  unfold handleResponse. intros Hrun.
  eapply handleResponseWith_true; [| |exact Hres|exact Hrun].
  - intros r0 res0 s1 s2 Hin0 Hres0 Hinner.
    eapply handleResponseWith_true; [| exact Hin0 | exact Hres0 | exact Hinner].
    intros; discriminate.
  - cbn. apply elem_of_app. right. apply list_elem_of_here.
Qed.

Lemma successful_download_stores_a_200_body_witness :
  let cfg := Demo.config false false in
  let run := downloadFile Demo.runtime cfg Scenario.tree (href Scenario.policy)
               "./backups/Documents/Policy.pdf" Demo.start in
  stream_ok Scenario.tree "./backups/Documents/Policy.pdf" = true
  /\ stored_from_200 Scenario.tree "./backups/Documents/Policy.pdf" (snd run).
Proof.
  apply (successful_download_stores_a_200_body Demo.runtime
           (Demo.config false false) Scenario.tree (href Scenario.policy)
           "./backups/Documents/Policy.pdf" Demo.start).
  - reflexivity.
  - vm_compute. reflexivity.
Defined.

Lemma ensure_dir_run (dir : string) (s : State) :
  exists dirs, ensure_dir dir s = (Returns tt, with_disk_dirs dirs s).
Proof.
  unfold ensure_dir, bind, existsSync, get, mkdirSync, update, ret.
  cbn [fst snd].
  destruct (bool_decide _ || bool_decide _).
  - exists (disk_dirs s). now destruct s.
  - now exists (mkdir_dirs dir ∪ disk_dirs s).
Qed.

(** X13: when the request repeated with credentials is answered 401 again, the
    download returns false after these two requests and writes no file: there
    is no further attempt. *)
Theorem download_refused_after_authentication (rt : Runtime) (cfg : Config)
    (env : Env) (fileUrl destPath : string) (url : Url) (res authRes : Response)
    (realm nonce : string) (s : State) :
  dryRun cfg = false ->
  new_URL rt fileUrl = Some url ->
  server env (plain_get url) = Responds res ->
  statusCode res = 401 ->
  realmMatch (default "" (www_authenticate res)) = Some realm ->
  nonceMatch (default "" (www_authenticate res)) = Some nonce ->
  let retry :=
    auth_get url (createDigestAuth rt cfg (random_token rt (draws s)) realm nonce
                    (pathname url) "GET") in
  server env retry = Responds authRes ->
  statusCode authRes = 401 ->
  let run := downloadFile rt cfg env fileUrl destPath s in
  fst run = Returns false
  /\ sent (snd run) = (sent s ++ [plain_get url; retry])%list
  /\ disk_files (snd run) = disk_files s.
Proof.
  intros Hdry Hurl Hres Hst Hrealm Hnonce retry Hauth Hst2 run.
  destruct (ensure_dir_run (path_dirname rt destPath) s) as (dirs & Hdir).
  assert (Hrun : run = (Returns false,
                        with_sent (sent s ++ [plain_get url; retry])
                          (with_draws (S (draws s)) (with_disk_dirs dirs s)))).
  { subst run. unfold downloadFile. rewrite Hdry, Hurl.
    unfold bind at 1. rewrite Hdir. unfold bind at 1. unfold request at 1.
    fold (plain_get url). rewrite Hres.
    unfold handleResponse. unfold handleResponseWith at 1. rewrite Hst.
    replace ((300 <=? 401) && (401 <? 400)) with false by reflexivity.
    replace ((401 =? 401) && negb false) with true by reflexivity.
    rewrite Hrealm, Hnonce.
    assert (Hbody :
      (bind (draw_cnonce rt) (fun cnonce =>
         bind (request env
                 (mkRequest GET (hostname url) 443 (pathname url)
                    [("Authorization",
                      createDigestAuth rt cfg cnonce realm nonce
                        (pathname url) "GET")] ""))
              (fun x =>
                 match x with
                 | Fails _ => ret false
                 | Responds authRes0 =>
                     handleResponseWith rt cfg env (fun _ => ret false) url
                       destPath authRes0 true
                 end)))
        (with_sent (sent (with_disk_dirs dirs s) ++ [plain_get url])
           (with_disk_dirs dirs s))
      = (Returns false,
         with_sent (sent s ++ [plain_get url; retry])
           (with_draws (S (draws s)) (with_disk_dirs dirs s)))).
    { unfold bind, draw_cnonce, request. cbn [with_sent with_draws sent draws
        with_disk_dirs]. fold (auth_get url
          (createDigestAuth rt cfg (random_token rt (draws s)) realm nonce
             (pathname url) "GET")). fold retry. rewrite Hauth.
      unfold handleResponseWith. rewrite Hst2.
      replace ((300 <=? 401) && (401 <? 400)) with false by reflexivity.
      replace ((401 =? 401) && negb true) with false by reflexivity.
      replace (401 =? 200) with false by reflexivity.
      unfold ret, with_sent, with_draws, with_disk_dirs. cbn.
      rewrite <- app_assoc. now destruct (truthy (location authRes)). }
    now destruct (truthy (location res)). }
  rewrite Hrun. now repeat split.
Qed.

Lemma download_refused_after_authentication_witness :
  let cfg := Demo.config false false in
  let run := downloadFile Demo.runtime cfg Cases.wrong_password
               (href Scenario.policy) "./backups/Documents/Policy.pdf"
               Scenario.with_ledger in
  fst run = Returns false
  /\ length (sent (snd run)) = 2%nat
  /\ disk_files (snd run) = disk_files Scenario.with_ledger.
Proof.
  destruct (download_refused_after_authentication Demo.runtime
              (Demo.config false false) Cases.wrong_password
              (href Scenario.policy) "./backups/Documents/Policy.pdf"
              Cases.policy_url
              (mkResponse 401 (Some Demo.challenge) None "")
              (mkResponse 401 (Some Demo.challenge) None "")
              "WA" "abc123" Scenario.with_ledger)
    as (Hret & Hsent & Hdisk); try (vm_compute; reflexivity).
  split; [exact Hret|]. split; [now rewrite Hsent | exact Hdisk].
Defined.

(** X14: when the first answer is a redirect whose [Location] is not a valid
    URL for [new URL] (a relative path, for one), the [TypeError] raised
    inside the response callback is caught by nobody: the process ends after
    one request, no file written. *)
Theorem redirect_to_an_invalid_url_crashes (rt : Runtime) (cfg : Config)
    (env : Env) (fileUrl destPath loc : string) (url : Url) (res : Response)
    (s : State) :
  dryRun cfg = false ->
  new_URL rt fileUrl = Some url ->
  server env (plain_get url) = Responds res ->
  300 <= statusCode res < 400 ->
  location res = Some loc -> loc <> "" ->
  new_URL rt loc = None ->
  let run := downloadFile rt cfg env fileUrl destPath s in
  fst run = Crashes "TypeError: Invalid URL"
  /\ sent (snd run) = (sent s ++ [plain_get url])%list
  /\ disk_files (snd run) = disk_files s.
Proof.
  intros Hdry Hurl Hres Hst Hloc Hne Hbad run.
  destruct (ensure_dir_run (path_dirname rt destPath) s) as (dirs & Hdir).
  assert (Hrun : run = (Crashes "TypeError: Invalid URL",
                        with_sent (sent s ++ [plain_get url])
                          (with_disk_dirs dirs s))).
  { subst run. unfold downloadFile. rewrite Hdry, Hurl.
    unfold bind at 1. rewrite Hdir. unfold bind, request.
    fold (plain_get url). rewrite Hres.
    unfold handleResponse, handleResponseWith.
    replace ((300 <=? statusCode res) && (statusCode res <? 400)) with true
      by (symmetry; apply andb_true_iff; split;
          [apply Z.leb_le | apply Z.ltb_lt]; lia).
    rewrite Hloc. cbn [truthy].
    apply String.eqb_neq in Hne. rewrite Hne, Hbad. reflexivity. }
  rewrite Hrun. now repeat split.
Qed.

Lemma redirect_to_an_invalid_url_crashes_witness :
  let cfg := Demo.config false false in
  let run := downloadFile Demo.runtime cfg Cases.relative_redirect
               (href Scenario.policy) "./backups/Documents/Policy.pdf"
               Scenario.with_ledger in
  fst run = Crashes "TypeError: Invalid URL"
  /\ length (sent (snd run)) = 1%nat
  /\ disk_files (snd run) = disk_files Scenario.with_ledger.
Proof.
  destruct (redirect_to_an_invalid_url_crashes Demo.runtime
              (Demo.config false false) Cases.relative_redirect
              (href Scenario.policy) "./backups/Documents/Policy.pdf" "/login"
              Cases.policy_url (mkResponse 302 None (Some "/login") "")
              Scenario.with_ledger)
    as (Hret & Hsent & Hdisk);
    try (vm_compute; reflexivity); try discriminate; try (cbn; lia).
  split; [exact Hret|]. split; [now rewrite Hsent | exact Hdisk].
Defined.

(** ** The manifest file *)

Lemma JSON_parse_throws_None (rt : Runtime) (d : FileData) :
  JSON_parse_throws rt d = true -> JSON_parse d = None.
Proof.
  unfold JSON_parse_throws, JSON_parse. destruct (doc d); try reflexivity.
  now destruct (is_blank (text d)).
Qed.

Lemma needsSync_emptyManifest (f : FileInfo) :
  needsSync f emptyManifest
  = if String.eqb (relativePath f) "__proto__"
       || bool_decide (relativePath f ∈ Object_prototype_names)
    then modified else new.
Proof.
  rewrite needsSync_no_entry by apply lookup_empty.
  unfold inherited_at. cbn [files_proto emptyManifest mbind option_bind].
  destruct (String.eqb _ _); [reflexivity|].
  now destruct (bool_decide _).
Qed.

(** X15: when the manifest file is missing, or holds what [JSON.parse]
    rejects, [loadManifest] returns the empty manifest; a missing file leaves
    the state as it was, an existing one makes it log one warning.  Against
    the empty manifest every file is [new], unless its [relativePath] is the
    name of a property of [Object.prototype]: it is [modified] then. *)
Theorem unreadable_manifest_starts_fresh (rt : Runtime) (cfg : Config) (s : State) :
  (forall d, disk_files s !! manifestFile cfg = Some d ->
             JSON_parse_throws rt d = true) ->
  let run := loadManifest rt cfg s in
  fst run = Returns emptyManifest
  /\ (forall f, relativePath f <> "__proto__" ->
                relativePath f ∉ Object_prototype_names ->
                needsSync f emptyManifest = new)
  /\ (forall f, relativePath f = "__proto__"
                \/ relativePath f ∈ Object_prototype_names ->
                needsSync f emptyManifest = modified)
  /\ (disk_files s !! manifestFile cfg = None ->
      manifestFile cfg ∉ disk_dirs s -> snd run = s)
  /\ (is_Some (disk_files s !! manifestFile cfg) ->
      exists message, snd run = snd (log rt cfg message WARN s)).
Proof.
  intros Hbad. cbv zeta.
  assert (Hclass :
            (forall f, relativePath f <> "__proto__" ->
                       relativePath f ∉ Object_prototype_names ->
                       needsSync f emptyManifest = new)
            /\ (forall f, relativePath f = "__proto__"
                          \/ relativePath f ∈ Object_prototype_names ->
                          needsSync f emptyManifest = modified)).
  { split.
    - intros f Hp Hn. rewrite needsSync_emptyManifest.
      apply String.eqb_neq in Hp as ->. now rewrite bool_decide_eq_false_2.
    - intros f [Hp|Hn]; rewrite needsSync_emptyManifest.
      + now rewrite Hp.
      + rewrite (bool_decide_eq_true_2 _ Hn). now rewrite orb_true_r. }
  destruct Hclass as [Hnew Hmod].
  destruct (log_returns rt cfg
      "Failed to load manifest, starting fresh: SyntaxError" WARN s)
      as (s' & Hl & _).
  unfold loadManifest, bind, existsSync, get. cbn [fst snd]. cbv beta.
  destruct (disk_files s !! manifestFile cfg) as [d|] eqn:Hd.
  - rewrite bool_decide_eq_true_2 by eauto. cbn [orb]. rewrite Hd.
    change (Some d ≫= JSON_parse) with (JSON_parse d).
    change (JSON_parse_throws rt <$> Some d) with (Some (JSON_parse_throws rt d)).
    rewrite (JSON_parse_throws_None rt d (Hbad d eq_refl)), (Hbad d eq_refl).
    unfold default, from_option, id. cbv beta iota. rewrite Hl. cbn [fst snd ret].
    split; [reflexivity|]. split; [exact Hnew|]. split; [exact Hmod|].
    split; [discriminate|]. intros _.
    exists "Failed to load manifest, starting fresh: SyntaxError".
    now rewrite Hl.
  - rewrite bool_decide_eq_false_2 by apply is_Some_None. cbn [orb].
    destruct (bool_decide_reflect (manifestFile cfg ∈ disk_dirs s)) as [Hdir|Hdir].
    + rewrite Hd. change (None ≫= JSON_parse) with (@None Manifest).
      change (JSON_parse_throws rt <$> None) with (@None bool).
      unfold default, from_option, id. cbv beta iota. rewrite Hl. cbn [fst snd ret].
      split; [reflexivity|]. split; [exact Hnew|]. split; [exact Hmod|].
      split; [intros _ Hno; now destruct Hno|].
      intros Hsome. now apply is_Some_None in Hsome.
    + cbn [fst snd ret].
      split; [reflexivity|]. split; [exact Hnew|]. split; [exact Hmod|].
      split; [reflexivity|].
      intros Hsome. now apply is_Some_None in Hsome.
Qed.

Lemma unreadable_manifest_starts_fresh_witness :
  let cfg := Demo.config false false in
  let s := with_disk_files
             {[ "./backup-manifest.json" := mkFileData NoDoc "<html>" ]}
             Demo.start in
  let run := loadManifest Demo.runtime cfg s in
  fst run = Returns emptyManifest
  /\ needsSync Scenario.policy emptyManifest = new
  /\ exists message, snd run = snd (log Demo.runtime cfg message WARN s).
Proof.
  cbv zeta.
  destruct (unreadable_manifest_starts_fresh Demo.runtime
              (Demo.config false false)
              (with_disk_files
                 {[ "./backup-manifest.json" := mkFileData NoDoc "<html>" ]}
                 Demo.start))
    as (Hret & Hnew & _ & _ & Hwarn).
  { intros d Hd. vm_compute in Hd. injection Hd as <-. reflexivity. }
  split; [exact Hret|]. split.
  - apply Hnew; [discriminate|]. intros H. unfold Object_prototype_names in H.
    repeat (apply elem_of_cons in H as [H|H]; [discriminate H|]).
    inversion H.
  - apply Hwarn. vm_compute. eauto.
Defined.

(** X28: a file that has no entry in the manifest and whose [relativePath]
    is the name of a property of [Object.prototype] ([constructor],
    [toString], ...) is classified [modified], not [new]:
    [manifest.files[file.relativePath]] is then the inherited member, an
    object without [size]. *)
Theorem inherited_name_without_entry_is_modified (file : FileInfo) (m : Manifest) :
  relativePath file ∈ Object_prototype_names ->
  files m !! relativePath file = None ->
  files_at m (relativePath file) = BuiltinObject
  /\ needsSync file m = modified.
Proof.
  intros Hn He.
  assert (Hin : inherited_at m (relativePath file) = BuiltinObject).
  { unfold inherited_at. rewrite (bool_decide_eq_true_2 _ Hn).
    unfold Object_prototype_names in Hn.
    destruct (files_proto m) as [e|];
      repeat (apply elem_of_cons in Hn as [-> | Hn]; [reflexivity|]);
      inversion Hn. }
  split.
  - unfold files_at. now rewrite He.
  - now rewrite (needsSync_no_entry file m He), Hin.
Qed.

Lemma inherited_name_without_entry_is_modified_witness :
  let file :=
    mkFileInfo (Demo.root +:+ "constructor") "constructor" "constructor" 12
      false "300" (Num 300) in
  files Scenario.ledger !! relativePath file = None
  /\ needsSync file Scenario.ledger = modified.
Proof.
  cbv zeta. split; [reflexivity|].
  apply (inherited_name_without_entry_is_modified
           (mkFileInfo (Demo.root +:+ "constructor") "constructor" "constructor"
              12 false "300" (Num 300)) Scenario.ledger).
  - unfold Object_prototype_names. apply list_elem_of_here.
  - reflexivity.
Defined.

(** X29: for a file whose [relativePath] is [__proto__], when the manifest
    has no own entry of that name, the assignment of [syncFiles] replaces
    the prototype of [manifest.files] and adds no entry: the entries are as
    they were, the manifest that is written and read back is the one that
    would be without the download, and against it the file is classified
    [modified] again. *)
Theorem file_named_proto_is_never_recorded (file : FileInfo)
    (e : ManifestEntry) (m : Manifest) :
  relativePath file = "__proto__" ->
  files m !! "__proto__" = None ->
  let m' := files_assign (relativePath file) e m in
  files m' = files m
  /\ files_proto m' = Some e
  /\ json_roundtrip m' = json_roundtrip m
  /\ needsSync file (json_roundtrip m') = modified.
Proof.
  intros Hrel He. cbv zeta. rewrite Hrel, (files_assign_proto e m He).
  cbn [files files_proto]. split; [reflexivity|]. split; [reflexivity|].
  split; [reflexivity|].
  assert (Hnone : files (json_roundtrip
                           (mkManifest (lastFullSync m) (lastIncrementalSync m)
                              (totalFiles m) (totalSize m) (files m) (Some e)))
                  !! relativePath file = None).
  { rewrite Hrel. unfold json_roundtrip. cbn [files].
    now rewrite lookup_fmap, He. }
  rewrite (needsSync_no_entry file _ Hnone), Hrel. reflexivity.
Qed.

Lemma file_named_proto_is_never_recorded_witness :
  let file :=
    mkFileInfo (Demo.root +:+ "__proto__") "__proto__" "__proto__" 12
      false "300" (Num 300) in
  let m' := files_assign "__proto__" (entry_of file "2026-01-03T00:00:00.0Z")
              Scenario.ledger in
  files m' = files Scenario.ledger
  /\ needsSync file (json_roundtrip m') = modified.
Proof.
  cbv zeta.
  destruct (file_named_proto_is_never_recorded
              (mkFileInfo (Demo.root +:+ "__proto__") "__proto__" "__proto__" 12
                 false "300" (Num 300))
              (entry_of (mkFileInfo (Demo.root +:+ "__proto__") "__proto__"
                           "__proto__" 12 false "300" (Num 300))
                 "2026-01-03T00:00:00.0Z")
              Scenario.ledger eq_refl eq_refl) as (Hfiles & _ & _ & Hmod).
  split; [exact Hfiles | exact Hmod].
Defined.






(** ** Counters of the scan *)

Lemma scan_tally_same (s s' : State) :
  stats s' = stats s -> filesToSync s' = filesToSync s ->
  manifest s' = manifest s ->
  scan_tally s s'.
Proof.
  intros Hst Hl Hm. unfold scan_tally. rewrite Hst, Hl, Hm.
  repeat split; try lia. exists []. now rewrite app_nil_r.
Qed.

Lemma scan_tally_bookkeeping : Bookkeeping scan_tally.
Proof.
  split.
  - intros s. now apply scan_tally_same.
  - intros a b c (H1 & H2 & H3 & H4 & H5 & H6 & H7 & H8 & H9 & m1 & H10)
      (K1 & K2 & K3 & K4 & K5 & K6 & K7 & K8 & K9 & m2 & K10).
    unfold scan_tally. repeat split; try lia; try congruence.
    exists (m1 ++ m2)%list. now rewrite K10, H10, app_assoc.
  - intros s n. now apply scan_tally_same.
  - intros s n. now apply scan_tally_same.
  - intros s l. now apply scan_tally_same.
Qed.

Lemma scanFolder_tally (rt : Runtime) (cfg : Config) (env : Env)
    (fuel : nat) (folderPath : string) :
  keeps scan_tally (scanFolder rt cfg env fuel folderPath).
Proof.
  apply keeps_scanFolder.
  - apply scan_tally_bookkeeping.
  - intros s d. now apply scan_tally_same.
  - intros s. unfold scan_tally. cbn. repeat split; try lia.
    exists []. now rewrite app_nil_r.
  - intros s e. unfold scan_tally. cbn. repeat split; try lia. now exists [e].
  - intros item s. rewrite scanFile_run. cbn [snd].
    destruct (if fullSync cfg then new else needsSync item (manifest s));
      unfold scan_tally; cbn; rewrite ?length_app; cbn;
      repeat split; try lia; exists []; now rewrite app_nil_r.
Qed.

(** X17: however a scan ends, each file it found was counted once, as new,
    modified or unchanged, the to-sync list grew by exactly the files counted
    new or modified, and the download counters, the manifest and the errors
    recorded before were left alone. *)
Theorem scan_counts_every_file_once (rt : Runtime) (cfg : Config) (env : Env)
    (fuel : nat) (folderPath : string) (s : State) :
  scan_tally s (snd (scanFolder rt cfg env fuel folderPath s))
  /\ (zeroed (stats s) -> filesToSync s = [] ->
      let s' := snd (scanFolder rt cfg env fuel folderPath s) in
      filesFound (stats s')
      = filesNew (stats s') + filesModified (stats s') + filesUnchanged (stats s')
      /\ Z.of_nat (length (filesToSync s'))
         = filesNew (stats s') + filesModified (stats s')).
Proof.
  pose proof (scanFolder_tally rt cfg env fuel folderPath s) as Htally.
  split; [exact Htally|].
  intros (_ & Hf & Hn & Hm & Hu & _) Hl. cbv zeta.
  destruct Htally as (H1 & H2 & _). rewrite Hl in H2. cbn in H2. lia.
Qed.

Lemma scan_counts_every_file_once_witness :
  let s' := snd (scanFolder Demo.runtime (Demo.config false false) Scenario.tree 5
                   "" Demo.start) in
  filesFound (stats s')
  = filesNew (stats s') + filesModified (stats s') + filesUnchanged (stats s')
  /\ Z.of_nat (length (filesToSync s'))
     = filesNew (stats s') + filesModified (stats s').
Proof.
  destruct (scan_counts_every_file_once Demo.runtime (Demo.config false false)
              Scenario.tree 5 "" Demo.start) as [_ H].
  apply H; [now repeat split | reflexivity].
Defined.

(** ** A listing that fails *)

(** X18: [scanFolder] never rejects.  When the listing of its folder is
    rejected with [e], it returns normally after recording and logging the
    one error [Failed to scan folder <path>: <e>]; the folder is counted as
    scanned and the to-sync list and the manifest are as before. *)
Theorem scan_records_a_failed_listing (rt : Runtime) (cfg : Config) (env : Env)
    (fuel : nat) (folderPath e : string) (s : State) :
  fst (propfind rt cfg env folderPath
         (with_stats (bump_foldersScanned (stats s)) s)) = Throws e ->
  let run := scanFolder rt cfg env (S fuel) folderPath s in
  fst run = Returns tt
  /\ errors (stats (snd run))
     = (errors (stats s)
        ++ ["Failed to scan folder " +:+ folderPath +:+ ": " +:+ e])%list
  /\ foldersScanned (stats (snd run)) = foldersScanned (stats s) + 1
  /\ filesToSync (snd run) = filesToSync s
  /\ manifest (snd run) = manifest s
  /\ forall depth folder s' e',
       fst (scanFolder rt cfg env depth folder s') <> Throws e'.
Proof.
  intros Hthrow run.
  set (error := "Failed to scan folder " +:+ folderPath +:+ ": " +:+ e).
  set (s0 := with_stats (bump_foldersScanned (stats s)) s) in *.
  pose proof (keeps_propfind same_objects same_objects_bookkeeping rt cfg env
                folderPath s0) as (Hm & Hst & Hl).
  destruct (propfind rt cfg env folderPath s0) as [o s1] eqn:Hp.
  cbn [fst snd] in *. subst o.
  destruct (log_returns rt cfg error ERROR s1)
    as (s2 & Hlog & Hm2 & Hst2 & Hl2).
  assert (Hrun : run = (Returns tt, with_stats (push_error error (stats s2)) s2)).
  { subst run. cbn [scanFolder]. unfold bind at 1. cbn [set_stats update fst snd].
    fold s0. unfold try_catch, bind at 1. rewrite Hp. fold error.
    unfold bind. now rewrite Hlog. }
  rewrite Hrun. cbn. rewrite Hst2, Hst, Hl2, Hl, Hm2, Hm.
  repeat split. intros depth folder s' e'. apply scanFolder_does_not_throw.
Qed.

Lemma scan_records_a_failed_listing_witness :
  let cfg := Demo.config false false in
  let run := scanFolder Demo.runtime cfg Cases.unreachable 1 "Documents"
               Scenario.with_ledger in
  fst run = Returns tt
  /\ errors (stats (snd run))
     = ["Failed to scan folder Documents: Error: connect ECONNREFUSED"]
  /\ filesToSync (snd run) = [].
Proof.
  destruct (scan_records_a_failed_listing Demo.runtime (Demo.config false false)
              Cases.unreachable 0 "Documents" "Error: connect ECONNREFUSED"
              Scenario.with_ledger)
    as (Hret & Herr & _ & Hlist & _).
  { vm_compute. reflexivity. }
  split; [exact Hret|]. split; [exact Herr | exact Hlist].
Defined.

(** ** Counters of the sync phase *)



Lemma sync_tally_app (l1 l2 f1 f2 : list FileInfo) (a b c : State) :
  sync_tally l1 f1 a b -> sync_tally l2 f2 b c ->
  sync_tally (l1 ++ l2) (f1 ++ f2) a c.
Proof.
  intros (H1 & H2 & H3 & H4 & H5 & H6 & H7 & H8 & H9)
    (K1 & K2 & K3 & K4 & K5 & K6 & K7 & K8 & K9).
  assert (Hsum : forall x y, total_size (x ++ y) = total_size x + total_size y).
  { intros x y. induction x as [|f x IH]; [reflexivity|].
    change (size f + total_size (x ++ y) = size f + total_size x + total_size y).
    rewrite IH. lia. }
  unfold sync_tally. rewrite !length_app, !Hsum, map_app.
  repeat split; try lia; try congruence.
  - now apply sublist_app.
  - rewrite K2, H2. now rewrite app_assoc.
Qed.




Lemma syncFile_dry_run (rt : Runtime) (cfg : Config) (env : Env)
    (file : FileInfo) (s : State) :
  dryRun cfg = true ->
  syncFile rt cfg env file s =
  (Returns tt,
   with_manifest
     (files_assign (relativePath file)
        (entry_of file (toISOString rt (clock s))) (manifest s))
     (with_clock (S (clock s))
        (with_stats (count_download (size file) (stats s)) s))).
Proof.
  intros Hdry. apply (syncFile_success rt cfg env file s s).
  unfold downloadFile. now rewrite Hdry.
Qed.

(** An assignment leaves every key recorded that was. *)
Lemma files_assign_recorded (key key' : string) (e' : ManifestEntry)
    (m : Manifest) :
  recorded m key -> recorded (files_assign key' e' m) key.
Proof.
  intros [e He]. destruct (decide (key = key')) as [->|Hne].
  { exists e'. apply files_assign_at. }
  unfold recorded, files_at in *. rewrite (files_assign_other key' key e' m Hne).
  destruct (files m !! key) as [e0|] eqn:Hown; [now exists e0|].
  unfold inherited_at in He.
  destruct (String.eqb_spec key "__proto__") as [->|Hk].
  - destruct (files_proto m) as [p|] eqn:Hp; [|discriminate].
    rewrite files_assign_own by (left; congruence).
    exists p. unfold inherited_at. cbn. now rewrite Hp.
  - exfalso. destruct (files_proto m) as [p|]; cbn in He.
    + unfold entry_field in He.
      repeat (destruct (String.eqb key _); [discriminate|]).
      destruct (String.eqb key "hash").
      * destruct (e_hash p); cbn in He; [discriminate|].
        now destruct (bool_decide _).
      * now destruct (bool_decide _).
    + now destruct (bool_decide _).
Qed.

(** X20: in a dry run the sync loop returns with every file of the list
    counted as downloaded, its size added to [bytesDownloaded] and
    [manifest.files[relativePath]] set to an entry in the manifest in memory
    (a property of its own, unless the path is [__proto__]), without a
    request sent or a file or directory written. *)
Theorem dry_run_counts_every_file_as_downloaded (rt : Runtime) (cfg : Config)
    (env : Env) (toSync : list FileInfo) (s : State) :
  dryRun cfg = true ->
  let run := syncFiles rt cfg env toSync s in
  fst run = Returns tt
  /\ sync_tally toSync [] s (snd run)
  /\ sent (snd run) = sent s
  /\ disk_files (snd run) = disk_files s
  /\ disk_dirs (snd run) = disk_dirs s
  /\ (forall key, is_Some (files (manifest s) !! key) ->
                  is_Some (files (manifest (snd run)) !! key))
  /\ (forall key, recorded (manifest s) key ->
                  recorded (manifest (snd run)) key)
  /\ (forall f, f ∈ toSync ->
        recorded (manifest (snd run)) (relativePath f)
        /\ (relativePath f <> "__proto__" ->
            is_Some (files (manifest (snd run)) !! relativePath f))).
Proof.
  intros Hdry. cbv zeta. unfold syncFiles. revert s.
  induction toSync as [|file rest IH]; intros s.
  - cbn. unfold sync_tally. cbn. rewrite app_nil_r.
    repeat split; try lia; try constructor; auto;
      match goal with H : _ ∈ [] |- _ => inversion H end.
  - cbn [for_each]. unfold bind. rewrite (syncFile_dry_run rt cfg env file s Hdry).
    cbv beta iota. set (s0 := with_manifest _ _).
    destruct (IH s0) as (Hret & Htally & Hsent & Hfiles & Hdirs & Hkeys & Hrec & Hall).
    assert (Hstep : sync_tally [file] [] s s0).
    { unfold sync_tally. subst s0. cbn. rewrite app_nil_r.
      repeat split; try lia. apply sublist_nil_l. }
    split; [exact Hret|].
    split; [exact (sync_tally_app [file] rest [] [] s s0 _ Hstep Htally)|].
    split; [exact Hsent|]. split; [exact Hfiles|]. split; [exact Hdirs|].
    split; [|split].
    + intros key Hkey. apply Hkeys. subst s0. cbn.
      now apply files_assign_keeps.
    + intros key Hkey. apply Hrec. subst s0. cbn.
      now apply files_assign_recorded.
    + intros f Hf. apply elem_of_cons in Hf as [-> | Hf]; [|now apply Hall].
      split.
      * apply Hrec. subst s0. cbn. eexists. apply files_assign_at.
      * intros Hplain. apply Hkeys. subst s0. cbn.
        rewrite files_assign_own by now left. cbn.
        apply lookup_insert_is_Some'. now left.
Qed.

Lemma dry_run_counts_every_file_as_downloaded_witness :
  let cfg := Demo.config true false in
  let run := syncFiles Demo.runtime cfg Scenario.not_found [Scenario.policy]
               Demo.start in
  fst run = Returns tt
  /\ filesDownloaded (stats (snd run)) = 1
  /\ sent (snd run) = []
  /\ disk_files (snd run) = ∅.
Proof.
  destruct (dry_run_counts_every_file_as_downloaded Demo.runtime
              (Demo.config true false) Scenario.not_found [Scenario.policy]
              Demo.start eq_refl)
    as (Hret & (_ & _ & Hcount & _) & Hsent & Hdisk & _).
  split; [exact Hret|]. split; [exact Hcount|].
  split; [exact Hsent | exact Hdisk].
Defined.

(** ** The manifest a run leaves *)






(** ** What a clean exit means *)










(** ** Relations kept by a whole run *)

Section Run.

Variable rt : Runtime.
Variable cfg : Config.
Variable env : Env.
Variable toSync : list FileInfo.
Variable R : State -> State -> Prop.
Hypothesis HR : RunSteps rt cfg toSync R.

Lemma run_memory {A} (m : M A) :
  (forall s, disk_files (snd (m s)) = disk_files s
             /\ disk_dirs (snd (m s)) = disk_dirs s
             /\ sent (snd (m s)) = sent s) ->
  keeps R m.
Proof.
  intros H s. destruct (H s) as (Hf & Hd & Hs).
  now apply (rs_memory rt cfg toSync R HR).
Qed.

Lemma run_bind {A B} (m : M A) (k : A -> M B) :
  keeps R m -> (forall a, keeps R (k a)) -> keeps R (bind m k).
Proof.
  intros Hm Hk s. unfold bind. specialize (Hm s).
  destruct (m s) as [[a|e|e|c| | |] s']; cbn [snd] in *; try assumption.
  eapply (rs_trans rt cfg toSync R HR); [exact Hm | apply Hk].
Qed.

Lemma run_try_catch {A} (m : M A) (h : string -> M A) :
  keeps R m -> (forall e, keeps R (h e)) -> keeps R (try_catch m h).
Proof.
  intros Hm Hh s. unfold try_catch. specialize (Hm s).
  destruct (m s) as [[a|e|e|c| | |] s']; cbn [snd] in *; try assumption.
  eapply (rs_trans rt cfg toSync R HR); [exact Hm | apply Hh].
Qed.

Lemma run_for_each {A} (l : list A) (f : A -> M unit) :
  (forall x, x ∈ l -> keeps R (f x)) -> keeps R (for_each l f).
Proof.
  intros H. induction l as [|x l IH]; cbn [for_each].
  - now apply run_memory.
  - apply run_bind; [apply H, list_elem_of_here | intros _].
    apply IH. intros y Hy. now apply H, list_elem_of_further.
Qed.

Lemma run_log (message level : string) : keeps R (log rt cfg message level).
Proof.
  unfold log. apply run_bind; [now apply run_memory|]. intros ts s.
  apply (rs_log rt cfg toSync R HR).
Qed.

(** What follows a reading of the clock as a text gets such a text. *)
Lemma run_now_iso {B} (k : string -> M B) :
  (forall n, keeps R (k (toISOString rt n))) -> keeps R (bind (now_iso rt) k).
Proof.
  intros Hk s. unfold bind, now_iso, bind, tick, ret.
  eapply (rs_trans rt cfg toSync R HR); [|apply Hk].
  now apply (rs_memory rt cfg toSync R HR).
Qed.

Lemma run_resolve_parsed (data folderPath : string) :
  keeps R (resolve_parsed rt data folderPath).
Proof.
  apply run_memory. intros s. now rewrite resolve_parsed_state.
Qed.

Lemma run_propfind (folderPath : string) : keeps R (propfind rt cfg env folderPath).
Proof.
  unfold propfind. destruct (new_URL rt _) as [url|]; [|now apply run_memory].
  apply run_bind; [intros s; now apply (rs_listing rt cfg toSync R HR)|].
  intros [res|err]; [|now apply run_memory].
  destruct (statusCode res =? 401); [|apply run_resolve_parsed].
  destruct (realmMatch _) as [realm|]; [|now apply run_memory].
  destruct (nonceMatch _) as [nonce|]; [|now apply run_memory].
  apply run_bind; [now apply run_memory|]. intros cnonce.
  apply run_bind; [intros s; now apply (rs_listing rt cfg toSync R HR)|].
  intros [authRes|err]; [|now apply run_memory].
  destruct (statusCode authRes =? 207);
    [apply run_resolve_parsed | now apply run_memory].
Qed.

Lemma run_ensure_dir (dir : string) :
  run_mkdirs rt cfg toSync dir -> keeps R (ensure_dir dir).
Proof.
  intros Hdir. unfold ensure_dir. apply run_bind; [now apply run_memory|].
  intros [|]; [now apply run_memory|]. intros s.
  now apply (rs_mkdir rt cfg toSync R HR).
Qed.

Lemma run_scanFile (item : FileInfo) : keeps R (scanFile cfg item).
Proof.
  apply run_memory. intros s. rewrite scanFile_run. cbn [snd].
  now destruct (if fullSync cfg then new else needsSync item (manifest s)).
Qed.

Lemma run_scanFolder (fuel : nat) (folderPath : string) :
  keeps R (scanFolder rt cfg env fuel folderPath).
Proof.
  revert folderPath. induction fuel as [|fuel IH]; intros folderPath;
    cbn [scanFolder]; [now apply run_memory|].
  apply run_bind; [now apply run_memory|]. intros _.
  apply run_try_catch.
  - apply run_bind; [apply run_propfind|]. intros items.
    apply run_for_each. intros item _.
    destruct (isFolder item); [apply IH | apply run_scanFile].
  - intros e. apply run_bind; [apply run_log|]. intros _. now apply run_memory.
Qed.

Lemma run_loadManifest : keeps R (loadManifest rt cfg).
Proof.
  unfold loadManifest. apply run_bind; [now apply run_memory|].
  intros [|]; [|now apply run_memory].
  apply run_bind; [now apply run_memory|]. intros content.
  destruct (content ≫= JSON_parse); [now apply run_memory|].
  destruct (default true _); [|now apply run_memory].
  apply run_bind; [apply run_log|]. intros _. now apply run_memory.
Qed.

(** [init] from the point where the backup root is there. *)
Lemma run_init_tail (startTime : Z) :
  keeps R (loaded <- loadManifest rt cfg ;;
           update (with_manifest loaded) ;;
           log rt cfg ("Manifest loaded: " +:+ of_Z (count_keys loaded)
                       +:+ " files tracked") INFO ;;
           ret startTime).
Proof.
  apply run_bind; [apply run_loadManifest | intros loaded].
  apply run_bind; [now apply run_memory | intros _].
  apply run_bind; [apply run_log | intros _]. now apply run_memory.
Qed.

Lemma run_init : keeps R (init rt cfg).
Proof.
  unfold init.
  do 3 (apply run_bind; [now apply run_memory | intros ?]).
  do 3 (apply run_bind; [apply run_log | intros _]).
  apply run_bind; [apply run_ensure_dir; now left | intros _].
  apply run_init_tail.
Qed.

Lemma run_scanning (fuel : nat) : keeps R (scanning rt cfg env fuel).
Proof.
  unfold scanning.
  apply run_bind; [apply run_log | intros _].
  apply run_bind; [now apply run_memory | intros _].
  apply run_bind; [apply run_scanFolder | intros _].
  apply run_bind; [now apply run_memory | intros st]. apply run_log.
Qed.

Lemma run_write (p : string) (d : FileData) :
  dryRun cfg = false -> run_writes rt cfg toSync p -> keeps R (writeFileSync p d).
Proof. intros Hdry Hp s. now apply (rs_write rt cfg toSync R HR). Qed.

Lemma run_pipe_to_file (file : FileInfo) (data : string) :
  dryRun cfg = false -> file ∈ toSync ->
  keeps R (pipe_to_file env (destination rt cfg file) data).
Proof.
  intros Hdry Hin. unfold pipe_to_file. destruct (stream_ok env _);
    [|now apply run_memory].
  apply run_bind; [|intros _; now apply run_memory].
  apply run_write; [assumption|]. right. right. now exists file.
Qed.

Lemma run_get (r : Request) :
  dryRun cfg = false -> rq_method r = GET -> keeps R (request env r).
Proof. intros Hdry Hr s. now apply (rs_get rt cfg toSync R HR). Qed.

Lemma run_handleResponseWith (again : Response -> M bool) (url : Url)
    (file : FileInfo) (res : Response) (isAuth : bool) :
  dryRun cfg = false -> file ∈ toSync ->
  (forall r, keeps R (again r)) ->
  keeps R (handleResponseWith rt cfg env again url
             (destination rt cfg file) res isAuth).
Proof.
  intros Hdry Hin Hagain. unfold handleResponseWith.
  destruct ((300 <=? statusCode res) && (statusCode res <? 400)),
    (truthy (location res)) as [loc|].
  1: { destruct (new_URL rt loc) as [redirectUrl|]; [|now apply run_memory].
       apply run_bind; [now apply run_get|].
       intros [redirectRes|err]; [|now apply run_memory].
       destruct (statusCode redirectRes =? 200);
         [now apply run_pipe_to_file | now apply run_memory]. }
  all: destruct ((statusCode res =? 401) && negb isAuth);
    [ destruct (realmMatch _) as [realm|]; [|now apply run_memory];
      destruct (nonceMatch _) as [nonce|]; [|now apply run_memory];
      apply run_bind; [now apply run_memory|];
      intros cnonce;
      apply run_bind; [now apply run_get|];
      intros [authRes|err]; [apply Hagain | now apply run_memory]
    | destruct (statusCode res =? 200);
      [now apply run_pipe_to_file | now apply run_memory] ].
Qed.

Lemma run_downloadFile (fileUrl : string) (file : FileInfo) :
  file ∈ toSync ->
  keeps R (downloadFile rt cfg env fileUrl (destination rt cfg file)).
Proof.
  intros Hin. unfold downloadFile.
  destruct (dryRun cfg) eqn:Hdry; [now apply run_memory|].
  destruct (new_URL rt fileUrl) as [url|]; [|now apply run_memory].
  apply run_bind.
  { apply run_ensure_dir. right. split; [assumption|]. now exists file. }
  intros _. apply run_bind; [now apply run_get|].
  intros [res|err]; [|now apply run_memory].
  unfold handleResponse. apply run_handleResponseWith; [assumption..|].
  intros authRes. apply run_handleResponseWith; [assumption..|].
  intros r. now apply run_memory.
Qed.

Lemma run_syncFile (file : FileInfo) :
  file ∈ toSync -> keeps R (syncFile rt cfg env file).
Proof.
  intros Hin. unfold syncFile.
  apply run_bind; [now apply run_downloadFile|]. intros [|].
  - do 2 (apply run_bind; [now apply run_memory | intros ?]).
    now apply run_memory.
  - apply run_bind; [apply run_log | intros _]. now apply run_memory.
Qed.

(** The sync phase, started with a to-sync list made of files of
    [toSync]. *)
Lemma run_syncing (s : State) :
  (forall f, f ∈ filesToSync s -> f ∈ toSync) ->
  R s (snd (syncing rt cfg env s)).
Proof.
  intros Hq. unfold syncing, bind at 1, get. cbn [fst snd].
  destruct (0 <? length (filesToSync s))%nat; [|apply run_log].
  apply run_bind; [apply run_log | intros _].
  apply run_for_each. intros file Hin. now apply run_syncFile, Hq.
Qed.

Lemma run_finalizing (startTime : Z) : keeps R (finalizing rt cfg startTime).
Proof.
  unfold finalizing, saveManifest.
  do 3 (apply run_bind; [now apply run_memory | intros ?]).
  apply run_bind.
  { destruct (dryRun cfg) eqn:Hdry; cbn [negb]; [now apply run_memory|].
    apply run_write; [assumption | now left]. }
  intros _. do 3 (apply run_bind; [now apply run_memory | intros ?]).
  apply run_now_iso. intros n.
  apply run_bind.
  { destruct (dryRun cfg) eqn:Hdry; cbn [negb]; [now apply run_memory|].
    apply run_write; [assumption|]. right. left. now exists n. }
  intros _. apply run_bind; [apply run_log | intros _].
  destruct (0 <? length _)%nat; now apply run_memory.
Qed.

Lemma run_fatal (e : string) :
  keeps R (log rt cfg ("Fatal error: " +:+ e) ERROR ;; @exit unit 1).
Proof. apply run_bind; [apply run_log | intros _]. now apply run_memory. Qed.

(** A run from some point of [init] on, when [toSync] is the to-sync list it
    ends with. *)
Lemma run_from (m : M Z) (fuel : nat) (s : State) :
  keeps R m ->
  let run :=
    try_catch
      (startTime <- m ;;
       scanning rt cfg env fuel ;;
       syncing rt cfg env ;;
       finalizing rt cfg startTime)
      (fun e => log rt cfg ("Fatal error: " +:+ e) ERROR ;; exit 1) s in
  filesToSync (snd run) = toSync -> R s (snd run).
Proof.
  intros Hm. cbv zeta.
  pose proof (rs_trans rt cfg toSync R HR) as Htrans.
  assert (Hmain :
            filesToSync
              (snd ((startTime <- m ;;
                     scanning rt cfg env fuel ;;
                     syncing rt cfg env ;;
                     finalizing rt cfg startTime) s)) = toSync ->
            R s (snd ((startTime <- m ;;
                       scanning rt cfg env fuel ;;
                       syncing rt cfg env ;;
                       finalizing rt cfg startTime) s))).
  { apply (bind_final (fun s' => filesToSync s' = toSync -> R s s')).
    2: { intros _ _. apply Hm. }
    intros t0 sa Hrun.
    assert (Ha : R s sa). { specialize (Hm s). now rewrite Hrun in Hm. }
    apply (bind_final (fun s' => filesToSync s' = toSync -> R s s')).
    2: { intros _ _. eapply Htrans; [exact Ha | apply run_scanning]. }
    intros [] sb Hrun'.
    assert (Hb : R s sb).
    { eapply Htrans; [exact Ha|].
      pose proof (run_scanning fuel sa) as H. now rewrite Hrun' in H. }
    pose proof (same_queue_tail rt cfg env t0 sb) as Hq.
    unfold same_queue in Hq. intros Hend. rewrite Hq in Hend.
    eapply Htrans; [exact Hb|].
    apply (bind_final (fun s' => R sb s')).
    - intros [] sc Hrun''. eapply Htrans; [|apply run_finalizing].
      pose proof (run_syncing sb) as H. rewrite Hrun'' in H. apply H.
      intros f Hf. now rewrite <- Hend.
    - intros _. apply run_syncing. intros f Hf. now rewrite <- Hend. }
  unfold try_catch.
  destruct ((startTime <- m ;; scanning rt cfg env fuel ;;
             syncing rt cfg env ;; finalizing rt cfg startTime) s)
    as [[[]|e|e|c| | |] s1]; cbn [fst snd] in *; try assumption.
  intros Hend. pose proof (same_queue_fatal rt cfg e s1) as Hq.
  unfold same_queue in Hq. rewrite Hq in Hend.
  eapply Htrans; [now apply Hmain | apply run_fatal].
Qed.

Lemma run_program (fuel : nat) (s : State) :
  filesToSync (snd (program rt cfg env fuel s)) = toSync ->
  R s (snd (program rt cfg env fuel s)).
Proof.
  unfold program, main. destruct (String.eqb (password cfg) "").
  - intros _. now apply (rs_memory rt cfg toSync R HR).
  - apply (run_from (init rt cfg) fuel s run_init).
Qed.

End Run.

(** *** Files outside the reach of a run *)

Lemma others_untouched_steps (rt : Runtime) (cfg : Config) (cwd : string)
    (toSync : list FileInfo) :
  RunSteps rt cfg toSync (others_untouched rt cfg cwd toSync).
Proof.
  split.
  - intros a b c Hab Hbc p Hlog Hw. now rewrite (Hbc p Hlog Hw), (Hab p Hlog Hw).
  - intros s s' Hf _ _ p _ _. now rewrite Hf.
  - intros s r _ p _ _. reflexivity.
  - intros _ s r _ p _ _. reflexivity.
  - intros s line p Hlog _. cbn. apply lookup_insert_ne.
    intros <-. apply Hlog, same_file_refl.
  - intros _ s p d Hp q _ Hq. cbn. apply lookup_insert_ne.
    intros <-. apply (Hq p Hp), same_file_refl.
  - intros s dir _ p _ _. reflexivity.
Qed.

(** X23: a run, however it ends and in any mode, changes no file other than
    the log, the manifest file, a report file and the destinations of the
    files of its to-sync list: a path that names none of these files holds
    after the run what it held before. *)
Theorem run_leaves_other_files_untouched (rt : Runtime) (cfg : Config)
    (env : Env) (fuel : nat) (s : State) (cwd p : string) :
  let s' := snd (program rt cfg env fuel s) in
  ~ same_file cwd p (logFile cfg) ->
  ~ same_file cwd p (manifestFile cfg) ->
  (forall n, ~ same_file cwd p (reportFile (toISOString rt n))) ->
  (forall f, f ∈ filesToSync s' -> ~ same_file cwd p (destination rt cfg f)) ->
  disk_files s' !! p = disk_files s !! p.
Proof.
  intros s' Hlog Hmanifest Hreport Hdest.
  apply (run_program rt cfg env (filesToSync s') _
           (others_untouched_steps rt cfg cwd (filesToSync s')) fuel s eq_refl p
           Hlog).
  intros q [-> | [(n & ->) | (f & Hf & ->)]].
  - exact Hmanifest.
  - apply Hreport.
  - now apply Hdest.
Qed.

Lemma run_leaves_other_files_untouched_witness :
  let cfg := Demo.config false true in
  let s := with_disk_files {[ "/etc/hosts" := mkFileData NoDoc "127.0.0.1" ]}
             Demo.start in
  disk_files (snd (program Demo.runtime cfg Scenario.tree 5 s)) !! "/etc/hosts"
  = Some (mkFileData NoDoc "127.0.0.1").
Proof.
  cbv zeta.
  rewrite (run_leaves_other_files_untouched Demo.runtime (Demo.config false true)
             Scenario.tree 5 _ "/srv/wa").
  - reflexivity.
  - intros H. vm_compute in H. discriminate H.
  - intros H. vm_compute in H. discriminate H.
  - intros n H. vm_compute in H. discriminate H.
  - intros f Hf H. vm_compute in Hf.
    apply list_elem_of_singleton in Hf. subst f.
    vm_compute in H. discriminate H.
Defined.

(** *** Nothing is deleted *)

Lemma nothing_deleted_steps (rt : Runtime) (cfg : Config)
    (toSync : list FileInfo) :
  RunSteps rt cfg toSync nothing_deleted.
Proof.
  split.
  - intros a b c [H1 H2] [H3 H4]. split; etrans; eassumption.
  - intros s s' Hf Hd _. unfold nothing_deleted. now rewrite Hf, Hd.
  - intros s r _. now split.
  - intros _ s r _. now split.
  - intros s line. split; [|reflexivity]. cbn. apply dom_insert_subseteq.
  - intros _ s p d _. split; [|reflexivity]. cbn. apply dom_insert_subseteq.
  - intros s dir _. split; [reflexivity|]. cbn. apply union_subseteq_r.
Qed.

(** X24: a run never deletes anything: every file and every directory that
    existed before it exists after it, however the run ends (a file the
    server no longer lists stays in the backup). *)
Theorem run_deletes_nothing (rt : Runtime) (cfg : Config) (env : Env)
    (fuel : nat) (s : State) :
  let s' := snd (program rt cfg env fuel s) in
  (forall p, is_Some (disk_files s !! p) -> is_Some (disk_files s' !! p))
  /\ (forall dir, dir ∈ disk_dirs s -> dir ∈ disk_dirs s').
Proof.
  destruct (run_program rt cfg env _ _ (nothing_deleted_steps rt cfg _) fuel s
              eq_refl) as [Hfiles Hdirs].
  split.
  - intros p Hp. apply elem_of_dom, Hfiles, elem_of_dom, Hp.
  - intros dir Hdir. now apply Hdirs.
Qed.

Lemma run_deletes_nothing_witness :
  let s := with_disk_files {[ "./backups/Old/gone.txt" := mkFileData NoDoc "kept" ]}
             Scenario.with_ledger in
  is_Some (disk_files (snd (program Demo.runtime (Demo.config false true)
                              Scenario.tree 5 s))
             !! "./backups/Old/gone.txt").
Proof.
  cbv zeta.
  destruct (run_deletes_nothing Demo.runtime (Demo.config false true)
              Scenario.tree 5
              (with_disk_files
                 {[ "./backups/Old/gone.txt" := mkFileData NoDoc "kept" ]}
                 Scenario.with_ledger)) as [H _].
  apply H. cbn. rewrite lookup_singleton_eq. eauto.
Defined.

(** *** The log only grows *)

Lemma log_text_append (cfg : Config) (line : string) (s : State) :
  log_text cfg (snd (appendFileSync (logFile cfg) line s))
  = log_text cfg s +:+ line.
Proof.
  unfold log_text. cbn. rewrite lookup_insert_eq. cbn.
  now destruct (disk_files s !! logFile cfg).
Qed.

Lemma log_extended_same (cfg : Config) (s s' : State) :
  disk_files s' !! logFile cfg = disk_files s !! logFile cfg ->
  log_extended cfg s s'.
Proof.
  intros H. exists "". unfold log_text. rewrite H. now rewrite append_empty_r.
Qed.

Lemma log_extended_trans (cfg : Config) (a b c : State) :
  log_extended cfg a b -> log_extended cfg b c -> log_extended cfg a c.
Proof.
  intros [l1 H1] [l2 H2]. exists (l1 +:+ l2). now rewrite H2, H1, append_assoc.
Qed.

Lemma log_extended_steps (rt : Runtime) (cfg : Config) (toSync : list FileInfo) :
  (forall p, run_writes rt cfg toSync p -> p <> logFile cfg) ->
  RunSteps rt cfg toSync (log_extended cfg).
Proof.
  intros Hapart. split.
  - apply log_extended_trans.
  - intros s s' Hf _ _. apply log_extended_same. now rewrite Hf.
  - intros s r _. now apply log_extended_same.
  - intros _ s r _. now apply log_extended_same.
  - intros s line. exists line. apply log_text_append.
  - intros _ s p d Hp. apply log_extended_same. cbn. apply lookup_insert_ne.
    now apply Hapart.
  - intros s dir _. now apply log_extended_same.
Qed.

(** X25: when the log file is the same file as neither the manifest, nor a
    report, nor the destination of a file of the run's to-sync list, a run
    only appends to it: the text it held before is a prefix of the text it
    holds after, however the run ends. *)
Theorem log_is_only_appended_to (rt : Runtime) (cfg : Config) (env : Env)
    (fuel : nat) (s : State) (cwd : string) :
  let s' := snd (program rt cfg env fuel s) in
  ~ same_file cwd (manifestFile cfg) (logFile cfg) ->
  (forall n, ~ same_file cwd (reportFile (toISOString rt n)) (logFile cfg)) ->
  (forall f, f ∈ filesToSync s' ->
             ~ same_file cwd (destination rt cfg f) (logFile cfg)) ->
  exists lines, log_text cfg s' = log_text cfg s +:+ lines.
Proof.
  intros s' Hmanifest Hreport Hdest.
  apply (run_program rt cfg env (filesToSync s') (log_extended cfg));
    [|reflexivity].
  apply log_extended_steps.
  intros p [-> | [(n & ->) | (f & Hf & ->)]] Heq.
  - apply Hmanifest. now rewrite Heq.
  - apply (Hreport n). now rewrite Heq.
  - apply (Hdest f Hf). now rewrite Heq.
Qed.

Lemma log_is_only_appended_to_witness :
  let cfg := Demo.config false false in
  let s := with_disk_files
             {[ "./backup.log" := mkFileData NoDoc "earlier run" ]} Demo.start in
  exists lines,
    log_text cfg (snd (program Demo.runtime cfg Scenario.tree 5 s))
    = "earlier run" +:+ lines.
Proof.
  cbv zeta.
  destruct (log_is_only_appended_to Demo.runtime (Demo.config false false)
              Scenario.tree 5
              (with_disk_files
                 {[ "./backup.log" := mkFileData NoDoc "earlier run" ]}
                 Demo.start)
              "/srv/wa") as [lines Hlines].
  - intros H. vm_compute in H. discriminate H.
  - intros n H. vm_compute in H. discriminate H.
  - intros f Hf H. vm_compute in Hf.
    apply list_elem_of_singleton in Hf. subst f.
    vm_compute in H. discriminate H.
  - exists lines. exact Hlines.
Defined.

(** *** A dry run downloads nothing *)

Lemma only_listings_sent_steps (rt : Runtime) (cfg : Config)
    (toSync : list FileInfo) :
  dryRun cfg = true -> RunSteps rt cfg toSync only_listings_sent.
Proof.
  intros Hdry.
  assert (Hsame : forall s s', sent s' = sent s -> only_listings_sent s s').
  { intros s s' H. exists []. rewrite app_nil_r. split; [exact H | constructor]. }
  split.
  - intros a b c (l1 & H1 & F1) (l2 & H2 & F2). exists (l1 ++ l2)%list.
    split; [now rewrite H2, H1, app_assoc | now apply Forall_app].
  - intros s s' _ _ Hs. now apply Hsame.
  - intros s r Hr. exists [r]. split; [reflexivity | now repeat constructor].
  - intros Hno. congruence.
  - intros s line. now apply Hsame.
  - intros Hno. congruence.
  - intros s dir _. now apply Hsame.
Qed.

(** X26: every request a dry run sends is a [PROPFIND]: nothing is
    downloaded. *)
Theorem dry_run_sends_listing_requests_only (rt : Runtime) (cfg : Config)
    (env : Env) (fuel : nat) (s : State) :
  dryRun cfg = true ->
  exists requests,
    sent (snd (program rt cfg env fuel s)) = (sent s ++ requests)%list
    /\ Forall (fun r => rq_method r = PROPFIND) requests.
Proof.
  intros Hdry.
  exact (run_program rt cfg env _ _ (only_listings_sent_steps rt cfg _ Hdry)
           fuel s eq_refl).
Qed.

Lemma dry_run_sends_listing_requests_only_witness :
  let cfg := Demo.config true false in
  exists requests,
    sent (snd (program Demo.runtime cfg Scenario.tree 5 Demo.start))
    = ([] ++ requests)%list
    /\ Forall (fun r => rq_method r = PROPFIND) requests.
Proof.
  exact (dry_run_sends_listing_requests_only Demo.runtime (Demo.config true false)
           Scenario.tree 5 Demo.start eq_refl).
Defined.

(** *** A dry run *)




Section InitHead.

Variable rt : Runtime.
Variable cfg : Config.




End InitHead.




(** ** The report *)

Example seconds_toFixed1_ex :
  map seconds_toFixed1 [0; 50; 150; 250; 1450; 1500; 61234; -40]
  = ["0.0"; "0.1"; "0.1"; "0.3"; "1.4"; "1.5"; "61.2"; "-0.0"].
Proof. vm_compute. reflexivity. Qed.






